(** * TF-IDF inverted index: indexer, search engine and query cache

    A shallow embedding of [backend/apps/search]:
    - [services/preprocessor.py]  text normalisation ([Preprocessor]),
    - [models.py]                 the two tables the index uses ([Models]),
    - [services/indexer.py]       [IndexBuilder] ([Indexer]),
    - [services/search.py]        [SearchEngine] and [SearchCache] ([Search]).

    Conventions.
    - Python [int] is [Z]; Python [str] is [string], one character for each
      code point, for text whose code points are below 256.
    - Python [float] scores are read as real numbers: [math.log] is [ln],
      [/] is real division, [+] and [*] are the real operations.
    - A [dict] is an association list in insertion order, because the order
      of [dict.items()] decides the order of the rows that are written and
      read back.
    - A database table is the list of its rows, and a query without
      [order_by] is read in the order of the table; the database may yield
      the rows in another order, so what depends on it is stated for every
      order of the rows ([Search.rank]).  Automatic primary keys of index
      rows are not modelled. *)

From Stdlib Require Import ZArith List String Ascii Bool Lia Reals Lra.
From Stdlib Require Import Permutation Sorted.
Import ListNotations.

(* ------------------------------------------------------------------ *)
(** * Python built-ins used by the services *)
(* ------------------------------------------------------------------ *)

Module Py.

Local Open Scope Z_scope.

(** [len] of a sequence, as a Python integer. *)
Definition len {A : Type} (l : list A) : Z := Z.of_nat (List.length l).

(** [c.isspace()], which is also the class [\s] of [re] and what
    [str.strip()] removes: tab, newline, vertical tab, form feed, carriage
    return, the four separators 0x1c-0x1f, the blank, and above the ASCII
    range the next-line control U+0085 and the no-break space U+00A0. *)
Definition isspace (c : ascii) : bool :=
  let n := N_of_ascii c in
  ((9 <=? n) && (n <=? 13) || (28 <=? n) && (n <=? 32)
   || (n =? 133) || (n =? 160))%N.

(** [c.isdigit()]: the ten digits, and above the ASCII range the
    superscripts U+00B2, U+00B3 and U+00B9. *)
Definition isdigit_char (c : ascii) : bool :=
  let n := N_of_ascii c in
  ((48 <=? n) && (n <=? 57) || (n =? 178) || (n =? 179) || (n =? 185))%N.

Fixpoint forallb_string (p : ascii -> bool) (s : string) : bool :=
  match s with
  | EmptyString => true
  | String c s' => p c && forallb_string p s'
  end.

(** [s.isdigit()]: at least one character, and all of them digits. *)
Definition isdigit (s : string) : bool :=
  match s with
  | EmptyString => false
  | _ => forallb_string isdigit_char s
  end.

(** [not s.strip()]: nothing is left once the white space is stripped. *)
Definition strip_is_empty (s : string) : bool := forallb_string isspace s.

(** [c.lower()]: the letters A-Z, and above the ASCII range the letters
    U+00C0-U+00DE (the multiplication sign U+00D7 is not one). *)
Definition lower_char (c : ascii) : ascii :=
  let n := N_of_ascii c in
  if ((65 <=? n) && (n <=? 90)
      || (192 <=? n) && (n <=? 222) && negb (n =? 215))%N
  then ascii_of_N (n + 32) else c.

(** [s.lower()]. *)
Fixpoint lower (s : string) : string :=
  match s with
  | EmptyString => EmptyString
  | String c s' => String (lower_char c) (lower s')
  end.

(** [seq[:k]]: the first [k] items when [k >= 0]; all but the last [-k]
    items when [k < 0]. *)
Definition slice_to {A : Type} (l : list A) (k : Z) : list A :=
  if 0 <=? k then firstn (Z.to_nat k) l
  else firstn (Z.to_nat (len l + k)) l.

(** [sep.join(parts)]. *)
Fixpoint join (sep : string) (parts : list string) : string :=
  match parts with
  | [] => EmptyString
  | [p] => p
  | p :: rest => (p ++ sep ++ join sep rest)%string
  end.

(** ** [defaultdict(int)] keyed by strings *)

Definition counter := list (string * Z).

(** [d[k]] on a [defaultdict(int)] read, without the insertion a read of a
    missing key would make (every read in the services is of a present
    key, or its result for a missing key is 0 and the dict is not used
    again in a way that sees the new key). *)
Fixpoint counter_get (d : counter) (k : string) : Z :=
  match d with
  | [] => 0
  | (k', v) :: d' => if String.eqb k k' then v else counter_get d' k
  end.

(** [d[k] += 1]: a present key is updated in place, a missing key is
    appended with the value 1. *)
Fixpoint counter_incr (d : counter) (k : string) : counter :=
  match d with
  | [] => [(k, 1)]
  | (k', v) :: d' =>
      if String.eqb k k' then (k', v + 1) :: d'
      else (k', v) :: counter_incr d' k
  end.

(** [d.keys()]. *)
Definition keys (d : counter) : list string := map fst d.

(** ** A plain [dict] keyed by integers *)

Fixpoint dict_set {V : Type} (d : list (Z * V)) (k : Z) (v : V)
  : list (Z * V) :=
  match d with
  | [] => [(k, v)]
  | (k', v') :: d' =>
      if Z.eqb k k' then (k', v) :: d' else (k', v') :: dict_set d' k v
  end.

End Py.

(* ------------------------------------------------------------------ *)
(** * services/preprocessor.py *)
(* ------------------------------------------------------------------ *)

Module Preprocessor.

(** The parts of NLTK the preprocessor calls: [word_tokenize],
    [stopwords.words('english')] and [PorterStemmer().stem].  They are not
    code of this repository, so the preprocessor is written over them. *)
Class Nltk : Type := {
  word_tokenize : string -> list string;
  stop_words : list string;
  stem : string -> string
}.

Definition starts_with (p s : string) : bool := String.prefix p s.

(** The character after a prefix of length [n], if it is not white space:
    the [\S+] that must follow the scheme. *)
Definition nonspace_at (n : nat) (s : string) : bool :=
  match String.get n s with
  | Some c => negb (Py.isspace c)
  | None => false
  end.

(** Does [https?://\S+|www\.\S+] match at the start of [s]? *)
Definition url_here (s : string) : bool :=
  (starts_with "http://" s && nonspace_at 7 s)
  || (starts_with "https://" s && nonspace_at 8 s)
  || (starts_with "www." s && nonspace_at 4 s).

(** [re.sub(r'https?://\S+|www\.\S+', '', text)].  [skipping] is true inside
    a match: the greedy [\S+] runs to the next white space. *)
Fixpoint remove_urls_from (skipping : bool) (s : string) : string :=
  match s with
  | EmptyString => EmptyString
  | String c s' =>
      if skipping then
        if Py.isspace c then String c (remove_urls_from false s')
        else remove_urls_from true s'
      else if url_here s then remove_urls_from true s'
      else String c (remove_urls_from false s')
  end.

Definition remove_urls (s : string) : string := remove_urls_from false s.

(** The run of non-space characters at the start of [s]. *)
Fixpoint chunk (s : string) : string :=
  match s with
  | EmptyString => EmptyString
  | String c s' => if Py.isspace c then EmptyString else String c (chunk s')
  end.

(** Is there an [@] in [s] with a character after it? *)
Fixpoint at_with_follower (s : string) : bool :=
  match s with
  | String "@"%char (String _ _ as rest) => true
  | String _ rest => at_with_follower rest
  | EmptyString => false
  end.

(** Does [\S+@\S+] match the white-space delimited run [w]?  It does when
    some [@] has a character before and after it, and then the match is
    the whole run. *)
Definition email_chunk (w : string) : bool :=
  match w with
  | EmptyString => false
  | String _ rest => at_with_follower rest
  end.

(** [re.sub(r'\S+@\S+', '', text)].  [at_start] is true at the first
    character of a run, [skipping] inside a run that matched. *)
Fixpoint remove_emails_from (at_start skipping : bool) (s : string) : string :=
  match s with
  | EmptyString => EmptyString
  | String c s' =>
      if Py.isspace c then String c (remove_emails_from true false s')
      else
        let skip := if at_start then email_chunk (chunk s) else skipping in
        if skip then remove_emails_from false true s'
        else String c (remove_emails_from false false s')
  end.

Definition remove_emails (s : string) : string :=
  remove_emails_from true false s.

Definition is_lower_alnum (c : ascii) : bool :=
  let n := N_of_ascii c in
  ((97 <=? n) && (n <=? 122) || (48 <=? n) && (n <=? 57))%N.

(** [re.sub(r'[^a-z0-9\s]', ' ', text)]. *)
Fixpoint remove_punctuation (s : string) : string :=
  match s with
  | EmptyString => EmptyString
  | String c s' =>
      String (if is_lower_alnum c || Py.isspace c then c else " "%char)
             (remove_punctuation s')
  end.

(** [re.sub(r'\s+', ' ', text).strip()]: every run of white space becomes
    one blank, and the blanks at both ends go.  [pending] is true when a
    run of white space has been read after some kept character. *)
Fixpoint squeeze_from (started pending : bool) (s : string) : string :=
  match s with
  | EmptyString => EmptyString
  | String c s' =>
      if Py.isspace c then squeeze_from started started s'
      else
        let rest := String c (squeeze_from true false s') in
        if pending then String " "%char rest else rest
  end.

Definition squeeze (s : string) : string := squeeze_from false false s.

(** The text handed to the tokenizer. *)
Definition clean (text : string) : string :=
  squeeze (remove_punctuation (remove_emails (remove_urls (Py.lower text)))).

Section WithNltk.
Context {nltk : Nltk}.

Definition in_stop_words (token : string) : bool :=
  existsb (String.eqb token) stop_words.

(** The test of the token loop: short tokens, stopwords and pure numbers
    are skipped. *)
Definition skipped (token : string) : bool :=
  (Nat.ltb (String.length token) 2 || in_stop_words token)
  || Py.isdigit token.

(** The token loop of [preprocess]: a token that is kept is stemmed, and
    the stem is what is appended. *)
Fixpoint process_tokens (tokens : list string) : list string :=
  match tokens with
  | [] => []
  | token :: rest =>
      if skipped token then process_tokens rest
      else stem token :: process_tokens rest
  end.

(** [TextPreprocessor.preprocess(text, return_tokens=True)].  The tokenizer
    stands for the whole [try: word_tokenize(text) except: text.split()]. *)
Definition preprocess (text : string) : list string :=
  match text with
  | EmptyString => []
  | _ => process_tokens (word_tokenize (clean text))
  end.

(** [preprocess_text(text, return_tokens=True)]. *)
Definition preprocess_text (text : string) : list string := preprocess text.

End WithNltk.

End Preprocessor.

(* ------------------------------------------------------------------ *)
(** * models.py *)
(* ------------------------------------------------------------------ *)

Module Models.

(** A row of [Publication]; [pub_id] is the primary key [id].  The fields
    the index never reads (link, dates, authors) are left out. *)
Record Publication : Type := {
  pub_id : Z;
  title : string;
  abstract : string;
  searchable_content : string
}.

(** A row of [InvertedIndexEntry]; [publication_id] is the foreign key. *)
Record InvertedIndexEntry : Type := {
  term : string;
  publication_id : Z;
  tfidf_score : R;
  term_frequency : Z
}.

(** The two tables. [publications] is in the order [Publication.objects.all()]
    yields its rows: the newest first, by [Meta.ordering = ['-created_at']]. *)
Record Database : Type := {
  publications : list Publication;
  index_entries : list InvertedIndexEntry
}.

Definition has_publication (db : Database) (k : Z) : bool :=
  existsb (fun p => Z.eqb (pub_id p) k) (publications db).

(** Every index row points to a row of [Publication]: what the foreign key
    with [on_delete=CASCADE] maintains. *)
Definition referential_integrity (db : Database) : Prop :=
  forall e, In e (index_entries db) ->
            has_publication db (publication_id e) = true.

(** [pub.searchable_content = text; pub.save(update_fields=[...])] for the
    row whose key is [k]. *)
Definition save_searchable_content
    (rows : list Publication) (k : Z) (text : string) : list Publication :=
  map (fun p =>
         if Z.eqb (pub_id p) k
         then {| pub_id := pub_id p; title := title p;
                 abstract := abstract p; searchable_content := text |}
         else p) rows.

End Models.

(* ------------------------------------------------------------------ *)
(** * services/indexer.py *)
(* ------------------------------------------------------------------ *)

Module Indexer.
Import Models Preprocessor.

(** [log(total_docs / doc_freq) if doc_freq > 0 else 0]. *)
Definition idf (total_docs doc_freq : Z) : R :=
  if (0 <? doc_freq)%Z then ln (IZR total_docs / IZR doc_freq) else 0%R.

(** [tfidf = tf * idf]. *)
Definition tfidf (tf total_docs doc_freq : Z) : R :=
  (IZR tf * idf total_docs doc_freq)%R.

(** The state of an [IndexBuilder] object that its methods use.
    [self.documents] and [self.doc_term_freq] are set by [__init__] and
    never touched again. *)
Record IndexBuilder : Type := {
  term_doc_freq : Py.counter
}.

(** [IndexBuilder()]. *)
Definition new_builder : IndexBuilder := {| term_doc_freq := [] |}.

(** What [build_index] returns. *)
Inductive BuildResult : Type :=
| no_documents (entries_created : Z)
| success (documents_indexed entries_created unique_terms : Z).

(** What [update_index] returns. *)
Record UpdateResult : Type := {
  update_entries_created : Z
}.

(** An exception leaving a method. *)
Inductive Exn : Type := DatabaseError.

Inductive Outcome (A : Type) : Type :=
| Returned (a : A)
| Raised (e : Exn).
Arguments Returned {A} a.
Arguments Raised {A} e.

Section WithNltk.
Context {nltk : Nltk}.

(** [content = f"{pub.title} {pub.abstract}"]. *)
Definition content (pub : Publication) : string :=
  (title pub ++ " " ++ abstract pub)%string.

(** The inner loop of the first pass of [build_index]:
    [[
      for token in tokens:
          term_freq[token] += 1
          self.term_doc_freq[token] += 1
    ]] *)
Fixpoint count_tokens (tokens : list string)
    (term_freq term_doc_freq : Py.counter) : Py.counter * Py.counter :=
  match tokens with
  | [] => (term_freq, term_doc_freq)
  | token :: rest =>
      count_tokens rest (Py.counter_incr term_freq token)
                        (Py.counter_incr term_doc_freq token)
  end.

(** The loop variables of the first pass. *)
Record Pass : Type := {
  doc_terms : list (Z * Py.counter);
  pass_term_doc_freq : Py.counter;
  pass_rows : list Publication
}.

(** One iteration of [for pub in publications]. *)
Definition index_publication (st : Pass) (pub : Publication) : Pass :=
  let tokens := preprocess_text (content pub) in
  let '(term_freq, tdf) := count_tokens tokens [] (pass_term_doc_freq st) in
  {| doc_terms := Py.dict_set (doc_terms st) (pub_id pub) term_freq;
     pass_term_doc_freq := tdf;
     pass_rows := save_searchable_content (pass_rows st) (pub_id pub)
                    (Py.join " " tokens) |}.

Definition first_pass (pubs : list Publication) (st : Pass) : Pass :=
  fold_left index_publication pubs st.

(** The rows made for one document in the second pass. *)
Definition entries_of_document (total_docs : Z) (tdf : Py.counter)
    (pub_id : Z) (term_freq : Py.counter) : list InvertedIndexEntry :=
  map (fun '(term, freq) =>
         {| term := term;
            publication_id := pub_id;
            tfidf_score := tfidf freq total_docs (Py.counter_get tdf term);
            term_frequency := freq |}) term_freq.

(** [entries_to_create] after the second pass. *)
Definition entries_to_create (total_docs : Z) (tdf : Py.counter)
    (doc_terms : list (Z * Py.counter)) : list InvertedIndexEntry :=
  flat_map (fun '(pub_id, term_freq) =>
              entries_of_document total_docs tdf pub_id term_freq) doc_terms.

(** [IndexBuilder.build_index].  With no publication it returns at once.
    Otherwise the index table is emptied, the first pass counts, the second
    makes the rows, and [bulk_create] writes them into the empty table. *)
Definition build_index (self : IndexBuilder) (db : Database)
  : BuildResult * IndexBuilder * Database :=
  let pubs := publications db in
  let total_docs := Py.len pubs in
  if (total_docs =? 0)%Z then (no_documents 0, self, db)
  else
    let st := first_pass pubs
                {| doc_terms := [];
                   pass_term_doc_freq := term_doc_freq self;
                   pass_rows := pubs |} in
    let entries :=
      entries_to_create total_docs (pass_term_doc_freq st) (doc_terms st) in
    (success total_docs (Py.len entries) (Py.len (pass_term_doc_freq st)),
     {| term_doc_freq := pass_term_doc_freq st |},
     {| publications := pass_rows st; index_entries := entries |}).

(** [for token in tokens: term_freq[token] += 1] of [update_index]. *)
Definition count_terms (tokens : list string) : Py.counter :=
  fold_left Py.counter_incr tokens [].

(** [InvertedIndexEntry.objects.filter(term=term)
       .values('publication').distinct().count()]. *)
Definition publications_holding
    (entries : list InvertedIndexEntry) (t : string) : Z :=
  Py.len (nodup Z.eq_dec
            (map publication_id
                 (filter (fun e => String.eqb (term e) t) entries))).

(** [IndexBuilder.update_index(publication)].  The object must have a row:
    [save(update_fields=...)] raises when it updates none, after the old
    index rows of the publication are gone. *)
Definition update_index (self : IndexBuilder) (db : Database)
    (publication : Publication) : Outcome UpdateResult * Database :=
  let k := pub_id publication in
  let kept :=
    filter (fun e => negb (Z.eqb (publication_id e) k)) (index_entries db) in
  let total_docs := Py.len (publications db) in
  let tokens := preprocess_text (content publication) in
  let term_freq := count_terms tokens in
  if has_publication db k then
    let rows :=
      save_searchable_content (publications db) k (Py.join " " tokens) in
    let entries :=
      map (fun '(t, freq) =>
             let doc_freq := (publications_holding kept t + 1)%Z in
             {| term := t;
                publication_id := k;
                tfidf_score := tfidf freq total_docs doc_freq;
                term_frequency := freq |}) term_freq in
    (Returned {| update_entries_created := Py.len entries |},
     {| publications := rows; index_entries := kept ++ entries |})
  else
    (Raised DatabaseError,
     {| publications := publications db; index_entries := kept |}).

End WithNltk.

End Indexer.

(* ------------------------------------------------------------------ *)
(** * services/search.py *)
(* ------------------------------------------------------------------ *)

Module Search.
Import Models Preprocessor.

Local Open Scope R_scope.

(** [x <= y] on scores, as the test of a branch. *)
Definition Rleb (x y : R) : bool := if Rle_dec x y then true else false.

(** [round(score, 4)]: the nearest multiple of 1/10000, a tie going to the
    even one. *)
Definition round_half_even (y : R) : Z :=
  let f := Int_part y in
  let d := frac_part y in
  if Rlt_dec d (1 / 2) then f
  else if Rlt_dec (1 / 2) d then (f + 1)%Z
  else if Z.even f then f else (f + 1)%Z.

Definition round4 (score : R) : R :=
  IZR (round_half_even (score * 10000)) / 10000.

(** The attributes [SearchEngine.__init__] sets. *)
Record SearchEngine : Type := {
  min_score_threshold : R;
  max_results : Z
}.

(** [SearchEngine()]. *)
Definition new_engine : SearchEngine :=
  {| min_score_threshold := 1 / 100; max_results := 500 |}.

(** [doc_scores[k] += x] on a [defaultdict(float)]. *)
Fixpoint score_add (d : list (Z * R)) (k : Z) (x : R) : list (Z * R) :=
  match d with
  | [] => [(k, 0 + x)]
  | (k', v) :: d' =>
      if Z.eqb k k' then (k', v + x) :: d' else (k', v) :: score_add d' k x
  end.

(** [InvertedIndexEntry.objects.filter(term__in=query_tokens)
       .select_related('publication')]: the rows of the index whose term is
    one of the tokens, joined with their publication (an inner join, the
    foreign key is not nullable).  The query has no [order_by]: the rows
    are given here in the order of the table, and the database may yield
    them in another.  What depends on that order, the place of two
    publications with the same score, is stated with [rank] for every
    order of the rows. *)
Definition matching_entries (db : Database) (query_tokens : list string)
  : list InvertedIndexEntry :=
  filter (fun e => existsb (String.eqb (term e)) query_tokens
                   && has_publication db (publication_id e))
         (index_entries db).

(** [doc_scores[entry.publication_id] += entry.tfidf_score]. *)
Definition accumulate (d : list (Z * R)) (entry : InvertedIndexEntry)
  : list (Z * R) :=
  score_add d (publication_id entry) (tfidf_score entry).

(** The loop [for entry in matching_entries] over an empty
    [defaultdict(float)]. *)
Definition doc_scores (entries : list InvertedIndexEntry) : list (Z * R) :=
  fold_left accumulate entries [].

(** The dict comprehension [filtered_docs]. *)
Definition filtered_docs (self : SearchEngine) (scores : list (Z * R))
  : list (Z * R) :=
  filter (fun x => Rleb (min_score_threshold self) (snd x)) scores.

(** One step of a stable sort by falling score: [x] stood before every item
    of [l], so it goes in front of the first item that is not above it. *)
Fixpoint insert_desc (x : Z * R) (l : list (Z * R)) : list (Z * R) :=
  match l with
  | [] => [x]
  | y :: l' =>
      if Rleb (snd y) (snd x) then x :: l else y :: insert_desc x l'
  end.

(** [sorted(items, key=lambda x: x[1], reverse=True)]; [sorted] is stable
    and stays so with [reverse=True]. *)
Definition sorted_desc (items : list (Z * R)) : list (Z * R) :=
  fold_right insert_desc [] items.

(** The last loop of [search]: [pub.relevance_score = round(score, 4)] for
    each ranked publication. *)
Definition results (docs : list (Z * R)) : list (Z * R) :=
  map (fun '(doc_id, score) => (doc_id, round4 score)) docs.

(** [search] from the loop over [matching_entries] on, when the query
    yields [rows]: the scores are summed in the order of the rows, which is
    the order of the keys of [doc_scores], and the stable sort leaves
    publications with the same score in that order. *)
Definition rank (self : SearchEngine) (rows : list InvertedIndexEntry)
    (top_n : Z) : list (Z * R) :=
  match rows with
  | [] => []
  | _ =>
    match filtered_docs self (doc_scores rows) with
    | [] => []
    | _ =>
      results
        (Py.slice_to (sorted_desc (filtered_docs self (doc_scores rows)))
                     (Z.min top_n (max_results self)))
    end
  end.

Section WithNltk.
Context {nltk : Nltk}.

(** The local [sorted_docs] of [search]: publication keys with their
    aggregate score, after the cut. *)
Definition sorted_docs (self : SearchEngine) (db : Database)
    (query_tokens : list string) (top_n : Z) : list (Z * R) :=
  Py.slice_to
    (sorted_desc (filtered_docs self (doc_scores (matching_entries db query_tokens))))
    (Z.min top_n (max_results self)).

(** [SearchEngine.search(query, top_n)].  A returned [Publication] object is
    given by its key, with the [relevance_score] set on it. *)
Definition search (self : SearchEngine) (db : Database)
    (query : string) (top_n : Z) : list (Z * R) :=
  match query with
  | EmptyString => []
  | _ =>
    if Py.strip_is_empty query then []
    else
      let query_tokens := preprocess_text query in
      match query_tokens with
      | [] => []
      | _ =>
        match matching_entries db query_tokens with
        | [] => []
        | _ =>
          match filtered_docs self
                  (doc_scores (matching_entries db query_tokens)) with
          | [] => []
          | _ =>
            results (sorted_docs self db query_tokens top_n)
          end
        end
      end
  end.

(** ** [SearchCache]

    [get_cached_search] is wrapped by [functools.lru_cache(maxsize=100)]:
    a table from the arguments to the value returned for them, most
    recently used first.  One [SearchCache] object is modelled, so [self]
    is the same in every key. *)
Definition CacheKey : Type := (string * Z)%type.

Definition LruCache : Type := list (CacheKey * list Z).

Definition lru_maxsize : nat := 100.

Definition key_eqb (a b : CacheKey) : bool :=
  String.eqb (fst a) (fst b) && Z.eqb (snd a) (snd b).

Fixpoint lru_find (cache : LruCache) (key : CacheKey) : option (list Z) :=
  match cache with
  | [] => None
  | (k, v) :: rest => if key_eqb key k then Some v else lru_find rest key
  end.

Definition lru_remove (cache : LruCache) (key : CacheKey) : LruCache :=
  filter (fun kv => negb (key_eqb key (fst kv))) cache.

(** The body of [get_cached_search]. *)
Definition uncached_search (db : Database) (query : string) (top_n : Z)
  : list Z :=
  map fst (search new_engine db query top_n).

(** [SearchCache.get_cached_search(query, top_n)]: a hit returns the stored
    tuple and makes the entry the most recent; a miss runs the body, stores
    the result and drops the least recent entry beyond [maxsize]. *)
Definition get_cached_search (cache : LruCache) (db : Database)
    (query : string) (top_n : Z) : list Z * LruCache :=
  let key := (query, top_n) in
  match lru_find cache key with
  | Some ids => (ids, (key, ids) :: lru_remove cache key)
  | None =>
      let ids := uncached_search db query top_n in
      (ids, firstn lru_maxsize ((key, ids) :: cache))
  end.

(** [SearchCache.clear_cache()]. *)
Definition clear_cache (cache : LruCache) : LruCache := [].

End WithNltk.

End Search.

(* ------------------------------------------------------------------ *)
(** * An NLTK instance for the scenarios *)
(* ------------------------------------------------------------------ *)

Module Scenario.
Import Models Preprocessor.

(** [text.split()] on cleaned text: the pieces between blanks.  On text
    made of lower-case words and single blanks, with none of the
    contractions the Treebank tokenizer splits, [word_tokenize] returns
    the same list. *)
Fixpoint split_from (word : string) (s : string) : list string :=
  match s with
  | EmptyString =>
      match word with EmptyString => [] | _ => [word] end
  | String c s' =>
      if Py.isspace c then
        match word with
        | EmptyString => split_from EmptyString s'
        | _ => word :: split_from EmptyString s'
        end
      else split_from (word ++ String c EmptyString) s'
  end.

Definition split (s : string) : list string := split_from EmptyString s.

(** The list [stopwords.words('english')] of NLTK. *)
Definition english_stop_words : list string :=
  ["i"; "me"; "my"; "myself"; "we"; "our"; "ours"; "ourselves"; "you";
   "you're"; "you've"; "you'll"; "you'd"; "your"; "yours"; "yourself";
   "yourselves"; "he"; "him"; "his"; "himself"; "she"; "she's"; "her";
   "hers"; "herself"; "it"; "it's"; "its"; "itself"; "they"; "them";
   "their"; "theirs"; "themselves"; "what"; "which"; "who"; "whom"; "this";
   "that"; "that'll"; "these"; "those"; "am"; "is"; "are"; "was"; "were";
   "be"; "been"; "being"; "have"; "has"; "had"; "having"; "do"; "does";
   "did"; "doing"; "a"; "an"; "the"; "and"; "but"; "if"; "or"; "because";
   "as"; "until"; "while"; "of"; "at"; "by"; "for"; "with"; "about";
   "against"; "between"; "into"; "through"; "during"; "before"; "after";
   "above"; "below"; "to"; "from"; "up"; "down"; "in"; "out"; "on"; "off";
   "over"; "under"; "again"; "further"; "then"; "once"; "here"; "there";
   "when"; "where"; "why"; "how"; "all"; "any"; "both"; "each"; "few";
   "more"; "most"; "other"; "some"; "such"; "no"; "nor"; "not"; "only";
   "own"; "same"; "so"; "than"; "too"; "very"; "s"; "t"; "can"; "will";
   "just"; "don"; "don't"; "should"; "should've"; "now"; "d"; "ll"; "m";
   "o"; "re"; "ve"; "y"; "ain"; "aren"; "aren't"; "couldn"; "couldn't";
   "didn"; "didn't"; "doesn"; "doesn't"; "hadn"; "hadn't"; "hasn";
   "hasn't"; "haven"; "haven't"; "isn"; "isn't"; "ma"; "mightn";
   "mightn't"; "mustn"; "mustn't"; "needn"; "needn't"; "shan"; "shan't";
   "shouldn"; "shouldn't"; "wasn"; "wasn't"; "weren"; "weren't"; "won";
   "won't"; "wouldn"; "wouldn't"]%string.

(** The Porter stems of the words the scenarios use; any other word of the
    scenarios ("python", "snake", "code", "data") is its own stem. *)
Definition stem_table : list (string * string) :=
  [("programming", "program"); ("language", "languag");
   ("reptile", "reptil"); ("software", "softwar");
   ("others", "other")]%string.

Fixpoint lookup_stem (table : list (string * string)) (w : string) : string :=
  match table with
  | [] => w
  | (k, v) :: rest => if String.eqb w k then v else lookup_stem rest w
  end.

#[export] Instance scenario_nltk : Nltk := {
  word_tokenize := split;
  stop_words := english_stop_words;
  stem := lookup_stem stem_table
}.

(** A publication whose text is its title, with an empty abstract. *)
Definition doc (k : Z) (text : string) : Publication :=
  {| pub_id := k; title := text; abstract := EmptyString;
     searchable_content := EmptyString |}.

End Scenario.

(* ------------------------------------------------------------------ *)
(** * The notions the specification uses *)
(* ------------------------------------------------------------------ *)

Module Spec.
Import Models Preprocessor Indexer.

(** Term frequency: the occurrences of [t] in a token sequence. *)
Definition occurrences (t : string) (tokens : list string) : Z :=
  Z.of_nat (count_occ string_dec tokens t).

(** The sum of the scores of the index rows of one publication. *)
Fixpoint aggregate_score (entries : list InvertedIndexEntry) (k : Z) : R :=
  match entries with
  | [] => 0%R
  | e :: rest =>
      if Z.eqb (publication_id e) k
      then (tfidf_score e + aggregate_score rest k)%R
      else aggregate_score rest k
  end.

(** [doc_scores[k]], with 0 for a publication that has no score. *)
Fixpoint score_of (d : list (Z * R)) (k : Z) : R :=
  match d with
  | [] => 0%R
  | (k', v) :: d' => if Z.eqb k k' then v else score_of d' k
  end.

(** The row [pub] with another [searchable_content]. *)
Definition with_content (pub : Publication) (text : string) : Publication :=
  {| pub_id := pub_id pub; title := title pub; abstract := abstract pub;
     searchable_content := text |}.

(** Two rows with the same key and the same text to index. *)
Definition same_text (p q : Publication) : Prop :=
  pub_id p = pub_id q /\ title p = title q /\ abstract p = abstract q.

(** Scores in falling order. *)
Definition descending (l : list (Z * R)) : Prop :=
  StronglySorted (fun x y => (snd y <= snd x)%R) l.

Section WithNltk.
Context {nltk : Nltk}.

(** The normalised tokens of a document. *)
Definition tokens_of (pub : Publication) : list string :=
  preprocess_text (content pub).

Definition contains_term (t : string) (pub : Publication) : bool :=
  existsb (String.eqb t) (tokens_of pub).

(** Document frequency: the number of documents of the corpus that contain
    [t] at least once. *)
Definition document_frequency (pubs : list Publication) (t : string) : Z :=
  Py.len (filter (contains_term t) pubs).

(** The occurrences of [t] in the whole corpus. *)
Fixpoint corpus_occurrences (pubs : list Publication) (t : string) : Z :=
  match pubs with
  | [] => 0
  | pub :: rest =>
      (occurrences t (tokens_of pub) + corpus_occurrences rest t)%Z
  end.

(** The [searchable_content] a row with key [k] holds after the saves of
    the first pass over [pubs], when it held [text] before. *)
Definition saved_content (pubs : list Publication) (k : Z) (text : string)
  : string :=
  fold_left (fun text pub =>
               if Z.eqb k (pub_id pub) then Py.join " " (tokens_of pub)
               else text) pubs text.

(** A token the loop of [preprocess] keeps: two characters or more, not a
    number, not a stopword. *)
Definition kept_token (token : string) : Prop :=
  (2 <= String.length token)%nat
  /\ Py.isdigit token = false
  /\ in_stop_words token = false.

End WithNltk.

End Spec.

(* ------------------------------------------------------------------ *)
(** * The corpora of the scenarios *)
(* ------------------------------------------------------------------ *)

Module Corpora.
Import Models Preprocessor Indexer Search Scenario.

(** A store whose index has not been built. *)
Definition store (pubs : list Publication) : Database :=
  {| publications := pubs; index_entries := [] |}.

(** The database after [IndexBuilder().build_index()]. *)
Definition rebuilt (db : Database) : Database :=
  snd (build_index new_builder db).

(** The builder after [IndexBuilder().build_index()]. *)
Definition builder_after (db : Database) : IndexBuilder :=
  snd (fst (build_index new_builder db)).

(** Scenario A of the specification. *)
Definition doc1 : Publication := doc 1 "python programming language".
Definition doc2 : Publication := doc 2 "python snake reptile".
Definition doc3 : Publication := doc 3 "python programming code software".

(** The three documents as the store yields them when they were created in
    the order doc1, doc2, doc3. *)
Definition scenario_a : list Publication := [doc3; doc2; doc1].

(** A single document in which a term occurs twice. *)
Definition repeated_term : list Publication := [doc 1 "data data"].

(** A single document with one term. *)
Definition one_term : list Publication := [doc 1 "data"].

(** A corpus of two documents. *)
Definition before_add : list Publication :=
  [doc 2 "snake"; doc 1 "python code"].

(** [Publication.objects.create(...)]: a new row, the newest. *)
Definition add_publication (db : Database) (pub : Publication) : Database :=
  {| publications := pub :: publications db;
     index_entries := index_entries db |}.

(** The index is built, then a document is added and the index rebuilt. *)
Definition indexed_before_add : Database := rebuilt (store before_add).

Definition indexed_after_add : Database :=
  rebuilt (add_publication indexed_before_add (doc 3 "python data")).

(** A document whose only word is the plural of a stopword. *)
Definition plural_stopword : list Publication := [doc 1 "others"].

(** An index row left without its publication. *)
Definition orphan_row : InvertedIndexEntry :=
  {| term := "data"; publication_id := 1;
     tfidf_score := 1%R; term_frequency := 1 |}.

(** A store with one publication and an index row of a publication that
    is not in the store. *)
Definition orphaned_with_publication : Database :=
  {| publications := [doc 2 "snake"]; index_entries := [orphan_row] |}.

End Corpora.

(* ------------------------------------------------------------------ *)
(** * More Python built-ins: [str.strip] and [seq[a:b]] *)
(* ------------------------------------------------------------------ *)

Module PyMore.

Local Open Scope Z_scope.

(** [s.lstrip()]. *)
Fixpoint lstrip (s : string) : string :=
  match s with
  | EmptyString => EmptyString
  | String c s' => if Py.isspace c then lstrip s' else s
  end.

(** [s.rstrip()]. *)
Fixpoint rstrip (s : string) : string :=
  match s with
  | EmptyString => EmptyString
  | String c s' =>
      match rstrip s' with
      | EmptyString =>
          if Py.isspace c then EmptyString else String c EmptyString
      | String _ _ as r => String c r
      end
  end.

(** [s.strip()]. *)
Definition strip (s : string) : string := rstrip (lstrip s).

(** A bound of a slice on a sequence of length [n]: a negative bound counts
    from the end, and every bound is brought into [0 .. n]. *)
Definition clamp (n i : Z) : Z :=
  if i <? 0 then Z.max (i + n) 0 else Z.min i n.

(** [seq[a:b]]. *)
Definition slice {A : Type} (l : list A) (a b : Z) : list A :=
  let n := Py.len l in
  let start := clamp n a in
  let stop := clamp n b in
  firstn (Z.to_nat (stop - start)) (skipn (Z.to_nat start) l).

(** A Python [set] of strings is written as a list without repetition.  The
    order of [list(a_set)] is not fixed by the language; what is proved
    about such a list is about its members. *)
Definition set_add (s : list string) (x : string) : list string :=
  if existsb (String.eqb x) s then s else s ++ [x].

(** [s.update(xs)]. *)
Definition set_update (s xs : list string) : list string :=
  fold_left set_add xs s.

(** [set(xs)]. *)
Definition set_of (xs : list string) : list string := set_update [] xs.

(** [a - b]. *)
Definition set_minus (a b : list string) : list string :=
  filter (fun x => negb (existsb (String.eqb x) b)) a.

End PyMore.

(* ------------------------------------------------------------------ *)
(** * services/search.py: [search_with_details] *)
(* ------------------------------------------------------------------ *)

Module Details.
Import Models Preprocessor Search.

(** The dict [search_with_details] returns. *)
Record SearchDetails : Type := {
  details_results : list (Z * R);
  details_query_tokens : list string;
  matched_terms : list string;
  unmatched_terms : list string;
  total_results : Z
}.

(** [InvertedIndexEntry.objects.filter(publication=pub, term__in=query_tokens)
       .values_list('term', flat=True)] for the publication with key [k]. *)
Definition entry_terms (db : Database) (k : Z) (query_tokens : list string)
  : list string :=
  map term
      (filter (fun e => Z.eqb (publication_id e) k
                        && existsb (String.eqb (term e)) query_tokens)
              (index_entries db)).

Section WithNltk.
Context {nltk : Nltk}.

(** [SearchEngine.search_with_details(query, top_n)]. *)
Definition search_with_details (self : SearchEngine) (db : Database)
    (query : string) (top_n : Z) : SearchDetails :=
  let query_tokens := preprocess_text query in
  let found := search self db query top_n in
  let matched :=
    fold_left (fun m pub =>
                 PyMore.set_update m (entry_terms db (fst pub) query_tokens))
              found [] in
  {| details_results := found;
     details_query_tokens := query_tokens;
     matched_terms := matched;
     unmatched_terms :=
       PyMore.set_minus (PyMore.set_of query_tokens) matched;
     total_results := Py.len found |}.

End WithNltk.

End Details.

(* ------------------------------------------------------------------ *)
(** * views.py *)
(* ------------------------------------------------------------------ *)

Module Views.
Import Models Preprocessor Search.

(** The responses of [search_publications].  [search_time_ms] is a reading
    of the clock and is not part of the model; the serialized publications
    of [results] are given by key and relevance score. *)
Inductive SearchResponse : Type :=
| bad_request
| ok (page_results : list (Z * R)) (total page : Z) (query : string).

(** The key [results] of a response; an error response has none. *)
Definition results_of (response : SearchResponse) : list (Z * R) :=
  match response with
  | bad_request => []
  | ok page_results _ _ _ => page_results
  end.

(** The counts of [index_stats]:
    [Publication.objects.count()], [InvertedIndexEntry.objects.count()] and
    [InvertedIndexEntry.objects.values('term').distinct().count()]. *)
Definition total_documents (db : Database) : Z := Py.len (publications db).

Definition total_terms (db : Database) : Z := Py.len (index_entries db).

Definition unique_terms (db : Database) : Z :=
  Py.len (nodup string_dec (map term (index_entries db))).

Section WithNltk.
Context {nltk : Nltk}.

(** [search_publications(request)], with the parameters [query], [page] and
    [size] of the request, the last two after [int(...)]. *)
Definition search_publications (db : Database)
    (query_param : string) (page size : Z) : SearchResponse :=
  let query := PyMore.strip query_param in
  match query with
  | EmptyString => bad_request
  | _ =>
      let all_results := search new_engine db query 500 in
      let total_count := Py.len all_results in
      let start_idx := ((page - 1) * size)%Z in
      let end_idx := (start_idx + size)%Z in
      ok (PyMore.slice all_results start_idx end_idx) total_count page query
  end.

End WithNltk.

End Views.

(* ------------------------------------------------------------------ *)
(** * Invariants of the tables and of the cache *)
(* ------------------------------------------------------------------ *)

Module Invariants.
Import Models Preprocessor Search.

(** [unique_together = ['term', 'publication']] of [InvertedIndexEntry]. *)
Definition unique_postings (entries : list InvertedIndexEntry) : Prop :=
  NoDup (map (fun e => (term e, publication_id e)) entries).

(** The primary key of [Publication]. *)
Definition distinct_keys (pubs : list Publication) : Prop :=
  NoDup (map pub_id pubs).

(** No white space at either end and no two white-space characters in a
    row, every white-space character being a blank; all other characters
    lower-case letters or digits. *)
Fixpoint single_blanks (after_word : bool) (s : string) : bool :=
  match s with
  | EmptyString => after_word
  | String c s' =>
      if Ascii.eqb c " " then after_word && single_blanks false s'
      else is_lower_alnum c && single_blanks true s'
  end.

Definition normal_text (s : string) : bool :=
  match s with
  | EmptyString => true
  | _ => single_blanks false s
  end.

Section WithNltk.
Context {nltk : Nltk}.

(** Every answer the cache holds is what [search] gives on [db]. *)
Definition cache_consistent (db : Database) (cache : LruCache) : Prop :=
  forall key ids, In (key, ids) cache ->
                  ids = uncached_search db (fst key) (snd key).

End WithNltk.

End Invariants.

(* ------------------------------------------------------------------ *)
(** * Counting with a [defaultdict(int)] *)
(* ------------------------------------------------------------------ *)

Section CounterFacts.
Import Spec.
Local Open Scope Z_scope.

Lemma counter_get_incr (d : Py.counter) (k k' : string) :
  Py.counter_get (Py.counter_incr d k) k' =
  if String.eqb k' k then Py.counter_get d k' + 1 else Py.counter_get d k'.
Proof.
  induction d as [|[k0 v] d IH]; simpl.
  - destruct (String.eqb k' k); reflexivity.
  - destruct (String.eqb k k0) eqn:Hk; simpl.
    + apply String.eqb_eq in Hk. subst k0.
      destruct (String.eqb k' k); reflexivity.
    + destruct (String.eqb k' k0) eqn:Hk'.
      * apply String.eqb_eq in Hk'. subst k0.
        now rewrite String.eqb_sym, Hk.
      * exact IH.
Qed.

Lemma keys_incr_In (d : Py.counter) (k x : string) :
  In x (Py.keys (Py.counter_incr d k)) <-> x = k \/ In x (Py.keys d).
Proof.
  unfold Py.keys. induction d as [|[k0 v] d IH]; simpl.
  - intuition.
  - destruct (String.eqb k k0) eqn:Hk; simpl.
    + apply String.eqb_eq in Hk. subst k0. intuition.
    + rewrite IH. intuition.
Qed.

Lemma keys_incr_NoDup (d : Py.counter) (k : string) :
  NoDup (Py.keys d) -> NoDup (Py.keys (Py.counter_incr d k)).
Proof.
  unfold Py.keys. induction d as [|[k0 v] d IH]; simpl; intros Hnd.
  - constructor; [intros [] | constructor].
  - inversion Hnd as [|? ? Hnotin Hnd']; subst.
    destruct (String.eqb k k0) eqn:Hk; simpl.
    + now constructor.
    + constructor; [| now apply IH].
      intros Hin. apply (keys_incr_In d k k0) in Hin.
      destruct Hin as [->|Hin]; [| now apply Hnotin].
      now rewrite String.eqb_refl in Hk.
Qed.

Lemma counter_get_In (d : Py.counter) (k : string) (v : Z) :
  NoDup (Py.keys d) -> In (k, v) d -> Py.counter_get d k = v.
Proof.
  unfold Py.keys. induction d as [|[k0 v0] d IH]; simpl; intros Hnd Hin.
  - contradiction.
  - inversion Hnd as [|? ? Hnotin Hnd']; subst.
    destruct Hin as [Heq|Hin].
    + inversion Heq; subst. now rewrite String.eqb_refl.
    + destruct (String.eqb k k0) eqn:Hk.
      * apply String.eqb_eq in Hk. subst k0.
        exfalso. apply Hnotin. now apply (in_map fst) in Hin.
      * now apply IH.
Qed.

Lemma occurrences_cons (t x : string) (l : list string) :
  occurrences t (x :: l) =
  if String.eqb t x then occurrences t l + 1 else occurrences t l.
Proof.
  unfold occurrences. simpl.
  destruct (string_dec x t) as [->|Hne].
  - rewrite String.eqb_refl. lia.
  - destruct (String.eqb t x) eqn:Hk; [| reflexivity].
    apply String.eqb_eq in Hk. congruence.
Qed.

Lemma occurrences_pos (t : string) (l : list string) :
  In t l <-> 0 < occurrences t l.
Proof.
  unfold occurrences. rewrite (count_occ_In string_dec). lia.
Qed.

(** The loop [for token in tokens: d[token] += 1] adds to every count the
    occurrences of its key. *)
Lemma fold_incr_get (tokens : list string) (d : Py.counter) (t : string) :
  Py.counter_get (fold_left Py.counter_incr tokens d) t =
  Py.counter_get d t + occurrences t tokens.
Proof.
  revert d. induction tokens as [|x l IH]; intros d; simpl.
  - unfold occurrences. simpl. lia.
  - rewrite IH, counter_get_incr, occurrences_cons.
    destruct (String.eqb t x); lia.
Qed.

Lemma fold_incr_keys (tokens : list string) (d : Py.counter) (t : string) :
  In t (Py.keys (fold_left Py.counter_incr tokens d)) <->
  In t tokens \/ In t (Py.keys d).
Proof.
  revert d. induction tokens as [|x l IH]; intros d; simpl.
  - intuition.
  - rewrite IH, keys_incr_In. intuition.
Qed.

Lemma fold_incr_NoDup (tokens : list string) (d : Py.counter) :
  NoDup (Py.keys d) -> NoDup (Py.keys (fold_left Py.counter_incr tokens d)).
Proof.
  revert d. induction tokens as [|x l IH]; intros d Hnd; simpl.
  - exact Hnd.
  - apply IH. now apply keys_incr_NoDup.
Qed.

End CounterFacts.

(* ------------------------------------------------------------------ *)
(** * Incremental update *)
(* ------------------------------------------------------------------ *)

Section UpdateIndex.
Import Models Preprocessor Indexer Spec.
Context {nltk : Nltk}.
Local Open Scope Z_scope.

Lemma count_terms_row (tokens : list string) (t : string) (freq : Z) :
  In (t, freq) (count_terms tokens) ->
  In t tokens /\ freq = occurrences t tokens.
Proof.
  unfold count_terms. intros Hin. split.
  - apply (in_map fst) in Hin. simpl in Hin.
    apply (fold_incr_keys tokens [] t) in Hin.
    destruct Hin as [Hin|[]]. exact Hin.
  - apply counter_get_In in Hin.
    + rewrite fold_incr_get in Hin. simpl in Hin. lia.
    + apply fold_incr_NoDup. constructor.
Qed.

(** C7. [update_index] leaves the index as the old one without the rows of
    the publication, followed by the new rows; it returns exactly when the
    publication has a row in the store (otherwise [save] raises, with no
    new row).  When it returns there is one new row for each distinct term
    of the re-normalised document.  A new row carries the occurrences of
    its term in the document and the score [tf * ln (N / (h + 1))], where
    [h] is the number of distinct publications that hold a row for the
    term among the rows kept, and [N] the number of publications in the
    store.  The value returned counts the new rows. *)
Theorem update_index_postings
    (self : IndexBuilder) (db : Database) (pub : Publication) :
  let k := pub_id pub in
  let tokens := tokens_of pub in
  let total_docs := Py.len (publications db) in
  let kept :=
    filter (fun e => negb (Z.eqb (publication_id e) k)) (index_entries db) in
  exists fresh : list InvertedIndexEntry,
    index_entries (snd (update_index self db pub)) = (kept ++ fresh)%list
    /\ (forall e, In e kept -> publication_id e <> k)
    /\ match fst (update_index self db pub) with
       | Raised _ => has_publication db k = false /\ fresh = []
       | Returned r =>
           has_publication db k = true
           /\ update_entries_created r = Py.len fresh
           /\ update_entries_created r =
              Py.len (filter (fun e => Z.eqb (publication_id e) k)
                             (index_entries (snd (update_index self db pub))))
           /\ NoDup (map term fresh)
           /\ (forall t, In t tokens <-> In t (map term fresh))
           /\ (forall e, In e fresh ->
                 publication_id e = k
                 /\ term_frequency e = occurrences (term e) tokens
                 /\ exists holders : list Z,
                      NoDup holders
                      /\ (forall j, In j holders <->
                            exists e', In e' kept /\ term e' = term e
                                       /\ publication_id e' = j)
                      /\ tfidf_score e =
                         (IZR (term_frequency e)
                          * ln (IZR total_docs
                                / IZR (Py.len holders + 1)))%R)
       end.
Proof.
  intros k tokens total_docs kept.
  assert (Hkept : forall e, In e kept -> publication_id e <> k).
  { intros e He. apply filter_In in He. destruct He as [_ He].
    apply negb_true_iff, Z.eqb_neq in He. exact He. }
  unfold update_index. fold k. fold kept. fold total_docs.
  change (preprocess_text (content pub)) with tokens.
  destruct (has_publication db k) eqn:Hrow.
  2:{ exists []. cbn [fst snd index_entries]. rewrite app_nil_r. auto. }
  set (mk := fun '(t, freq) =>
               {| term := t; publication_id := k;
                  tfidf_score :=
                    tfidf freq total_docs (publications_holding kept t + 1);
                  term_frequency := freq |}).
  assert (Hterm : map term (map mk (count_terms tokens)) =
                  Py.keys (count_terms tokens)).
  { unfold Py.keys. rewrite map_map. apply map_ext. now intros [t f]. }
  assert (Hfresh : forall e, In e (map mk (count_terms tokens)) ->
                             publication_id e = k).
  { intros e He. apply in_map_iff in He.
    destruct He as [[t f] [<- _]]. reflexivity. }
  exists (map mk (count_terms tokens)). cbn [fst snd index_entries].
  split; [reflexivity|].
  split; [exact Hkept|].
  split; [reflexivity|].
  split; [reflexivity|].
  split.
  { cbn [update_entries_created]. rewrite filter_app.
    rewrite (filter_ext_in _ (fun _ => false) kept).
    2:{ intros e He. apply Hkept in He. now apply Z.eqb_neq. }
    rewrite filter_false. simpl. f_equal.
    symmetry. apply forallb_filter_id.
    apply forallb_forall. intros e He. apply Hfresh in He.
    now apply Z.eqb_eq. }
  split.
  { rewrite Hterm. apply fold_incr_NoDup. constructor. }
  split.
  { intros t. rewrite Hterm. unfold count_terms.
    rewrite fold_incr_keys. simpl. intuition. }
  intros e He. apply in_map_iff in He.
  destruct He as [[t f] [<- Hin]]. cbn [mk term publication_id
    term_frequency tfidf_score].
  apply count_terms_row in Hin. destruct Hin as [_ ->].
  split; [reflexivity|]. split; [reflexivity|].
  exists (nodup Z.eq_dec
            (map publication_id
                 (filter (fun e' => String.eqb (term e') t) kept))).
  split; [apply NoDup_nodup|]. split.
  { intros j. rewrite nodup_In, in_map_iff. split.
    - intros (e' & Hj & He'). apply filter_In in He'.
      destruct He' as [He' Ht]. apply String.eqb_eq in Ht. now exists e'.
    - intros (e' & He' & Ht & Hj). exists e'. split; [exact Hj|].
      apply filter_In. split; [exact He'|]. now apply String.eqb_eq. }
  unfold tfidf, idf, publications_holding.
  set (h := Py.len _).
  assert (Hh : (0 <= h)%Z) by (subst h; unfold Py.len; lia).
  destruct (Z.ltb_spec 0 (h + 1)); [reflexivity | lia].
Qed.

End UpdateIndex.

(* ------------------------------------------------------------------ *)
(** * The preprocessor's token loop *)
(* ------------------------------------------------------------------ *)

Section TokenLoop.
Import Models Preprocessor Spec.
Context {nltk : Nltk}.

Lemma skipped_false_iff (token : string) :
  skipped token = false <-> kept_token token.
Proof.
  unfold skipped, kept_token.
  rewrite !orb_false_iff, Nat.ltb_ge. tauto.
Qed.

Lemma process_tokens_In (tokens : list string) (t : string) :
  In t (process_tokens tokens) <->
  exists token, In token tokens /\ kept_token token /\ t = stem token.
Proof.
  induction tokens as [|x l IH]; simpl.
  - split; [intros [] | intros (token & [] & _)].
  - destruct (skipped x) eqn:Hx.
    + rewrite IH. split.
      * intros (token & Hin & Hk & ->). exists token. auto.
      * intros (token & [<-|Hin] & Hk & ->).
        -- apply skipped_false_iff in Hk. congruence.
        -- exists token. auto.
    + apply skipped_false_iff in Hx. simpl. rewrite IH. split.
      * intros [<-|(token & Hin & Hk & ->)].
        -- exists x. auto.
        -- exists token. auto.
      * intros (token & [<-|Hin] & Hk & ->); [now left|].
        right. exists token. auto.
Qed.

Lemma process_tokens_all_skipped (tokens : list string) :
  (forall token, In token tokens -> skipped token = true) ->
  process_tokens tokens = [].
Proof.
  induction tokens as [|x l IH]; simpl; intros Hall.
  - reflexivity.
  - rewrite (Hall x (or_introl eq_refl)). apply IH.
    intros token Hin. apply Hall. now right.
Qed.

(** Every token [preprocess] returns is the stem of a token it kept. *)
Lemma preprocess_text_In (text t : string) :
  In t (preprocess_text text) ->
  exists token,
    In token (word_tokenize (clean text)) /\ kept_token token
    /\ t = stem token.
Proof.
  unfold preprocess_text, preprocess.
  destruct text as [|c text]; [intros [] |].
  apply process_tokens_In.
Qed.

End TokenLoop.

(* ------------------------------------------------------------------ *)
(** * Full rebuild *)
(* ------------------------------------------------------------------ *)

Section BuildIndex.
Import Models Preprocessor Indexer Spec.
Context {nltk : Nltk}.
Local Open Scope Z_scope.

Lemma count_tokens_fold (tokens : list string) (tf tdf : Py.counter) :
  count_tokens tokens tf tdf =
  (fold_left Py.counter_incr tokens tf, fold_left Py.counter_incr tokens tdf).
Proof.
  revert tf tdf. induction tokens as [|x l IH]; intros tf tdf; simpl.
  - reflexivity.
  - apply IH.
Qed.

Lemma index_publication_fields (st : Pass) (pub : Publication) :
  index_publication st pub =
  {| doc_terms :=
       Py.dict_set (doc_terms st) (pub_id pub) (count_terms (tokens_of pub));
     pass_term_doc_freq :=
       fold_left Py.counter_incr (tokens_of pub) (pass_term_doc_freq st);
     pass_rows :=
       save_searchable_content (pass_rows st) (pub_id pub)
         (Py.join " " (tokens_of pub)) |}.
Proof.
  unfold index_publication. rewrite count_tokens_fold. reflexivity.
Qed.

(** The counter the first pass leaves: each term has gained its
    occurrences in the whole corpus. *)
Lemma first_pass_term_doc_freq
    (pubs : list Publication) (st : Pass) (t : string) :
  Py.counter_get (pass_term_doc_freq (first_pass pubs st)) t =
  Py.counter_get (pass_term_doc_freq st) t + corpus_occurrences pubs t.
Proof.
  unfold first_pass. revert st.
  induction pubs as [|pub rest IH]; intros st; simpl.
  - lia.
  - rewrite IH, index_publication_fields. simpl.
    rewrite fold_incr_get. lia.
Qed.

Lemma dict_set_In {V : Type} (d : list (Z * V)) (k k' : Z) (v v' : V) :
  In (k', v') (Py.dict_set d k v) -> (k' = k /\ v' = v) \/ In (k', v') d.
Proof.
  induction d as [|[k0 v0] d IH]; simpl.
  - intros [Heq|[]]. inversion Heq. auto.
  - destruct (Z.eqb k k0) eqn:Hk; simpl.
    + apply Z.eqb_eq in Hk. subst k0.
      intros [Heq|Hin]; [inversion Heq; auto | auto].
    + intros [Heq|Hin]; [auto|]. apply IH in Hin. tauto.
Qed.

(** Every term-frequency map of the first pass is the count of the tokens
    of a publication of the corpus, filed under its key. *)
Lemma first_pass_doc_terms
    (pubs : list Publication) (st : Pass) (k : Z) (tf : Py.counter) :
  In (k, tf) (doc_terms (first_pass pubs st)) ->
  In (k, tf) (doc_terms st)
  \/ exists pub, In pub pubs /\ pub_id pub = k
                 /\ tf = count_terms (tokens_of pub).
Proof.
  unfold first_pass. revert st.
  induction pubs as [|pub rest IH]; intros st; simpl.
  - auto.
  - intros Hin. apply IH in Hin. destruct Hin as [Hin|(p & Hp & Hk & Htf)].
    + rewrite index_publication_fields in Hin. simpl in Hin.
      apply dict_set_In in Hin. destruct Hin as [[-> ->]|Hin]; [|auto].
      right. exists pub. auto.
    + right. exists p. auto.
Qed.

Lemma entries_to_create_In
    (total_docs : Z) (tdf : Py.counter) (dts : list (Z * Py.counter))
    (e : InvertedIndexEntry) :
  In e (entries_to_create total_docs tdf dts) ->
  exists k tf t freq,
    In (k, tf) dts /\ In (t, freq) tf
    /\ e = {| term := t; publication_id := k;
              tfidf_score := tfidf freq total_docs (Py.counter_get tdf t);
              term_frequency := freq |}.
Proof.
  unfold entries_to_create. intros Hin. apply in_flat_map in Hin.
  destruct Hin as ([k tf] & Hdt & He).
  unfold entries_of_document in He. apply in_map_iff in He.
  destruct He as ([t freq] & <- & Htf).
  exists k, tf, t, freq. auto.
Qed.

Lemma build_index_nonempty (self : IndexBuilder) (db : Database) :
  publications db <> [] ->
  let st := first_pass (publications db)
              {| doc_terms := [];
                 pass_term_doc_freq := term_doc_freq self;
                 pass_rows := publications db |} in
  let total_docs := Py.len (publications db) in
  let entries :=
    entries_to_create total_docs (pass_term_doc_freq st) (doc_terms st) in
  build_index self db =
  (success total_docs (Py.len entries) (Py.len (pass_term_doc_freq st)),
   {| term_doc_freq := pass_term_doc_freq st |},
   {| publications := pass_rows st; index_entries := entries |}).
Proof.
  intros Hne. unfold build_index.
  destruct (publications db) as [|p ps] eqn:Hp; [congruence|].
  replace (Py.len (p :: ps) =? 0) with false; [reflexivity|].
  symmetry. apply Z.eqb_neq. unfold Py.len. simpl. lia.
Qed.

(** A row written by a rebuild belongs to a publication of the corpus; its
    term is one of that publication's tokens and its frequency their
    count. *)
Lemma build_index_row (self : IndexBuilder) (db : Database)
    (e : InvertedIndexEntry) :
  publications db <> [] ->
  In e (index_entries (snd (build_index self db))) ->
  exists pub,
    In pub (publications db) /\ pub_id pub = publication_id e
    /\ In (term e) (tokens_of pub)
    /\ term_frequency e = occurrences (term e) (tokens_of pub).
Proof.
  intros Hne. rewrite (build_index_nonempty self db Hne). simpl.
  intros Hin. apply entries_to_create_In in Hin.
  destruct Hin as (k & tf & t & freq & Hdt & Htf & ->). simpl.
  apply first_pass_doc_terms in Hdt. simpl in Hdt.
  destruct Hdt as [[]|(pub & Hpub & Hk & ->)].
  apply count_terms_row in Htf. destruct Htf as [Ht ->].
  exists pub. auto.
Qed.

Lemma same_text_tokens (p q : Publication) :
  same_text p q -> tokens_of p = tokens_of q.
Proof.
  intros (_ & Ht & Ha). unfold tokens_of, content. now rewrite Ht, Ha.
Qed.

(** The first pass reads the key, the title and the abstract of a row and
    nothing else. *)
Lemma first_pass_same_text (l l' : list Publication) :
  Forall2 same_text l l' ->
  forall st st',
    doc_terms st = doc_terms st' ->
    pass_term_doc_freq st = pass_term_doc_freq st' ->
    doc_terms (first_pass l st) = doc_terms (first_pass l' st')
    /\ pass_term_doc_freq (first_pass l st) =
       pass_term_doc_freq (first_pass l' st').
Proof.
  unfold first_pass.
  induction 1 as [|p q l l' Hpq Hl IH]; intros st st' Hd Ht; simpl.
  - auto.
  - apply IH; rewrite !index_publication_fields; simpl.
    + rewrite (same_text_tokens p q Hpq), Hd.
      destruct Hpq as (-> & _). reflexivity.
    + now rewrite (same_text_tokens p q Hpq), Ht.
Qed.

Lemma save_searchable_content_map (rows : list Publication) (q : Publication) :
  save_searchable_content rows (pub_id q) (Py.join " " (tokens_of q)) =
  map (fun p => with_content p (saved_content [q] (pub_id p)
                                  (searchable_content p))) rows.
Proof.
  unfold save_searchable_content. apply map_ext. intros p.
  unfold saved_content, with_content. simpl.
  destruct (Z.eqb (pub_id p) (pub_id q)); [reflexivity|].
  now destruct p.
Qed.

(** The rows after the first pass: each holds the content saved last under
    its key. *)
Lemma first_pass_rows (l : list Publication) (st : Pass) :
  pass_rows (first_pass l st) =
  map (fun p => with_content p (saved_content l (pub_id p)
                                  (searchable_content p)))
      (pass_rows st).
Proof.
  unfold first_pass. revert st.
  induction l as [|q l IH]; intros st; simpl.
  - rewrite <- (map_id (pass_rows st)) at 1. apply map_ext.
    intros p. now destruct p.
  - rewrite IH, index_publication_fields. simpl.
    rewrite save_searchable_content_map, map_map. apply map_ext.
    intros p. reflexivity.
Qed.

Lemma saved_content_same_text (l l' : list Publication) (k : Z) :
  Forall2 same_text l l' ->
  forall text, saved_content l k text = saved_content l' k text.
Proof.
  unfold saved_content.
  induction 1 as [|p q l l' Hpq Hl IH]; intros text; simpl.
  - reflexivity.
  - rewrite (same_text_tokens p q Hpq). destruct Hpq as (-> & _). apply IH.
Qed.

(** Saving is the identity on the key or overwrites whatever was there. *)
Lemma saved_content_cases (l : list Publication) (k : Z) :
  (forall text, saved_content l k text = text)
  \/ (exists c, forall text, saved_content l k text = c).
Proof.
  unfold saved_content. induction l as [|q l IH]; simpl.
  - now left.
  - destruct IH as [Hid|(c & Hc)].
    + destruct (Z.eqb k (pub_id q)).
      * right. exists (Py.join " " (tokens_of q)). intros text. apply Hid.
      * left. intros text. apply Hid.
    + right. exists c. intros text. apply Hc.
Qed.

Lemma saved_content_twice (l : list Publication) (k : Z) (text : string) :
  saved_content l k (saved_content l k text) = saved_content l k text.
Proof.
  destruct (saved_content_cases l k) as [Hid|(c & Hc)].
  - now rewrite !Hid.
  - now rewrite !Hc.
Qed.

Lemma rows_same_text (l rows : list Publication) :
  Forall2 same_text
    (map (fun p => with_content p (saved_content l (pub_id p)
                                     (searchable_content p))) rows)
    rows.
Proof.
  induction rows as [|p rows IH]; simpl; constructor; [|exact IH].
  unfold same_text, with_content. simpl. auto.
Qed.

(** X13. Rebuilding with a new builder each time, over the store the first
    rebuild left, gives the same result, the same counter and the same
    rows: it is the counter kept by a builder that is used again which
    makes a second rebuild differ. *)
Lemma rebuild_with_new_builders (db : Database) :
  build_index new_builder (snd (build_index new_builder db)) =
  build_index new_builder db.
Proof.
  destruct (publications db) as [|p0 ps] eqn:Hp.
  - unfold build_index at 2. rewrite Hp. reflexivity.
  - assert (Hne : publications db <> []) by (rewrite Hp; discriminate).
    pose proof (build_index_nonempty new_builder db Hne) as H1.
    cbv zeta in H1.
    set (st0 := {| doc_terms := [];
                   pass_term_doc_freq := term_doc_freq new_builder;
                   pass_rows := publications db |}) in H1.
    set (st := first_pass (publications db) st0) in H1.
    rewrite H1. simpl snd.
    match goal with |- build_index _ ?d = _ => set (db1 := d) end.
    assert (Hrows : pass_rows st =
              map (fun p => with_content p
                     (saved_content (publications db) (pub_id p)
                        (searchable_content p))) (publications db)).
    { subst st. now rewrite first_pass_rows. }
    assert (Hsame : Forall2 same_text (pass_rows st) (publications db)).
    { rewrite Hrows. apply rows_same_text. }
    assert (Hne1 : publications db1 <> []).
    { simpl. rewrite Hrows, Hp. discriminate. }
    pose proof (build_index_nonempty new_builder db1 Hne1) as H2.
    cbv zeta in H2. simpl publications in H2.
    set (st1 := first_pass (pass_rows st)
                  {| doc_terms := [];
                     pass_term_doc_freq := term_doc_freq new_builder;
                     pass_rows := pass_rows st |}) in H2.
    destruct (first_pass_same_text (pass_rows st) (publications db) Hsame
                {| doc_terms := [];
                   pass_term_doc_freq := term_doc_freq new_builder;
                   pass_rows := pass_rows st |} st0 eq_refl eq_refl)
      as [Hdt Htdf].
    fold st1 st in Hdt, Htdf.
    assert (Hlen : Py.len (pass_rows st) = Py.len (publications db)).
    { unfold Py.len. now rewrite Hrows, length_map. }
    assert (Hrows1 : pass_rows st1 = pass_rows st).
    { subst st1. rewrite first_pass_rows. simpl pass_rows.
      transitivity
        (map (fun p => with_content p
                (saved_content (publications db) (pub_id p)
                   (searchable_content p))) (pass_rows st)).
      { apply map_ext. intros p.
        now rewrite (saved_content_same_text (pass_rows st)
                       (publications db) (pub_id p) Hsame). }
      rewrite Hrows, map_map. apply map_ext. intros p.
      unfold with_content. simpl. f_equal. apply saved_content_twice. }
    rewrite H2.
    rewrite Hdt, Htdf, Hlen, Hrows1. reflexivity.
Qed.

End BuildIndex.

(* ------------------------------------------------------------------ *)
(** * Scoring, thresholding, ranking and cutting *)
(* ------------------------------------------------------------------ *)

Section Ranking.
Import Models Search Spec.
Local Open Scope R_scope.

Lemma Rleb_true_iff (x y : R) : Rleb x y = true <-> x <= y.
Proof.
  unfold Rleb. destruct (Rle_dec x y); split; auto; discriminate.
Qed.

Lemma Rleb_false_iff (x y : R) : Rleb x y = false <-> y < x.
Proof.
  unfold Rleb. destruct (Rle_dec x y); split; auto; try discriminate; lra.
Qed.

Lemma score_of_add (d : list (Z * R)) (k k' : Z) (x : R) :
  score_of (score_add d k x) k' =
  if Z.eqb k k' then score_of d k' + x else score_of d k'.
Proof.
  induction d as [|[k0 v] d IH]; simpl.
  - rewrite (Z.eqb_sym k' k). destruct (Z.eqb k k'); reflexivity.
  - destruct (Z.eqb k k0) eqn:Hk; simpl.
    + apply Z.eqb_eq in Hk. subst k0. rewrite (Z.eqb_sym k' k).
      destruct (Z.eqb k k'); reflexivity.
    + destruct (Z.eqb k' k0) eqn:Hk'.
      * apply Z.eqb_eq in Hk'. subst k0. now rewrite Hk.
      * exact IH.
Qed.

Lemma score_add_keys (d : list (Z * R)) (k k' : Z) (x : R) :
  In k' (map fst (score_add d k x)) <-> k' = k \/ In k' (map fst d).
Proof.
  induction d as [|[k0 v] d IH]; simpl.
  - intuition.
  - destruct (Z.eqb k k0) eqn:Hk; simpl.
    + apply Z.eqb_eq in Hk. subst k0. intuition.
    + rewrite IH. intuition.
Qed.

Lemma score_add_NoDup (d : list (Z * R)) (k : Z) (x : R) :
  NoDup (map fst d) -> NoDup (map fst (score_add d k x)).
Proof.
  induction d as [|[k0 v] d IH]; simpl; intros Hnd.
  - constructor; [intros [] | constructor].
  - inversion Hnd as [|? ? Hnotin Hnd']; subst.
    destruct (Z.eqb k k0) eqn:Hk; simpl.
    + now constructor.
    + constructor; [| now apply IH].
      intros Hin. apply score_add_keys in Hin.
      destruct Hin as [->|Hin]; [| now apply Hnotin].
      now rewrite Z.eqb_refl in Hk.
Qed.

Lemma score_of_In (d : list (Z * R)) (k : Z) (v : R) :
  NoDup (map fst d) -> In (k, v) d -> score_of d k = v.
Proof.
  induction d as [|[k0 v0] d IH]; simpl; intros Hnd Hin.
  - contradiction.
  - inversion Hnd as [|? ? Hnotin Hnd']; subst.
    destruct Hin as [Heq|Hin].
    + inversion Heq; subst. now rewrite Z.eqb_refl.
    + destruct (Z.eqb k k0) eqn:Hk.
      * apply Z.eqb_eq in Hk. subst k0.
        exfalso. apply Hnotin. now apply (in_map fst) in Hin.
      * now apply IH.
Qed.

Lemma accumulate_score (entries : list InvertedIndexEntry)
    (d : list (Z * R)) (k : Z) :
  score_of (fold_left accumulate entries d) k =
  score_of d k + aggregate_score entries k.
Proof.
  revert d. induction entries as [|e rest IH]; intros d; simpl.
  - lra.
  - rewrite IH. unfold accumulate. rewrite score_of_add.
    destruct (Z.eqb (publication_id e) k); lra.
Qed.

Lemma accumulate_NoDup (entries : list InvertedIndexEntry)
    (d : list (Z * R)) :
  NoDup (map fst d) -> NoDup (map fst (fold_left accumulate entries d)).
Proof.
  revert d. induction entries as [|e rest IH]; intros d Hnd; simpl.
  - exact Hnd.
  - apply IH. now apply score_add_NoDup.
Qed.

(** The score [search] gives a publication is the sum of the scores of the
    matching rows of that publication, and no publication is scored
    twice. *)
Lemma doc_scores_aggregate (entries : list InvertedIndexEntry)
    (k : Z) (v : R) :
  In (k, v) (doc_scores entries) -> v = aggregate_score entries k.
Proof.
  intros Hin. unfold doc_scores in Hin.
  apply score_of_In in Hin.
  - rewrite accumulate_score in Hin. simpl in Hin. lra.
  - apply accumulate_NoDup. constructor.
Qed.

Lemma doc_scores_NoDup (entries : list InvertedIndexEntry) :
  NoDup (map fst (doc_scores entries)).
Proof.
  unfold doc_scores.
  apply accumulate_NoDup. constructor.
Qed.

Lemma insert_desc_perm (x : Z * R) (l : list (Z * R)) :
  Permutation (insert_desc x l) (x :: l).
Proof.
  induction l as [|y l IH]; simpl.
  - apply Permutation_refl.
  - destruct (Rleb (snd y) (snd x)).
    + apply Permutation_refl.
    + eapply perm_trans; [apply perm_skip, IH | apply perm_swap].
Qed.

Lemma sorted_desc_perm (l : list (Z * R)) : Permutation (sorted_desc l) l.
Proof.
  induction l as [|x l IH]; simpl.
  - constructor.
  - eapply perm_trans; [apply insert_desc_perm | now apply perm_skip].
Qed.

Lemma insert_desc_descending (x : Z * R) (l : list (Z * R)) :
  descending l -> descending (insert_desc x l).
Proof.
  unfold descending.
  induction 1 as [|y l Hs IH Hall]; simpl.
  - constructor; constructor.
  - destruct (Rleb (snd y) (snd x)) eqn:Hyx.
    + apply Rleb_true_iff in Hyx.
      constructor; [now constructor|].
      constructor; [exact Hyx|].
      eapply Forall_impl; [| exact Hall]. simpl. intros z Hz. lra.
    + apply Rleb_false_iff in Hyx.
      constructor; [exact IH|].
      apply Forall_forall. intros z Hz.
      apply (Permutation_in _ (insert_desc_perm x l)) in Hz.
      destruct Hz as [<-|Hz]; [lra|].
      rewrite Forall_forall in Hall. now apply Hall.
Qed.

Lemma sorted_desc_descending (l : list (Z * R)) : descending (sorted_desc l).
Proof.
  induction l as [|x l IH]; simpl.
  - constructor.
  - now apply insert_desc_descending.
Qed.

Lemma firstn_incl {A : Type} (n : nat) (l : list A) (x : A) :
  In x (firstn n l) -> In x l.
Proof.
  intros Hin. rewrite <- (firstn_skipn n l). apply in_or_app. now left.
Qed.

Lemma firstn_descending (n : nat) (l : list (Z * R)) :
  descending l -> descending (firstn n l).
Proof.
  unfold descending. intros Hs. revert n.
  induction Hs as [|y l Hs IH Hall]; intros [|n]; simpl; try constructor.
  - apply IH.
  - apply Forall_forall. intros z Hz. apply firstn_incl in Hz.
    rewrite Forall_forall in Hall. now apply Hall.
Qed.

Lemma firstn_NoDup {A : Type} (n : nat) (l : list A) :
  NoDup l -> NoDup (firstn n l).
Proof.
  intros Hnd. rewrite <- (firstn_skipn n l) in Hnd.
  now apply NoDup_app_remove_r in Hnd.
Qed.

(** A cut [seq[:k]] is a prefix; for [k >= 0] it is the first [k] items. *)
Lemma slice_to_prefix {A : Type} (l : list A) (k : Z) :
  exists n, Py.slice_to l k = firstn n l
            /\ ((0 <= k)%Z -> n = Z.to_nat k).
Proof.
  unfold Py.slice_to. destruct (0 <=? k)%Z eqn:Hk.
  - exists (Z.to_nat k). auto.
  - exists (Z.to_nat (Py.len l + k)). split; [reflexivity|].
    apply Z.leb_gt in Hk. lia.
Qed.

End Ranking.

(* ------------------------------------------------------------------ *)
(** * Search *)
(* ------------------------------------------------------------------ *)

Section SearchFacts.
Import Models Preprocessor Indexer Search Spec.
Context {nltk : Nltk}.

(** [search] returns nothing, or the ranked publications with their
    rounded score. *)
Lemma search_cases (self : SearchEngine) (db : Database)
    (query : string) (top_n : Z) :
  search self db query top_n = []
  \/ search self db query top_n =
     results (sorted_docs self db (preprocess_text query) top_n).
Proof.
  unfold search.
  destruct query as [|c q]; [now left|].
  destruct (Py.strip_is_empty (String c q)); [now left|].
  destruct (preprocess_text (String c q)) as [|t ts]; [now left|].
  destruct (matching_entries db (t :: ts)) as [|e es]; [now left|].
  destruct (filtered_docs self (doc_scores (e :: es))); [now left|].
  now right.
Qed.

Lemma search_no_match (self : SearchEngine) (db : Database)
    (query : string) (top_n : Z) :
  matching_entries db (preprocess_text query) = [] ->
  search self db query top_n = [].
Proof.
  intros Hm. unfold search.
  destruct query as [|c q]; [reflexivity|].
  destruct (Py.strip_is_empty (String c q)); [reflexivity|].
  destruct (preprocess_text (String c q)) as [|t ts]; [reflexivity|].
  now rewrite Hm.
Qed.

Lemma search_no_tokens (self : SearchEngine) (db : Database)
    (query : string) (top_n : Z) :
  preprocess_text query = [] -> search self db query top_n = [].
Proof.
  intros Hq. unfold search.
  destruct query as [|c q]; [reflexivity|].
  destruct (Py.strip_is_empty (String c q)); [reflexivity|].
  now rewrite Hq.
Qed.

Lemma matching_entries_none (db : Database) (query_tokens : list string) :
  (forall e, In e (index_entries db) -> ~ In (term e) query_tokens) ->
  matching_entries db query_tokens = [].
Proof.
  intros Hnone. unfold matching_entries.
  rewrite (filter_ext_in _ (fun _ => false)); [apply filter_false|].
  intros e He. apply andb_false_iff. left.
  destruct (existsb (String.eqb (term e)) query_tokens) eqn:Hex;
    [| reflexivity].
  apply existsb_exists in Hex. destruct Hex as (t & Ht & Heq).
  apply String.eqb_eq in Heq. subst t. now apply Hnone in He.
Qed.

(** C9. Whatever the corpus and the index, [search] returns the empty list
    (it is a total function, no exception is involved) when the query is
    empty, when it is blank, when it normalises to no token, and when no
    token of the query is a term of the index. *)
Theorem search_empty_query_or_no_match
    (self : SearchEngine) (db : Database) (query : string) (top_n : Z) :
  query = EmptyString
  \/ Py.strip_is_empty query = true
  \/ preprocess_text query = []
  \/ (forall e, In e (index_entries db) ->
               ~ In (term e) (preprocess_text query)) ->
  search self db query top_n = [].
Proof.
  intros [->|[Hblank|[Hnone|Hmiss]]].
  - reflexivity.
  - unfold search. destruct query; [reflexivity|]. now rewrite Hblank.
  - now apply search_no_tokens.
  - apply search_no_match. now apply matching_entries_none.
Qed.



Lemma sorted_docs_facts (self : SearchEngine) (db : Database)
    (query_tokens : list string) (top_n : Z) :
  let docs := sorted_docs self db query_tokens top_n in
  NoDup (map fst docs)
  /\ (forall k score, In (k, score) docs ->
        score = aggregate_score (matching_entries db query_tokens) k
        /\ (min_score_threshold self <= score)%R)
  /\ descending docs
  /\ ((0 <= top_n)%Z -> (0 <= max_results self)%Z ->
      (Py.len docs <= Z.min top_n (max_results self))%Z).
Proof.
  intros docs. subst docs. unfold sorted_docs.
  set (ranked := sorted_desc _).
  destruct (slice_to_prefix ranked (Z.min top_n (max_results self)))
    as (n & -> & Hn).
  assert (Hperm : Permutation ranked
            (filtered_docs self
               (doc_scores (matching_entries db query_tokens))))
    by apply sorted_desc_perm.
  split.
  { rewrite <- firstn_map. apply firstn_NoDup.
    apply (Permutation_NoDup (Permutation_sym (Permutation_map fst Hperm))).
    unfold filtered_docs.
    assert (Hnd := doc_scores_NoDup (matching_entries db query_tokens)).
    revert Hnd. generalize (doc_scores (matching_entries db query_tokens)).
    induction l as [|[k v] l IH]; simpl; intros Hnd; [constructor|].
    inversion Hnd as [|? ? Hnotin Hnd']; subst.
    destruct (Rleb (min_score_threshold self) v); simpl; [|auto].
    constructor; [|auto].
    intros Hin. apply Hnotin. apply in_map_iff in Hin.
    destruct Hin as (x & Hx & Hin). apply filter_In in Hin.
    apply in_map_iff. exists x. tauto. }
  split.
  { intros k score Hin. apply firstn_incl in Hin.
    apply (Permutation_in _ Hperm) in Hin.
    unfold filtered_docs in Hin. apply filter_In in Hin.
    destruct Hin as [Hin Hthr]. simpl in Hthr.
    apply Rleb_true_iff in Hthr.
    split; [now apply doc_scores_aggregate | exact Hthr]. }
  split.
  { apply firstn_descending. apply sorted_desc_descending. }
  intros Htop Hmax. rewrite Hn by lia.
  unfold Py.len. pose proof (firstn_le_length
    (Z.to_nat (Z.min top_n (max_results self))) ranked). lia.
Qed.

Lemma results_length (docs : list (Z * R)) :
  Py.len (results docs) = Py.len docs.
Proof. unfold Py.len, results. now rewrite length_map. Qed.

(** C8, for a result limit that is not negative. What [search] returns is
    the rounding of a list of publications with their aggregate scores in
    which no publication occurs twice, every score is the sum of the
    scores of the matching rows of its publication and is at least 0.01,
    the scores fall, and there are at most [min(top_n, 500)] items. *)
Theorem search_threshold_order_limit
    (db : Database) (query : string) (top_n : Z) :
  (0 <= top_n)%Z ->
  exists docs : list (Z * R),
    search new_engine db query top_n = results docs
    /\ NoDup (map fst docs)
    /\ (forall k score, In (k, score) docs ->
          score = aggregate_score
                    (matching_entries db (preprocess_text query)) k
          /\ (1 / 100 <= score)%R)
    /\ descending docs
    /\ (Py.len docs <= Z.min top_n 500)%Z
    /\ (Py.len (search new_engine db query top_n) <= Z.min top_n 500)%Z.
Proof.
  intros Htop.
  destruct (search_cases new_engine db query top_n) as [Hs|Hs].
  - exists []. rewrite Hs. simpl.
    split; [reflexivity|]. split; [constructor|].
    split; [intros k score []|]. split; [constructor|].
    unfold Py.len. simpl. lia.
  - exists (sorted_docs new_engine db (preprocess_text query) top_n).
    destruct (sorted_docs_facts new_engine db (preprocess_text query) top_n)
      as (Hnd & Hscore & Hdesc & Hlen).
    simpl in Hscore, Hlen.
    split; [exact Hs|]. split; [exact Hnd|]. split; [exact Hscore|].
    split; [exact Hdesc|].
    rewrite Hs, results_length. split; apply Hlen; lia.
Qed.

End SearchFacts.

(* ------------------------------------------------------------------ *)
(** * The terms of the index *)
(* ------------------------------------------------------------------ *)

Section IndexedTerms.
Import Models Preprocessor Indexer Search Spec.
Context {nltk : Nltk}.

Lemma skipped_true (token : string) :
  (String.length token < 2)%nat \/ Py.isdigit token = true
  \/ in_stop_words token = true ->
  skipped token = true.
Proof.
  unfold skipped. intros [Hlen|[Hdigit|Hstop]].
  - apply Nat.ltb_lt in Hlen. now rewrite Hlen.
  - rewrite Hdigit. apply orb_true_r.
  - rewrite Hstop. now rewrite orb_true_r.
Qed.

(** C10, as the code has it. The loop of the preprocessor tests a token
    before it stems it, so what is known of a term of the index is that it
    is the stem of a token of two characters or more that is neither a
    number nor a stopword: for every row a rebuild writes, for every row an
    update leaves for the updated publication.  A query whose tokens are all
    shorter than two characters, numbers or stopwords finds nothing. *)
Theorem indexed_terms_are_stems_of_kept_tokens :
  (forall (self : IndexBuilder) (db : Database) (e : InvertedIndexEntry),
      publications db <> [] ->
      In e (index_entries (snd (build_index self db))) ->
      exists pub token,
        In pub (publications db) /\ pub_id pub = publication_id e
        /\ In token (word_tokenize (clean (content pub)))
        /\ kept_token token /\ term e = stem token)
  /\ (forall (self : IndexBuilder) (db : Database) (pub : Publication)
             (e : InvertedIndexEntry),
      In e (index_entries (snd (update_index self db pub))) ->
      publication_id e = pub_id pub ->
      exists token,
        In token (word_tokenize (clean (content pub)))
        /\ kept_token token /\ term e = stem token)
  /\ (forall (engine : SearchEngine) (db : Database) (query : string)
             (top_n : Z),
      (forall token, In token (word_tokenize (clean query)) ->
         (String.length token < 2)%nat \/ Py.isdigit token = true
         \/ in_stop_words token = true) ->
      search engine db query top_n = []).
Proof.
  split; [|split].
  - intros self db e Hne Hin.
    destruct (build_index_row self db e Hne Hin)
      as (pub & Hpub & Hk & Hterm & _).
    apply preprocess_text_In in Hterm.
    destruct Hterm as (token & Htok & Hkept & Hstem).
    exists pub, token. auto.
  - intros self db pub e Hin Hk. unfold update_index in Hin.
    destruct (has_publication db (pub_id pub)); simpl in Hin.
    + apply in_app_or in Hin. destruct Hin as [Hin|Hin].
      * apply filter_In in Hin. destruct Hin as [_ Hne].
        apply negb_true_iff, Z.eqb_neq in Hne. contradiction.
      * apply in_map_iff in Hin. destruct Hin as ([t f] & <- & Hrow).
        simpl. apply count_terms_row in Hrow. destruct Hrow as [Ht _].
        now apply preprocess_text_In in Ht.
    + apply filter_In in Hin. destruct Hin as [_ Hne].
      apply negb_true_iff, Z.eqb_neq in Hne. contradiction.
  - intros engine db query top_n Hall. apply search_no_tokens.
    unfold preprocess_text, preprocess. destruct query; [reflexivity|].
    apply process_tokens_all_skipped. intros token Hin.
    apply skipped_true. now apply Hall.
Qed.

End IndexedTerms.

(* ------------------------------------------------------------------ *)
(** * The query cache *)
(* ------------------------------------------------------------------ *)

Section QueryCache.
Import Models Preprocessor Indexer Search Spec.
Context {nltk : Nltk}.

Lemma key_eqb_refl (key : CacheKey) : key_eqb key key = true.
Proof.
  unfold key_eqb. now rewrite String.eqb_refl, Z.eqb_refl.
Qed.

(** After a call the key is in the table with the value returned. *)
Lemma get_cached_search_stores (cache : LruCache) (db : Database)
    (query : string) (top_n : Z) :
  lru_find (snd (get_cached_search cache db query top_n)) (query, top_n) =
  Some (fst (get_cached_search cache db query top_n)).
Proof.
  unfold get_cached_search.
  destruct (lru_find cache (query, top_n)) as [ids|]; simpl;
    now rewrite key_eqb_refl.
Qed.

Lemma get_cached_search_again (cache : LruCache) (db db' : Database)
    (query : string) (top_n : Z) :
  fst (get_cached_search (snd (get_cached_search cache db query top_n))
         db' query top_n) =
  fst (get_cached_search cache db query top_n).
Proof.
  unfold get_cached_search at 1.
  now rewrite get_cached_search_stores.
Qed.

Lemma get_cached_search_miss (cache : LruCache) (db : Database)
    (query : string) (top_n : Z) :
  lru_find cache (query, top_n) = None ->
  fst (get_cached_search cache db query top_n) =
  uncached_search db query top_n.
Proof.
  intros Hmiss. unfold get_cached_search. now rewrite Hmiss.
Qed.

(** C4, as the code has it. With the cache, the second of two calls with
    the same query and result count returns what the first returned,
    whatever has become of the index in between: nothing but [clear_cache]
    empties the table.  A call that finds no entry, and so every call
    after [clear_cache], returns what [search] computes from the index it
    is given. *)
Theorem cached_search_repeats_until_cleared
    (cache : LruCache) (db db' : Database) (query : string) (top_n : Z) :
  let first := get_cached_search cache db query top_n in
  let second := get_cached_search (snd first) db' query top_n in
  fst second = fst first
  /\ (lru_find cache (query, top_n) = None ->
      fst first = uncached_search db query top_n)
  /\ fst (get_cached_search (clear_cache (snd first)) db' query top_n) =
     uncached_search db' query top_n.
Proof.
  intros first second. split; [|split].
  - apply get_cached_search_again.
  - apply get_cached_search_miss.
  - reflexivity.
Qed.

End QueryCache.

(* ------------------------------------------------------------------ *)
(** * Values of the logarithm the scenarios need *)
(* ------------------------------------------------------------------ *)

Section ScoreValues.
Import Indexer.
Local Open Scope R_scope.

Lemma ln_lower_bound (x : R) : 1 < x -> 1 - / x < ln x.
Proof.
  intros Hx.
  assert (Hpos : 0 < x) by lra.
  assert (Hln : 0 < ln x).
  { rewrite <- ln_1. apply ln_increasing; lra. }
  pose proof (exp_ineq1 (- ln x)) as Hexp.
  rewrite exp_Ropp, exp_ln in Hexp by exact Hpos.
  assert (Hne : - ln x <> 0) by lra.
  specialize (Hexp Hne). lra.
Qed.

Lemma ln_negative (x : R) : 0 < x -> x < 1 -> ln x < 0.
Proof.
  intros H0 H1. rewrite <- ln_1. now apply ln_increasing.
Qed.

(** A term of every document weighs nothing. *)
Lemma tfidf_all_documents (tf n : Z) : (0 < n)%Z -> tfidf tf n n = 0.
Proof.
  intros Hn. unfold tfidf, idf.
  apply Z.ltb_lt in Hn as Hb. rewrite Hb.
  replace (IZR n / IZR n) with 1.
  - rewrite ln_1. lra.
  - field. apply IZR_lt in Hn. lra.
Qed.

Lemma tfidf_1_3_2 : tfidf 1 3 2 = ln (3 / 2).
Proof. unfold tfidf, idf. simpl. lra. Qed.

Lemma ln_3_2 : 1 / 3 < ln (3 / 2).
Proof.
  pose proof (ln_lower_bound (3 / 2)) as H.
  assert (Hinv : / (3 / 2) = 2 / 3) by field. lra.
Qed.

Lemma tfidf_1_2_1 : 1 / 2 < tfidf 1 2 1.
Proof.
  unfold tfidf, idf. simpl.
  pose proof (ln_lower_bound (2 / 1)) as H.
  assert (Hinv : / (2 / 1) = 1 / 2) by field. lra.
Qed.

(** A document frequency above the corpus size makes the score negative. *)
Lemma tfidf_negative (tf n df : Z) :
  (0 < tf)%Z -> (0 < n)%Z -> (n < df)%Z -> tfidf tf n df < 0.
Proof.
  intros Htf Hn Hdf. unfold tfidf, idf.
  assert (Hb : (0 <? df)%Z = true) by (apply Z.ltb_lt; lia).
  rewrite Hb.
  apply IZR_lt in Htf, Hn, Hdf.
  assert (Hdfpos : 0 < IZR df) by lra.
  assert (Hln : ln (IZR n / IZR df) < 0).
  { apply ln_negative.
    - now apply Rdiv_lt_0_compat.
    - apply (Rmult_lt_reg_r (IZR df)); [exact Hdfpos|].
      unfold Rdiv. rewrite Rmult_assoc, Rinv_l by lra. lra. }
  nra.
Qed.

End ScoreValues.

(* ------------------------------------------------------------------ *)
(** * The sign of the scores of an update *)
(* ------------------------------------------------------------------ *)

Section UpdateScores.
Import Models Preprocessor Indexer Spec.
Context {nltk : Nltk}.

Lemma tfidf_nonnegative (tf n df : Z) :
  (0 <= tf)%Z -> (0 < df)%Z -> (df <= n)%Z -> (0 <= tfidf tf n df)%R.
Proof.
  intros Htf Hdf Hn. unfold tfidf, idf.
  assert (Hb : (0 <? df)%Z = true) by (apply Z.ltb_lt; lia).
  rewrite Hb.
  apply IZR_le in Htf, Hn. apply IZR_lt in Hdf.
  assert (Hratio : (1 <= IZR n / IZR df)%R).
  { apply (Rmult_le_reg_r (IZR df)); [exact Hdf|].
    unfold Rdiv. rewrite Rmult_assoc, Rinv_l by lra. lra. }
  assert (Hln : (0 <= ln (IZR n / IZR df))%R).
  { destruct Hratio as [Hlt|<-].
    - left. rewrite <- ln_1. apply ln_increasing; lra.
    - rewrite ln_1. lra. }
  now apply Rmult_le_pos.
Qed.

Lemma has_publication_In (db : Database) (k : Z) :
  has_publication db k = true <-> In k (map pub_id (publications db)).
Proof.
  unfold has_publication. rewrite existsb_exists, in_map_iff.
  split; intros (p & H1 & H2).
  - apply Z.eqb_eq in H2. eauto.
  - exists p. split; [exact H2|]. now apply Z.eqb_eq.
Qed.

(** Among the rows of the other publications, a term is held by fewer
    publications than the store has. *)
Lemma publications_holding_bound (db : Database) (k : Z) (t : string) :
  referential_integrity db ->
  has_publication db k = true ->
  (publications_holding
     (filter (fun e => negb (Z.eqb (publication_id e) k)) (index_entries db))
     t + 1 <= Py.len (publications db))%Z.
Proof.
  intros Hfk Hk. unfold publications_holding, Py.len.
  set (holders := nodup Z.eq_dec _).
  assert (Hincl : incl holders
            (remove Z.eq_dec k (map pub_id (publications db)))).
  { intros x Hx. subst holders. apply nodup_In in Hx.
    apply in_map_iff in Hx. destruct Hx as (e & <- & He).
    apply filter_In in He. destruct He as [He _].
    apply filter_In in He. destruct He as [He Hne].
    apply negb_true_iff, Z.eqb_neq in Hne.
    apply in_in_remove; [exact Hne|].
    apply has_publication_In. now apply Hfk. }
  assert (Hlen := NoDup_incl_length (NoDup_nodup Z.eq_dec _) Hincl).
  fold holders in Hlen.
  apply has_publication_In in Hk.
  pose proof (remove_length_lt Z.eq_dec _ _ Hk) as Hlt.
  rewrite length_map in Hlt. lia.
Qed.

(** X12. On a store that respects the foreign key, the document frequency
    an update computes does not exceed the corpus size, and no row it
    writes has a negative score. *)
Lemma update_index_scores_nonnegative
    (self : IndexBuilder) (db : Database) (pub : Publication)
    (e : InvertedIndexEntry) :
  referential_integrity db ->
  has_publication db (pub_id pub) = true ->
  In e (index_entries (snd (update_index self db pub))) ->
  publication_id e = pub_id pub ->
  (0 <= tfidf_score e)%R.
Proof.
  intros Hfk Hrow Hin Hk. unfold update_index in Hin.
  rewrite Hrow in Hin. simpl in Hin.
  apply in_app_or in Hin. destruct Hin as [Hin|Hin].
  - apply filter_In in Hin. destruct Hin as [_ Hne].
    apply negb_true_iff, Z.eqb_neq in Hne. contradiction.
  - apply in_map_iff in Hin. destruct Hin as ([t f] & <- & Hcount).
    simpl. apply count_terms_row in Hcount. destruct Hcount as [_ ->].
    apply tfidf_nonnegative.
    + unfold occurrences. lia.
    + unfold publications_holding, Py.len. lia.
    + now apply publications_holding_bound.
Qed.

End UpdateScores.

(** Settles the tests [Rleb a b] of the goal from the facts at hand. *)
Ltac decide_Rleb :=
  repeat match goal with
  | |- context [Search.Rleb ?a ?b] =>
      first [ rewrite (proj2 (Rleb_true_iff a b)) by lra
            | rewrite (proj2 (Rleb_false_iff a b)) by lra ]
  end.

(** Runs the services on a concrete corpus, leaving the scores as they
    are written. *)
Ltac run_services :=
  repeat (cbv -[Indexer.tfidf Search.Rleb Search.round4
                Rplus Rdiv Rmult IZR ln];
          decide_Rleb).

(* ------------------------------------------------------------------ *)
(** * The services on the corpora of the scenarios *)
(* ------------------------------------------------------------------ *)

Section Scenarios.
Import Models Preprocessor Indexer Search Spec Scenario Corpora.
Local Open Scope string_scope.

(** After a rebuild with a new builder the counter holds, for each term,
    its occurrences in the whole corpus. *)
Lemma rebuild_counts_occurrences {nltk : Nltk}
    (db : Database) (t : string) :
  publications db <> [] ->
  Py.counter_get (term_doc_freq (snd (fst (build_index new_builder db)))) t =
  corpus_occurrences (publications db) t.
Proof.
  intros Hne. rewrite (build_index_nonempty new_builder db Hne). simpl.
  rewrite first_pass_term_doc_freq. simpl. lia.
Qed.

(** C1, at a corpus of one document in which "data" occurs twice. The
    counter of the builder holds 2 for "data" after the rebuild, and one
    document of the corpus contains "data": the counter is incremented at
    every occurrence of a token. *)
Theorem rebuild_counts_each_occurrence :
  Py.counter_get
    (term_doc_freq (builder_after (store repeated_term))) "data" = 2%Z
  /\ document_frequency repeated_term "data" = 1%Z.
Proof. split; reflexivity. Qed.

(** C2, at the same corpus. The row of "data" is written with term
    frequency 2 and the score [2 * ln (1 / 2)], which is negative: the
    counter read as document frequency is 2 in a corpus of one document. *)
Theorem rebuild_negative_score :
  exists e,
    In e (index_entries (rebuilt (store repeated_term)))
    /\ term e = "data" /\ term_frequency e = 2%Z
    /\ tfidf_score e = tfidf 2 1 2 /\ (tfidf_score e < 0)%R.
Proof.
  exists {| term := "data"; publication_id := 1;
            tfidf_score := tfidf 2 1 2; term_frequency := 2 |}.
  split; [cbv -[tfidf]; now left|]. simpl.
  repeat split. apply tfidf_negative; lia.
Qed.

(** C6, at a corpus of one document with one term. A second [build_index]
    on the same builder, over the store the first one left, writes a row
    with another score: the counter was not emptied and holds 2. *)
Theorem rebuild_twice_same_builder_differs :
  let first := build_index new_builder (store one_term) in
  let second := build_index (snd (fst first)) (snd first) in
  publications (snd second) = publications (snd first)
  /\ map tfidf_score (index_entries (snd first)) = [tfidf 1 1 1]
  /\ map tfidf_score (index_entries (snd second)) = [tfidf 1 1 2]
  /\ index_entries (snd second) <> index_entries (snd first).
Proof.
  cbv zeta.
  split; [reflexivity|].
  split; [cbv -[tfidf]; reflexivity|].
  split; [cbv -[tfidf]; reflexivity|].
  cbv -[tfidf]. intros Heq. injection Heq as Heq.
  pose proof (tfidf_all_documents 1 1 eq_refl) as H11.
  assert (H12 : (tfidf 1 1 2 < 0)%R) by (apply tfidf_negative; lia).
  lra.
Qed.

(** The six orders in which the store can yield three publications. *)
Lemma scenario_a_orders (pubs : list Publication) :
  Permutation pubs scenario_a ->
  pubs = [doc1; doc2; doc3] \/ pubs = [doc1; doc3; doc2]
  \/ pubs = [doc2; doc1; doc3] \/ pubs = [doc2; doc3; doc1]
  \/ pubs = [doc3; doc1; doc2] \/ pubs = [doc3; doc2; doc1].
Proof.
  intros Hperm.
  assert (Hlen := Permutation_length Hperm).
  assert (Hnd : NoDup pubs).
  { apply (Permutation_NoDup (Permutation_sym Hperm)).
    unfold scenario_a. repeat constructor; simpl; intuition discriminate. }
  assert (Hin : forall p, In p pubs -> p = doc1 \/ p = doc2 \/ p = doc3).
  { intros p Hp. apply (Permutation_in _ Hperm) in Hp. simpl in Hp.
    intuition. }
  destruct pubs as [|a [|b [|c [|d pubs]]]]; try discriminate Hlen.
  assert (Ha := Hin a (or_introl eq_refl)).
  assert (Hb := Hin b (or_intror (or_introl eq_refl))).
  assert (Hc := Hin c (or_intror (or_intror (or_introl eq_refl)))).
  inversion Hnd as [|? ? Hab Hnd']; subst.
  inversion Hnd' as [|? ? Hbc _]; subst.
  simpl in Hab, Hbc.
  destruct Ha as [-> | [-> | ->]], Hb as [-> | [-> | ->]],
    Hc as [-> | [-> | ->]];
    try (exfalso; tauto); tauto.
Qed.

(** What the cache and [search] answer around the added document. *)
Lemma search_before_add :
  uncached_search indexed_before_add "python" 10 = [1%Z].
Proof.
  pose proof tfidf_1_2_1 as H21.
  unfold uncached_search. run_services. reflexivity.
Qed.

Lemma search_after_add :
  uncached_search indexed_after_add "python" 10 = [3%Z; 1%Z].
Proof.
  pose proof tfidf_1_3_2 as H32. pose proof ln_3_2 as Hln.
  unfold uncached_search. run_services. reflexivity.
Qed.

(** C4: the index is built and "python" is looked up through the cache;
    a document with "python" is added and the index rebuilt; the same
    lookup returns the list of before, not what the rebuilt index gives. *)
Lemma cached_search_stale_counterexample :
  let first := get_cached_search [] indexed_before_add "python" 10 in
  fst (get_cached_search (snd first) indexed_after_add "python" 10)
  <> uncached_search indexed_after_add "python" 10.
Proof.
  cbv zeta.
  rewrite get_cached_search_again.
  rewrite (get_cached_search_miss [] indexed_before_add "python" 10 eq_refl).
  rewrite search_before_add, search_after_add.
  discriminate.
Qed.

(** A result limit of -1 cuts [seq[:-1]], which drops the last of the two
    publications found; one is returned. *)
Lemma search_negative_limit :
  map fst (search new_engine (rebuilt (store scenario_a)) "programming" (-1))
  = [3%Z].
Proof.
  pose proof tfidf_1_3_2 as H32. pose proof ln_3_2 as Hln.
  run_services. reflexivity.
Qed.

(** C10: the document "others" is indexed under "other", the stem of
    "others", and "other" is a stopword. *)
Lemma indexed_stopword_counterexample :
  ~ (forall e,
       In e (index_entries (rebuilt (store plural_stopword))) ->
       kept_token (term e)).
Proof.
  intros Hall.
  destruct (Hall {| term := "other"; publication_id := 1;
                    tfidf_score := tfidf 1 1 1; term_frequency := 1 |})
    as (_ & _ & Hstop).
  - cbv -[tfidf]. now left.
  - discriminate Hstop.
Qed.

(** ** The theorems at concrete inputs *)

Lemma update_index_postings_witness :
  exists e,
    In e (index_entries
            (snd (update_index new_builder indexed_before_add
                    (doc 1 "snake snake"))))
    /\ term e = "snake" /\ publication_id e = 1%Z
    /\ term_frequency e = 2%Z
    /\ tfidf_score e = (2 * ln (2 / (1 + 1)))%R.
Proof.
  destruct (update_index_postings new_builder indexed_before_add
              (doc 1 "snake snake"))
    as (fresh & Hindex & Hkept & Hout).
  set (e := {| term := "snake"; publication_id := 1;
               tfidf_score := tfidf 2 2 2; term_frequency := 2 |}).
  assert (Hin : In e fresh).
  { assert (He : In e (index_entries
                         (snd (update_index new_builder indexed_before_add
                                 (doc 1 "snake snake")))))
      by (cbv -[tfidf]; right; now left).
    rewrite Hindex in He. apply in_app_or in He.
    destruct He as [He|He]; [|exact He].
    apply Hkept in He. now elim He. }
  assert (Hrun : fst (update_index new_builder indexed_before_add
                        (doc 1 "snake snake")) =
                 Returned {| update_entries_created := 1 |})
    by (cbv -[tfidf]; reflexivity).
  rewrite Hrun in Hout.
  destruct Hout as (_ & _ & _ & _ & _ & Hrows).
  destruct (Hrows e Hin) as (_ & _ & holders & Hnd & Hmem & Hscore).
  exists e. rewrite Hscore.
  split; [cbv -[tfidf]; right; now left|].
  split; [reflexivity|]. split; [reflexivity|]. split; [reflexivity|].
  assert (Hone : forall j, In j holders <-> j = 2%Z).
  { intros j. rewrite Hmem. cbv -[tfidf In]. split.
    - intros (e' & [<-|[]] & _ & <-). reflexivity.
    - intros ->. eexists. split; [now left|]. split; reflexivity. }
  assert (Hlen : Py.len holders = 1%Z).
  { destruct holders as [|a [|b l]].
    - exfalso. now apply (proj2 (Hone 2%Z) eq_refl).
    - reflexivity.
    - exfalso. inversion Hnd as [|? ? Hnot _]; subst. apply Hnot.
      rewrite (proj1 (Hone a) (or_introl eq_refl)).
      rewrite <- (proj1 (Hone b) (or_intror (or_introl eq_refl))).
      now left. }
  rewrite Hlen. cbv -[Rmult Rdiv Rplus IZR ln].
  replace (IZR 2) with 2%R by reflexivity.
  replace (IZR (1 + 1)) with (1 + 1)%R by (rewrite plus_IZR; reflexivity).
  reflexivity.
Defined.

Lemma search_empty_query_or_no_match_witness :
  preprocess_text "the 42 a" = []
  /\ search new_engine (rebuilt (store scenario_a)) "the 42 a" 10 = [].
Proof.
  split; [reflexivity|].
  apply search_empty_query_or_no_match.
  right. right. left. reflexivity.
Defined.


Lemma search_threshold_order_limit_witness :
  (0 <= 10)%Z
  /\ (Py.len (search new_engine (rebuilt (store scenario_a))
                "python programming" 10) <= Z.min 10 500)%Z.
Proof.
  split; [lia|].
  destruct (search_threshold_order_limit
              (rebuilt (store scenario_a)) "python programming" 10)
    as (docs & _ & _ & _ & _ & _ & Hlen); [lia|exact Hlen].
Defined.

Lemma indexed_terms_are_stems_of_kept_tokens_witness :
  (forall token, In token (word_tokenize (clean "The 42 a")) ->
     (String.length token < 2)%nat \/ Py.isdigit token = true
     \/ in_stop_words token = true)
  /\ search new_engine (rebuilt (store scenario_a)) "The 42 a" 10 = [].
Proof.
  assert (Hall : forall token, In token (word_tokenize (clean "The 42 a")) ->
     (String.length token < 2)%nat \/ Py.isdigit token = true
     \/ in_stop_words token = true).
  { intros token [<-|[<-|[<-|[]]]].
    - right. right. reflexivity.
    - right. left. reflexivity.
    - left. simpl. lia. }
  split; [exact Hall|].
  apply (proj2 (proj2 indexed_terms_are_stems_of_kept_tokens)).
  exact Hall.
Defined.

End Scenarios.

(* ------------------------------------------------------------------ *)
(** * The text handed to the tokenizer *)
(* ------------------------------------------------------------------ *)

Section CleanFacts.
Import Preprocessor Invariants.
Local Open Scope string_scope.

Lemma alnum_not_space (c : ascii) :
  is_lower_alnum c = true -> Py.isspace c = false.
Proof.
  unfold is_lower_alnum, Py.isspace. set (n := N_of_ascii c).
  intros H.
  repeat match goal with
         | H : context [N.leb ?a ?b] |- _ => destruct (N.leb_spec a b)
         | |- context [N.leb ?a ?b] => destruct (N.leb_spec a b)
         | |- context [N.eqb ?a ?b] => destruct (N.eqb_spec a b)
         end; simpl in *; try reflexivity; try discriminate; lia.
Qed.

Lemma alnum_not_blank (c : ascii) :
  is_lower_alnum c = true -> Ascii.eqb c " " = false.
Proof.
  intros H. destruct (Ascii.eqb_spec c " ") as [->|]; [discriminate H|].
  reflexivity.
Qed.

Lemma alnum_lower (c : ascii) :
  is_lower_alnum c = true -> Py.lower_char c = c.
Proof.
  unfold is_lower_alnum, Py.lower_char. set (n := N_of_ascii c).
  intros H.
  repeat match goal with
         | H : context [N.leb ?a ?b] |- _ => destruct (N.leb_spec a b)
         | |- context [N.leb ?a ?b] => destruct (N.leb_spec a b)
         | |- context [N.eqb ?a ?b] => destruct (N.eqb_spec a b)
         end; simpl in *; try reflexivity; try discriminate; lia.
Qed.

Lemma remove_punctuation_chars (s : string) :
  Py.forallb_string (fun c => is_lower_alnum c || Py.isspace c)
    (remove_punctuation s) = true.
Proof.
  induction s as [|c s IH]; simpl; [reflexivity|].
  rewrite IH, andb_true_r.
  destruct (is_lower_alnum c || Py.isspace c) eqn:Hc; [exact Hc|].
  reflexivity.
Qed.

Lemma squeeze_from_single_blanks (s : string) :
  forall started pending,
    (pending = true -> started = true) ->
    Py.forallb_string (fun c => is_lower_alnum c || Py.isspace c) s = true ->
    squeeze_from started pending s = ""
    \/ single_blanks started (squeeze_from started pending s) = true.
Proof.
  induction s as [|c s IH]; intros started pending Hinv Hok; simpl.
  - now left.
  - simpl in Hok. apply andb_true_iff in Hok. destruct Hok as [Hc Hs].
    destruct (Py.isspace c) eqn:Hsp.
    + apply IH; auto.
    + rewrite orb_false_r in Hc.
      assert (Hrest : single_blanks started
                        (String c (squeeze_from true false s)) = true).
      { simpl. rewrite (alnum_not_blank c Hc), Hc. simpl.
        destruct (IH true false (fun _ => eq_refl) Hs) as [->|H];
          [reflexivity | exact H]. }
      right. destruct pending; [|exact Hrest].
      rewrite (Hinv eq_refl) in *. simpl.
      rewrite (alnum_not_blank c Hc), Hc. simpl.
      destruct (IH true false (fun _ => eq_refl) Hs) as [->|H];
        [reflexivity | exact H].
Qed.

Lemma squeeze_remove_punctuation_normal (s : string) :
  normal_text (squeeze (remove_punctuation s)) = true.
Proof.
  unfold squeeze, normal_text.
  destruct (squeeze_from_single_blanks
              (remove_punctuation s)
              false false (fun H => H) (remove_punctuation_chars _))
    as [->|H]; [reflexivity|].
  destruct (squeeze_from false false _); [reflexivity | exact H].
Qed.

(** X1. Whatever the text, what [preprocess] hands to the tokenizer is made
    of lower-case letters and digits in words separated by single blanks,
    with no blank at either end. *)
Theorem clean_normal_text (text : string) : normal_text (clean text) = true.
Proof.
  unfold clean. apply squeeze_remove_punctuation_normal.
Qed.

Lemma single_blanks_chars (s : string) :
  forall after_word,
    single_blanks after_word s = true ->
    Py.forallb_string (fun c => is_lower_alnum c || Ascii.eqb c " ") s = true.
Proof.
  induction s as [|c s IH]; intros after_word H; simpl in *; [reflexivity|].
  destruct (Ascii.eqb c " ") eqn:Hc.
  - apply andb_true_iff in H. destruct H as [_ H].
    rewrite orb_true_r. simpl. now apply (IH false).
  - apply andb_true_iff in H. destruct H as [Ha H].
    rewrite Ha. simpl. now apply (IH true).
Qed.

Lemma prefix_chars (f : ascii -> bool) (p : string) :
  forall s, String.prefix p s = true ->
            Py.forallb_string f s = true -> Py.forallb_string f p = true.
Proof.
  induction p as [|a p IH]; intros s Hp Hs; simpl; [reflexivity|].
  destruct s as [|b s]; simpl in Hp; [discriminate|].
  destruct (ascii_dec a b) as [->|]; [|discriminate].
  simpl in Hs. apply andb_true_iff in Hs. destruct Hs as [Hb Hs].
  rewrite Hb. simpl. now apply (IH s).
Qed.

Lemma url_here_normal (s : string) :
  Py.forallb_string (fun c => is_lower_alnum c || Ascii.eqb c " ") s = true ->
  url_here s = false.
Proof.
  intros Hs. unfold url_here, starts_with.
  assert (Hno : forall p,
             Py.forallb_string
               (fun c => is_lower_alnum c || Ascii.eqb c " ") p = false ->
             String.prefix p s = false).
  { intros p Hp. destruct (String.prefix p s) eqn:Hpre; [|reflexivity].
    rewrite (prefix_chars _ p s Hpre Hs) in Hp. discriminate. }
  rewrite (Hno "http://" eq_refl), (Hno "https://" eq_refl),
    (Hno "www." eq_refl). reflexivity.
Qed.

Lemma remove_urls_normal (s : string) :
  Py.forallb_string (fun c => is_lower_alnum c || Ascii.eqb c " ") s = true ->
  remove_urls_from false s = s.
Proof.
  induction s as [|c s IH]; intros Hs; [reflexivity|].
  assert (Hurl := url_here_normal _ Hs).
  simpl in Hs. apply andb_true_iff in Hs. destruct Hs as [_ Hs].
  cbn [remove_urls_from]. rewrite Hurl, (IH Hs). reflexivity.
Qed.

Lemma at_with_follower_normal (s : string) :
  Py.forallb_string (fun c => is_lower_alnum c || Ascii.eqb c " ") s = true ->
  at_with_follower s = false.
Proof.
  induction s as [|c s IH]; intros Hs; [reflexivity|].
  simpl in Hs. apply andb_true_iff in Hs. destruct Hs as [Hc Hs].
  assert (Hat : c <> "@"%char).
  { intros ->. discriminate Hc. }
  simpl. destruct c as [[] [] [] [] [] [] [] []];
    try (now apply IH); exfalso; now apply Hat.
Qed.

Lemma chunk_chars (f : ascii -> bool) (s : string) :
  Py.forallb_string f s = true -> Py.forallb_string f (chunk s) = true.
Proof.
  induction s as [|c s IH]; intros Hs; simpl; [reflexivity|].
  simpl in Hs. apply andb_true_iff in Hs. destruct Hs as [Hc Hs].
  destruct (Py.isspace c); simpl; [reflexivity|].
  now rewrite Hc, IH.
Qed.

Lemma email_chunk_normal (s : string) :
  Py.forallb_string (fun c => is_lower_alnum c || Ascii.eqb c " ") s = true ->
  email_chunk (chunk s) = false.
Proof.
  intros Hs. apply (chunk_chars _ s) in Hs. unfold email_chunk.
  destruct (chunk s) as [|c w]; [reflexivity|].
  simpl in Hs. apply andb_true_iff in Hs. destruct Hs as [_ Hs].
  now apply at_with_follower_normal.
Qed.

Lemma remove_emails_normal (s : string) :
  forall at_start,
    Py.forallb_string (fun c => is_lower_alnum c || Ascii.eqb c " ") s = true ->
    remove_emails_from at_start false s = s.
Proof.
  induction s as [|c s IH]; intros at_start Hs; [reflexivity|].
  assert (Hmail := email_chunk_normal _ Hs).
  simpl in Hs. apply andb_true_iff in Hs. destruct Hs as [_ Hs].
  cbn [remove_emails_from].
  destruct (Py.isspace c); [now rewrite IH|].
  destruct at_start; [rewrite Hmail|]; now rewrite IH.
Qed.

Lemma blank_or_alnum (c : ascii) :
  is_lower_alnum c || Ascii.eqb c " " = true ->
  (c = " "%char /\ Py.isspace c = true)
  \/ (is_lower_alnum c = true /\ Py.isspace c = false
      /\ Ascii.eqb c " " = false).
Proof.
  intros H. destruct (Ascii.eqb c " ") eqn:Hc.
  - apply Ascii.eqb_eq in Hc. subst c. left. split; reflexivity.
  - rewrite orb_false_r in H. right.
    split; [exact H|]. split; [now apply alnum_not_space | reflexivity].
Qed.

Lemma lower_normal (s : string) :
  Py.forallb_string (fun c => is_lower_alnum c || Ascii.eqb c " ") s = true ->
  Py.lower s = s.
Proof.
  induction s as [|c s IH]; intros Hs; [reflexivity|].
  simpl in Hs. apply andb_true_iff in Hs. destruct Hs as [Hc Hs].
  simpl. rewrite (IH Hs). f_equal.
  destruct (blank_or_alnum c Hc) as [[-> _]|[Ha _]];
    [reflexivity | now apply alnum_lower].
Qed.

Lemma remove_punctuation_normal (s : string) :
  Py.forallb_string (fun c => is_lower_alnum c || Ascii.eqb c " ") s = true ->
  remove_punctuation s = s.
Proof.
  induction s as [|c s IH]; intros Hs; [reflexivity|].
  simpl in Hs. apply andb_true_iff in Hs. destruct Hs as [Hc Hs].
  simpl. rewrite (IH Hs). f_equal.
  destruct (blank_or_alnum c Hc) as [[-> _]|[Ha _]];
    [reflexivity | now rewrite Ha].
Qed.

Lemma squeeze_from_normal (s : string) :
  (single_blanks true s = true -> squeeze_from true false s = s)
  /\ (single_blanks false s = true ->
      squeeze_from true true s = String " " s
      /\ squeeze_from false false s = s).
Proof.
  induction s as [|c s [IH1 IH2]]; simpl.
  - split; [reflexivity | discriminate].
  - destruct (Ascii.eqb_spec c " ") as [->|Hne]; simpl.
    + split; [|discriminate]. intros H. now apply IH2.
    + assert (Hsp : is_lower_alnum c = true -> Py.isspace c = false)
        by apply alnum_not_space.
      split.
      * intros H. apply andb_true_iff in H. destruct H as [Ha H].
        rewrite (Hsp Ha). now rewrite IH1.
      * intros H. apply andb_true_iff in H. destruct H as [Ha H].
        rewrite (Hsp Ha). now rewrite IH1.
Qed.

(** X2. Cleaning is idempotent: a text that has been cleaned is left as it
    is by a second cleaning (there is no capital, URL, address, punctuation
    or spare white space left for any of the five steps to act on). *)
Theorem clean_idempotent (text : string) : clean (clean text) = clean text.
Proof.
  assert (Hn : normal_text (clean text) = true)
    by (unfold clean; apply squeeze_remove_punctuation_normal).
  set (u := clean text) in *. clearbody u.
  unfold normal_text in Hn. destruct u as [|c u]; [reflexivity|].
  set (v := String c u) in *.
  assert (Hchars := single_blanks_chars v false Hn).
  unfold clean, remove_urls, remove_emails, squeeze.
  rewrite (lower_normal v Hchars), (remove_urls_normal v Hchars),
    (remove_emails_normal v true Hchars), (remove_punctuation_normal v Hchars).
  now apply (proj2 (squeeze_from_normal v)).
Qed.

End CleanFacts.

(* ------------------------------------------------------------------ *)
(** * What a rebuild writes *)
(* ------------------------------------------------------------------ *)

Section RebuildFacts.
Import Models Preprocessor Indexer Search Spec Invariants.
Context {nltk : Nltk}.
Local Open Scope Z_scope.

Lemma dict_set_keys {V : Type} (d : list (Z * V)) (k k' : Z) (v : V) :
  In k' (map fst (Py.dict_set d k v)) <-> k' = k \/ In k' (map fst d).
Proof.
  induction d as [|[k0 v0] d IH]; simpl.
  - intuition.
  - destruct (Z.eqb k k0) eqn:Hk; simpl.
    + apply Z.eqb_eq in Hk. subst k0. intuition.
    + rewrite IH. intuition.
Qed.

Lemma dict_set_NoDup {V : Type} (d : list (Z * V)) (k : Z) (v : V) :
  NoDup (map fst d) -> NoDup (map fst (Py.dict_set d k v)).
Proof.
  induction d as [|[k0 v0] d IH]; simpl; intros Hnd.
  - constructor; [intros [] | constructor].
  - inversion Hnd as [|? ? Hnotin Hnd']; subst.
    destruct (Z.eqb k k0) eqn:Hk; simpl.
    + now constructor.
    + constructor; [| now apply IH].
      intros Hin. apply dict_set_keys in Hin.
      destruct Hin as [->|Hin]; [| now apply Hnotin].
      now rewrite Z.eqb_refl in Hk.
Qed.

Lemma dict_set_new {V : Type} (d : list (Z * V)) (k : Z) (v : V) :
  ~ In k (map fst d) -> Py.dict_set d k v = d ++ [(k, v)].
Proof.
  induction d as [|[k0 v0] d IH]; simpl; intros Hnotin; [reflexivity|].
  destruct (Z.eqb k k0) eqn:Hk.
  - apply Z.eqb_eq in Hk. subst k0. exfalso. apply Hnotin. now left.
  - rewrite IH; [reflexivity|]. intros Hin. apply Hnotin. now right.
Qed.

Lemma first_pass_doc_terms_NoDup (pubs : list Publication) (st : Pass) :
  NoDup (map fst (doc_terms st)) ->
  NoDup (map fst (doc_terms (first_pass pubs st))).
Proof.
  unfold first_pass. revert st.
  induction pubs as [|p pubs IH]; intros st Hnd; simpl; [exact Hnd|].
  apply IH. rewrite index_publication_fields. simpl.
  now apply dict_set_NoDup.
Qed.

(** With distinct keys the first pass files one map for each publication,
    in the order of the store. *)
Lemma first_pass_doc_terms_distinct (pubs : list Publication) (st : Pass) :
  NoDup (map fst (doc_terms st) ++ map pub_id pubs) ->
  doc_terms (first_pass pubs st) =
  doc_terms st
  ++ map (fun p => (pub_id p, count_terms (tokens_of p))) pubs.
Proof.
  unfold first_pass. revert st.
  induction pubs as [|p pubs IH]; intros st Hnd; simpl.
  - now rewrite app_nil_r.
  - rewrite IH; rewrite index_publication_fields; simpl.
    + rewrite dict_set_new.
      * now rewrite <- app_assoc.
      * apply NoDup_remove_2 in Hnd. intros Hin. apply Hnd.
        apply in_or_app. now left.
    + rewrite dict_set_new.
      * rewrite map_app, <- app_assoc. exact Hnd.
      * apply NoDup_remove_2 in Hnd. intros Hin. apply Hnd.
        apply in_or_app. now left.
Qed.

Lemma count_terms_NoDup (tokens : list string) :
  NoDup (Py.keys (count_terms tokens)).
Proof. unfold count_terms. apply fold_incr_NoDup. constructor. Qed.

Lemma count_terms_In (tokens : list string) (t : string) :
  In t tokens -> In (t, occurrences t tokens) (count_terms tokens).
Proof.
  intros Hin.
  assert (Hkey : In t (Py.keys (count_terms tokens))).
  { unfold count_terms. apply fold_incr_keys. now left. }
  unfold Py.keys in Hkey. apply in_map_iff in Hkey.
  destruct Hkey as ([t' f] & Heq & Hrow). simpl in Heq. subst t'.
  destruct (count_terms_row tokens t f Hrow) as [_ ->]. exact Hrow.
Qed.

Lemma entries_of_document_keys
    (n : Z) (tdf : Py.counter) (k : Z) (tf : Py.counter) :
  map (fun e => (term e, publication_id e)) (entries_of_document n tdf k tf)
  = map (fun t => (t, k)) (Py.keys tf).
Proof.
  unfold entries_of_document, Py.keys. rewrite !map_map.
  apply map_ext. now intros [t f].
Qed.

Lemma entries_to_create_unique
    (n : Z) (tdf : Py.counter) (dts : list (Z * Py.counter)) :
  NoDup (map fst dts) ->
  (forall k tf, In (k, tf) dts -> NoDup (Py.keys tf)) ->
  unique_postings (entries_to_create n tdf dts).
Proof.
  unfold unique_postings, entries_to_create.
  induction dts as [|[k tf] dts IH]; simpl; intros Hnd Hkeys.
  - constructor.
  - inversion Hnd as [|? ? Hnotin Hnd']; subst.
    rewrite map_app. apply NoDup_app.
    + rewrite entries_of_document_keys.
      assert (Htf : NoDup (Py.keys tf)) by (apply (Hkeys k); now left).
      clear - Htf. induction Htf as [|t l Hnot Hl IH]; simpl; constructor.
      * intros Hin. apply in_map_iff in Hin.
        destruct Hin as (t' & Heq & Hin). inversion Heq; subst. auto.
      * exact IH.
    + apply IH; [exact Hnd'|]. intros k' tf' Hin. apply (Hkeys k').
      now right.
    + intros [t k'] Hin1 Hin2.
      rewrite entries_of_document_keys in Hin1.
      apply in_map_iff in Hin1. destruct Hin1 as (t' & Heq & _).
      inversion Heq; subst. clear Heq.
      apply in_map_iff in Hin2. destruct Hin2 as (e & Heq & Hin2).
      apply in_flat_map in Hin2. destruct Hin2 as ([k2 tf2] & Hdt & He).
      unfold entries_of_document in He. apply in_map_iff in He.
      destruct He as ([t2 f2] & <- & _). simpl in Heq.
      inversion Heq; subst. apply Hnotin.
      now apply (in_map fst) in Hdt.
Qed.

(** X3. After a rebuild of a store that has a publication, the index holds
    at most one row for a term and a publication: the constraint
    [unique_together = ['term', 'publication']] cannot fail in
    [bulk_create]. *)
Theorem build_index_unique_postings (self : IndexBuilder) (db : Database) :
  publications db <> [] ->
  unique_postings (index_entries (snd (build_index self db))).
Proof.
  intros Hne. rewrite (build_index_nonempty self db Hne). simpl.
  apply entries_to_create_unique.
  - apply first_pass_doc_terms_NoDup. constructor.
  - intros k tf Hin. apply first_pass_doc_terms in Hin. simpl in Hin.
    destruct Hin as [[]|(pub & _ & _ & ->)]. apply count_terms_NoDup.
Qed.

Lemma build_index_doc_terms (self : IndexBuilder) (db : Database) :
  distinct_keys (publications db) ->
  doc_terms (first_pass (publications db)
               {| doc_terms := [];
                  pass_term_doc_freq := term_doc_freq self;
                  pass_rows := publications db |}) =
  map (fun p => (pub_id p, count_terms (tokens_of p))) (publications db).
Proof.
  intros Hkeys. rewrite first_pass_doc_terms_distinct; [reflexivity|].
  exact Hkeys.
Qed.

(** A token of a publication has its row after the rebuild. *)
Lemma build_index_has_row (self : IndexBuilder) (db : Database)
    (pub : Publication) (t : string) :
  publications db <> [] ->
  distinct_keys (publications db) ->
  In pub (publications db) -> In t (tokens_of pub) ->
  exists e, In e (index_entries (snd (build_index self db)))
            /\ term e = t /\ publication_id e = pub_id pub
            /\ term_frequency e = occurrences t (tokens_of pub).
Proof.
  intros Hne Hkeys Hpub Ht.
  rewrite (build_index_nonempty self db Hne). simpl.
  rewrite (build_index_doc_terms self db Hkeys).
  eexists. split.
  - unfold entries_to_create. apply in_flat_map.
    exists (pub_id pub, count_terms (tokens_of pub)). split.
    + apply in_map_iff. exists pub. auto.
    + unfold entries_of_document. apply in_map_iff.
      exists (t, occurrences t (tokens_of pub)). split; [reflexivity|].
      now apply count_terms_In.
  - simpl. auto.
Qed.

(** X4. After a rebuild of a store whose publications have distinct keys,
    the rows of the index are exactly these: for each publication and each
    distinct token of its title and abstract, one row, with the
    occurrences of the token in the publication as term frequency. *)
Theorem build_index_postings (self : IndexBuilder) (db : Database)
    (t : string) (k f : Z) :
  publications db <> [] ->
  distinct_keys (publications db) ->
  (exists e, In e (index_entries (snd (build_index self db)))
             /\ term e = t /\ publication_id e = k /\ term_frequency e = f)
  <-> (exists pub, In pub (publications db) /\ pub_id pub = k
                   /\ In t (tokens_of pub)
                   /\ f = occurrences t (tokens_of pub)).
Proof.
  intros Hne Hkeys. split.
  - intros (e & Hin & <- & <- & <-).
    destruct (build_index_row self db e Hne Hin)
      as (pub & Hpub & Hk & Ht & Hf).
    exists pub. auto.
  - intros (pub & Hpub & <- & Ht & ->).
    destruct (build_index_has_row self db pub t Hne Hkeys Hpub Ht)
      as (e & He & H1 & H2 & H3).
    exists e. auto.
Qed.

(** X5. After a rebuild with a new builder, the score of a row is its term
    frequency times [ln (N / c)], where [N] is the number of publications
    and [c] the number of occurrences of the term in the whole corpus. *)
Theorem build_index_scores (db : Database) (e : InvertedIndexEntry) :
  publications db <> [] ->
  In e (index_entries (snd (build_index new_builder db))) ->
  (0 < corpus_occurrences (publications db) (term e))%Z
  /\ tfidf_score e =
     (IZR (term_frequency e)
      * ln (IZR (Py.len (publications db))
            / IZR (corpus_occurrences (publications db) (term e))))%R.
Proof.
  intros Hne Hin.
  destruct (build_index_row new_builder db e Hne Hin)
    as (pub & Hpub & _ & Ht & _).
  assert (Hpos : 0 < corpus_occurrences (publications db) (term e)).
  { clear - Hpub Ht. induction (publications db) as [|q l IH];
      [contradiction|]. simpl.
    assert (H0 : forall p, 0 <= occurrences (term e) (tokens_of p))
      by (intros p; unfold occurrences; lia).
    assert (Hl : 0 <= corpus_occurrences l (term e)).
    { clear - H0. induction l as [|p l IH]; simpl; [lia|].
      specialize (H0 p). lia. }
    destruct Hpub as [->|Hpub].
    - apply occurrences_pos in Ht. lia.
    - specialize (IH Hpub). specialize (H0 q). lia. }
  split; [exact Hpos|].
  rewrite (build_index_nonempty new_builder db Hne) in Hin. simpl in Hin.
  apply entries_to_create_In in Hin.
  destruct Hin as (k & tf & t & freq & _ & _ & ->). simpl.
  rewrite first_pass_term_doc_freq. simpl.
  unfold tfidf, idf. simpl in Hpos.
  apply Z.ltb_lt in Hpos. now rewrite Hpos.
Qed.

Lemma saved_content_absent (l : list Publication) (k : Z) (text : string) :
  ~ In k (map pub_id l) -> saved_content l k text = text.
Proof.
  unfold saved_content. revert text.
  induction l as [|q l IH]; intros text Hnotin; simpl; [reflexivity|].
  destruct (Z.eqb k (pub_id q)) eqn:Hk.
  - apply Z.eqb_eq in Hk. exfalso. apply Hnotin. now left.
  - apply IH. intros Hin. apply Hnotin. now right.
Qed.

Lemma saved_content_unique (l : list Publication) (p : Publication)
    (text : string) :
  NoDup (map pub_id l) -> In p l ->
  saved_content l (pub_id p) text = Py.join " " (tokens_of p).
Proof.
  revert text. induction l as [|q l IH]; intros text Hnd Hin;
    [contradiction|].
  simpl in Hnd. inversion Hnd as [|? ? Hnotin Hnd']; subst.
  change (saved_content (q :: l) (pub_id p) text) with
    (saved_content l (pub_id p)
       (if Z.eqb (pub_id p) (pub_id q) then Py.join " " (tokens_of q)
        else text)).
  destruct Hin as [->|Hin].
  - rewrite Z.eqb_refl. now apply saved_content_absent.
  - now apply IH.
Qed.

Lemma same_text_keys (l l' : list Publication) :
  Forall2 same_text l l' -> map pub_id l = map pub_id l'.
Proof.
  induction 1 as [|p q l l' (Hk & _) _ IH]; simpl; [reflexivity|].
  now rewrite Hk, IH.
Qed.

Lemma build_index_keys (self : IndexBuilder) (db : Database) :
  map pub_id (publications (snd (build_index self db))) =
  map pub_id (publications db).
Proof.
  assert (Hcases : publications db = [] \/ publications db <> []).
  { destruct (publications db); [now left | right; discriminate]. }
  destruct Hcases as [Hp|Hne].
  - unfold build_index. rewrite Hp. simpl. rewrite Hp. reflexivity.
  - rewrite (build_index_nonempty self db Hne). simpl.
    rewrite first_pass_rows. simpl.
    apply same_text_keys, rows_same_text.
Qed.

(** X6. A rebuild of a store whose publications have distinct keys leaves
    the rows of the store in their order, with their key, title and
    abstract, and writes into [searchable_content] of each the tokens of
    its title and abstract joined by blanks. *)
Theorem build_index_store (self : IndexBuilder) (db : Database) :
  publications db <> [] ->
  distinct_keys (publications db) ->
  publications (snd (build_index self db)) =
  map (fun p => with_content p (Py.join " " (tokens_of p)))
      (publications db).
Proof.
  intros Hne Hkeys. rewrite (build_index_nonempty self db Hne). simpl.
  rewrite first_pass_rows. simpl. apply map_ext_in. intros p Hp.
  now rewrite saved_content_unique.
Qed.

(** X7. After a rebuild of a store that has a publication, every row of the
    index belongs to a publication of the store, whatever the index held
    before. *)
Theorem build_index_referential_integrity
    (self : IndexBuilder) (db : Database) :
  publications db <> [] ->
  referential_integrity (snd (build_index self db)).
Proof.
  intros Hne e Hin.
  destruct (build_index_row self db e Hne Hin) as (pub & Hpub & Hk & _).
  apply has_publication_In. rewrite build_index_keys, <- Hk.
  now apply in_map.
Qed.

Lemma first_pass_tdf_keys (pubs : list Publication) (st : Pass) (t : string) :
  In t (Py.keys (pass_term_doc_freq (first_pass pubs st))) <->
  In t (Py.keys (pass_term_doc_freq st))
  \/ exists pub, In pub pubs /\ In t (tokens_of pub).
Proof.
  unfold first_pass. revert st.
  induction pubs as [|p pubs IH]; intros st; simpl.
  - split; [auto | intros [H|(pub & [] & _)]; exact H].
  - rewrite IH, index_publication_fields. simpl. rewrite fold_incr_keys.
    split.
    + intros [[H|H]|(pub & Hpub & Ht)]; eauto 6.
    + intros [H|(pub & [<-|Hpub] & Ht)]; eauto 6.
Qed.

Lemma first_pass_tdf_NoDup (pubs : list Publication) (st : Pass) :
  NoDup (Py.keys (pass_term_doc_freq st)) ->
  NoDup (Py.keys (pass_term_doc_freq (first_pass pubs st))).
Proof.
  unfold first_pass. revert st.
  induction pubs as [|p pubs IH]; intros st Hnd; simpl; [exact Hnd|].
  apply IH. rewrite index_publication_fields. simpl.
  now apply fold_incr_NoDup.
Qed.

(** X8. The figures a rebuild with a new builder returns for a store with
    distinct keys are the figures [index_stats] then reports: the
    publications of the store, the rows of the index and its distinct
    terms. *)
Theorem build_index_result_is_index_stats (db : Database) :
  publications db <> [] ->
  distinct_keys (publications db) ->
  fst (fst (build_index new_builder db)) =
  success (Views.total_documents (snd (build_index new_builder db)))
          (Views.total_terms (snd (build_index new_builder db)))
          (Views.unique_terms (snd (build_index new_builder db))).
Proof.
  intros Hne Hkeys.
  assert (Hterms : forall t,
            In t (map term (index_entries (snd (build_index new_builder db))))
            <-> exists pub, In pub (publications db) /\ In t (tokens_of pub)).
  { intros t. rewrite in_map_iff. split.
    - intros (e & <- & Hin).
      destruct (build_index_row new_builder db e Hne Hin)
        as (pub & Hpub & _ & Ht & _). eauto.
    - intros (pub & Hpub & Ht).
      destruct (build_index_has_row new_builder db pub t Hne Hkeys Hpub Ht)
        as (e & He & Hterm & _). eauto. }
  assert (Hdocs : Views.total_documents (snd (build_index new_builder db)) =
                  Py.len (publications db)).
  { unfold Views.total_documents, Py.len.
    rewrite <- (length_map pub_id), build_index_keys, length_map.
    reflexivity. }
  rewrite Hdocs. unfold Views.unique_terms, Views.total_terms.
  revert Hterms. rewrite (build_index_nonempty new_builder db Hne). simpl.
  intros Hterms. f_equal.
  set (st := first_pass (publications db) _) in *.
  unfold Py.len at 1. rewrite <- (length_map fst).
  change (map fst (pass_term_doc_freq st))
    with (Py.keys (pass_term_doc_freq st)).
  unfold Py.len. f_equal. apply Permutation_length.
  apply NoDup_Permutation.
  - subst st. apply first_pass_tdf_NoDup. constructor.
  - apply NoDup_nodup.
  - intros t. rewrite nodup_In, Hterms. subst st.
    rewrite first_pass_tdf_keys. simpl. tauto.
Qed.

End RebuildFacts.

(* ------------------------------------------------------------------ *)
(** * What an update keeps and what it makes searchable *)
(* ------------------------------------------------------------------ *)

Section UpdateFacts.
Import Models Preprocessor Indexer Search Spec Invariants.
Context {nltk : Nltk}.
Local Open Scope Z_scope.

(** Deleting rows of a table leaves the keys of the rows distinct. *)
Lemma filter_keeps_distinct {Row Key : Type}
    (keep : Row -> bool) (key : Row -> Key) (rows : list Row)
    (Hnd : NoDup (map key rows)) :
  NoDup (map key (filter keep rows)).
Proof.
  induction rows as [|row rows IH]; simpl in *; [constructor|].
  inversion Hnd as [|? ? Hnotin Hnd']; subst.
  destruct (keep row); simpl; [|auto].
  constructor; [|auto].
  intros Hin. apply Hnotin. apply in_map_iff in Hin.
  destruct Hin as (y & Hy & Hin). apply filter_In in Hin.
  apply in_map_iff. exists y. tauto.
Qed.

Lemma save_searchable_content_keys
    (rows : list Publication) (k : Z) (text : string) :
  map pub_id (save_searchable_content rows k text) = map pub_id rows.
Proof.
  unfold save_searchable_content. rewrite map_map. apply map_ext.
  intros p. now destruct (Z.eqb (pub_id p) k).
Qed.

Lemma update_index_has_publication
    (self : IndexBuilder) (db : Database) (pub : Publication) (k : Z) :
  has_publication (snd (update_index self db pub)) k = has_publication db k.
Proof.
  unfold update_index.
  destruct (has_publication db (pub_id pub)); [|reflexivity].
  simpl. apply eq_true_iff_eq. rewrite !has_publication_In. simpl.
  now rewrite save_searchable_content_keys.
Qed.

(** X9. An update keeps the two constraints of the index table: if no
    term has two rows for one publication before, none has after; if every
    row belongs to a publication of the store before, every row does
    after.  Both hold as well when the update raises. *)
Theorem update_index_keeps_constraints
    (self : IndexBuilder) (db : Database) (pub : Publication) :
  unique_postings (index_entries db) ->
  referential_integrity db ->
  unique_postings (index_entries (snd (update_index self db pub)))
  /\ referential_integrity (snd (update_index self db pub)).
Proof.
  intros Huniq Hfk. split.
  - unfold update_index, unique_postings in *.
    set (kept := filter _ (index_entries db)).
    assert (Hkept : NoDup (map (fun e => (term e, publication_id e)) kept))
      by now apply filter_keeps_distinct.
    destruct (has_publication db (pub_id pub)); simpl; [|exact Hkept].
    rewrite map_app. apply NoDup_app; [exact Hkept| |].
    + rewrite map_map.
      rewrite (map_ext _ (fun x => (fst x, pub_id pub)))
        by (now intros [t f]).
      rewrite <- (map_map fst (fun t => (t, pub_id pub))).
      assert (Hct := count_terms_NoDup (preprocess_text (content pub))).
      unfold Py.keys in Hct.
      induction Hct as [|t l Hnot Hl IH]; simpl; constructor; [|exact IH].
      intros Hin. apply in_map_iff in Hin.
      destruct Hin as (t' & Heq & Hin). inversion Heq; subst. auto.
    + intros [t k] Hin1 Hin2.
      apply in_map_iff in Hin1. destruct Hin1 as (e1 & Heq1 & Hin1).
      apply filter_In in Hin1. destruct Hin1 as [_ Hne].
      apply negb_true_iff, Z.eqb_neq in Hne.
      apply in_map_iff in Hin2. destruct Hin2 as (e2 & Heq2 & Hin2).
      apply in_map_iff in Hin2. destruct Hin2 as ([t2 f2] & <- & _).
      simpl in Heq2. inversion Heq1; inversion Heq2; subst. congruence.
  - intros e Hin. rewrite update_index_has_publication.
    unfold update_index in Hin.
    destruct (has_publication db (pub_id pub)) eqn:Hrow; simpl in Hin.
    + apply in_app_or in Hin. destruct Hin as [Hin|Hin].
      * apply filter_In in Hin. now apply Hfk.
      * apply in_map_iff in Hin. destruct Hin as ([t f] & <- & _).
        exact Hrow.
    + apply filter_In in Hin. now apply Hfk.
Qed.

End UpdateFacts.

(* ------------------------------------------------------------------ *)
(** * What a search can and cannot find *)
(* ------------------------------------------------------------------ *)

Section Findable.
Import Models Preprocessor Indexer Search Spec Invariants.
Context {nltk : Nltk}.

Lemma aggregate_score_nonpositive
    (entries : list InvertedIndexEntry) (k : Z) :
  (forall e, In e entries -> (tfidf_score e <= 0)%R) ->
  (aggregate_score entries k <= 0)%R.
Proof.
  induction entries as [|e rest IH]; simpl; intros Hall; [lra|].
  assert (He := Hall e (or_introl eq_refl)).
  assert (Hrest : (aggregate_score rest k <= 0)%R).
  { apply IH. intros e' Hin. apply Hall. now right. }
  destruct (Z.eqb (publication_id e) k); lra.
Qed.

(** Nothing is found in an index that has no positive score. *)
Lemma search_no_positive_score (db : Database) (query : string) (top_n : Z) :
  (forall e, In e (index_entries db) -> (tfidf_score e <= 0)%R) ->
  search new_engine db query top_n = [].
Proof.
  intros Hall.
  destruct (search_cases new_engine db query top_n) as [Hs|Hs];
    [exact Hs|].
  rewrite Hs.
  destruct (sorted_docs_facts new_engine db (preprocess_text query) top_n)
    as (_ & Hscore & _).
  destruct (sorted_docs new_engine db (preprocess_text query) top_n)
    as [|[k s] docs]; [reflexivity|].
  destruct (Hscore k s (or_introl eq_refl)) as [Hagg Hthr].
  simpl in Hthr.
  assert (Hle : (aggregate_score
                   (matching_entries db (preprocess_text query)) k <= 0)%R).
  { apply aggregate_score_nonpositive. intros e He.
    apply Hall. unfold matching_entries in He.
    now apply filter_In in He. }
  lra.
Qed.

Lemma tfidf_single_document (tf df : Z) :
  (0 <= tf)%Z -> (tfidf tf 1 df <= 0)%R.
Proof.
  intros Htf. unfold tfidf, idf. apply IZR_le in Htf.
  destruct (0 <? df)%Z eqn:Hdf; [|lra].
  apply Z.ltb_lt in Hdf.
  assert (Hdf1 : (1 <= IZR df)%R) by (apply IZR_le; lia).
  assert (Hln : (ln (1 / IZR df) <= 0)%R).
  { destruct Hdf1 as [Hlt|<-].
    - left. apply ln_negative.
      + apply Rdiv_lt_0_compat; lra.
      + apply (Rmult_lt_reg_r (IZR df)); [lra|].
        unfold Rdiv. rewrite Rmult_assoc, Rinv_l by lra. lra.
    - replace (1 / 1)%R with 1%R by lra. rewrite ln_1. lra. }
  nra.
Qed.

(** X11. In a store with a single publication nothing can be found after a
    rebuild: with one document every inverse document frequency is
    [ln (1 / c) <= 0], so no score reaches the threshold and every query
    returns the empty list. *)
Theorem single_document_never_found
    (self : IndexBuilder) (db : Database) (pub : Publication)
    (query : string) (top_n : Z) :
  publications db = [pub] ->
  search new_engine (snd (build_index self db)) query top_n = [].
Proof.
  intros Hp. apply search_no_positive_score. intros e Hin.
  assert (Hne : publications db <> []) by (rewrite Hp; discriminate).
  rewrite (build_index_nonempty self db Hne) in Hin. simpl in Hin.
  apply entries_to_create_In in Hin.
  destruct Hin as (k & tf & t & freq & Hdt & Htf & ->). simpl.
  apply first_pass_doc_terms in Hdt. simpl in Hdt.
  destruct Hdt as [[]|(p & _ & _ & ->)].
  apply count_terms_row in Htf. destruct Htf as [_ ->].
  rewrite Hp. change (Py.len [pub]) with 1%Z.
  apply tfidf_single_document. unfold occurrences. lia.
Qed.

Lemma counter_filter_key (d : Py.counter) (t : string) (v : Z) :
  NoDup (Py.keys d) -> In (t, v) d ->
  filter (fun kv => String.eqb (fst kv) t) d = [(t, v)].
Proof.
  unfold Py.keys.
  induction d as [|[t0 v0] d IH]; simpl; intros Hnd Hin; [contradiction|].
  inversion Hnd as [|? ? Hnotin Hnd']; subst.
  destruct Hin as [Heq|Hin].
  - inversion Heq; subst. rewrite String.eqb_refl. f_equal.
    rewrite (filter_ext_in _ (fun _ => false)); [apply filter_false|].
    intros [t' v'] Hin'. simpl. apply String.eqb_neq. intros ->.
    apply Hnotin. now apply (in_map fst) in Hin'.
  - destruct (String.eqb t0 t) eqn:Ht.
    + apply String.eqb_eq in Ht. subst t0. exfalso. apply Hnotin.
      now apply (in_map fst) in Hin.
    + now apply IH.
Qed.

Lemma tfidf_only_holder (tf n : Z) :
  (1 <= tf)%Z -> (2 <= n)%Z -> (1 / 2 < tfidf tf n 1)%R.
Proof.
  intros Htf Hn. unfold tfidf, idf. simpl.
  apply IZR_le in Htf, Hn.
  assert (Hln2 := ln_lt_2).
  assert (Hln : (ln 2 <= ln (IZR n / 1))%R).
  { replace (IZR n / 1)%R with (IZR n) by lra.
    destruct Hn as [Hlt|<-]; [|lra].
    left. apply ln_increasing; lra. }
  nra.
Qed.

(** X10. An update makes a document findable by a term of its own. When
    the store has two publications or more, and the updated publication has
    a token that no other publication has a row for, a query that
    normalises to that token returns the updated publication, and it
    alone. *)
Theorem update_index_makes_findable
    (self : IndexBuilder) (db : Database) (pub : Publication)
    (query t : string) (top_n : Z) :
  has_publication db (pub_id pub) = true ->
  (2 <= Py.len (publications db))%Z ->
  In t (tokens_of pub) ->
  (forall e, In e (index_entries db) ->
             publication_id e <> pub_id pub -> term e <> t) ->
  Py.strip_is_empty query = false ->
  preprocess_text query = [t] ->
  (1 <= top_n)%Z ->
  map fst (search new_engine (snd (update_index self db pub)) query top_n)
  = [pub_id pub].
Proof.
  intros Hrow Hn Ht Hother Hblank Hq Htop.
  set (db' := snd (update_index self db pub)).
  set (f := occurrences t (tokens_of pub)).
  set (e0 := {| term := t; publication_id := pub_id pub;
                tfidf_score := tfidf f (Py.len (publications db)) 1;
                term_frequency := f |}).
  assert (Hmatch : matching_entries db' [t] = [e0]).
  { unfold matching_entries.
    rewrite (filter_ext _
               (fun e => String.eqb (term e) t
                         && has_publication db (publication_id e))).
    2:{ intros e. subst db'. rewrite update_index_has_publication.
        simpl. now rewrite orb_false_r. }
    subst db'. unfold update_index. rewrite Hrow. simpl.
    rewrite filter_app.
    rewrite (filter_ext_in _ (fun _ => false)
               (filter _ (index_entries db))).
    2:{ intros e He. apply filter_In in He. destruct He as [He Hne].
        apply negb_true_iff, Z.eqb_neq in Hne.
        apply andb_false_iff. left. apply String.eqb_neq.
        now apply Hother. }
    rewrite filter_false. simpl.
    set (kept := filter _ (index_entries db)).
    assert (Hholding : publications_holding kept t = 0%Z).
    { unfold publications_holding.
      rewrite (filter_ext_in _ (fun _ => false)); [now rewrite filter_false|].
      intros e He. subst kept. apply filter_In in He.
      destruct He as [He Hne]. apply negb_true_iff, Z.eqb_neq in Hne.
      apply String.eqb_neq. now apply Hother. }
    set (mk := fun '(t0, freq) =>
                 {| term := t0; publication_id := pub_id pub;
                    tfidf_score :=
                      tfidf freq (Py.len (publications db))
                            (publications_holding kept t0 + 1);
                    term_frequency := freq |}).
    assert (Hrowt : In (t, f) (count_terms (preprocess_text (content pub))))
      by now apply count_terms_In.
    assert (Hnd := count_terms_NoDup (preprocess_text (content pub))).
    assert (Hone := counter_filter_key _ t f Hnd Hrowt).
    revert Hone.
    generalize (count_terms (preprocess_text (content pub))).
    intros ct Hone.
    assert (Hswap : filter (fun e => String.eqb (term e) t
                                     && has_publication db (publication_id e))
                           (map mk ct) =
                    map mk (filter (fun kv => String.eqb (fst kv) t) ct)).
    { clear Hone. induction ct as [|[t0 f0] ct IH]; simpl; [reflexivity|].
      rewrite Hrow, andb_true_r.
      destruct (String.eqb t0 t); simpl; now rewrite IH. }
    rewrite Hswap, Hone. simpl. rewrite Hholding. reflexivity. }
  assert (Hscore : (1 / 100 <= 0 + tfidf f (Py.len (publications db)) 1)%R).
  { assert (Hf : (1 <= f)%Z).
    { subst f. apply occurrences_pos in Ht. lia. }
    pose proof (tfidf_only_holder f _ Hf Hn). lra. }
  unfold search. destruct query as [|c q]; [discriminate Hblank|].
  rewrite Hblank, Hq, Hmatch.
  unfold sorted_docs. rewrite Hmatch.
  unfold doc_scores, filtered_docs. simpl.
  rewrite (proj2 (Rleb_true_iff _ _) Hscore). simpl.
  unfold Py.slice_to.
  assert (Hmin : (1 <= Z.min top_n 500)%Z) by lia.
  destruct (0 <=? Z.min top_n 500)%Z eqn:Hle;
    [|apply Z.leb_gt in Hle; lia].
  destruct (Z.to_nat (Z.min top_n 500)) as [|m] eqn:Hm; [lia|].
  simpl. rewrite firstn_nil. reflexivity.
Qed.

End Findable.

(* ------------------------------------------------------------------ *)
(** * The result list of a search *)
(* ------------------------------------------------------------------ *)

Section ResultList.
Import Models Preprocessor Indexer Search Spec Invariants.
Context {nltk : Nltk}.

Lemma existsb_members {A : Type} (f : A -> bool) (l1 l2 : list A) :
  (forall x, In x l1 <-> In x l2) -> existsb f l1 = existsb f l2.
Proof.
  intros Hmem. apply eq_true_iff_eq. rewrite !existsb_exists.
  split; intros (x & Hin & Hf); exists x; split; auto; now apply Hmem.
Qed.

Lemma matching_entries_members (db : Database) (l1 l2 : list string) :
  (forall t, In t l1 <-> In t l2) ->
  matching_entries db l1 = matching_entries db l2.
Proof.
  intros Hmem. unfold matching_entries. apply filter_ext. intros e.
  now rewrite (existsb_members _ l1 l2 Hmem).
Qed.

(** X14. The result of a search depends on the set of the tokens of the
    query alone: two queries that are not blank and normalise to the same
    tokens, in whatever order and however often repeated, return the same
    list with the same scores. *)
Theorem search_token_set
    (self : SearchEngine) (db : Database) (query1 query2 : string)
    (top_n : Z) :
  Py.strip_is_empty query1 = false ->
  Py.strip_is_empty query2 = false ->
  (forall t, In t (preprocess_text query1) <-> In t (preprocess_text query2)) ->
  search self db query1 top_n = search self db query2 top_n.
Proof.
  intros Hb1 Hb2 Hmem. unfold search, sorted_docs.
  destruct query1 as [|c1 q1]; [discriminate Hb1|].
  destruct query2 as [|c2 q2]; [discriminate Hb2|].
  rewrite Hb1, Hb2.
  rewrite (matching_entries_members db _ _ Hmem).
  destruct (preprocess_text (String c1 q1)) as [|t1 l1] eqn:H1;
    destruct (preprocess_text (String c2 q2)) as [|t2 l2] eqn:H2;
    try reflexivity.
  - exfalso. apply (proj2 (Hmem t2)). now left.
  - exfalso. apply (proj1 (Hmem t1)). now left.
Qed.

(** X15. A smaller result limit gives a prefix of what a larger one gives:
    for [0 <= n <= m] the result for the limit [n] is the first [n] items
    of the result for the limit [m]. *)
Theorem search_limit_prefix
    (db : Database) (query : string) (n m : Z) :
  (0 <= n <= m)%Z ->
  search new_engine db query n =
  firstn (Z.to_nat n) (search new_engine db query m).
Proof.
  intros Hnm. unfold search.
  destruct query as [|c q]; [now rewrite firstn_nil|].
  destruct (Py.strip_is_empty (String c q)); [now rewrite firstn_nil|].
  destruct (preprocess_text (String c q)) as [|t ts];
    [now rewrite firstn_nil|].
  destruct (matching_entries db (t :: ts)) as [|e es];
    [now rewrite firstn_nil|].
  destruct (filtered_docs new_engine (doc_scores (e :: es))) as [|x xs];
    [now rewrite firstn_nil|].
  unfold results, sorted_docs, Py.slice_to. simpl max_results.
  replace (0 <=? Z.min n 500)%Z with true by (symmetry; apply Z.leb_le; lia).
  replace (0 <=? Z.min m 500)%Z with true by (symmetry; apply Z.leb_le; lia).
  rewrite firstn_map, firstn_firstn. f_equal. f_equal. lia.
Qed.

Lemma accumulate_keys (entries : list InvertedIndexEntry)
    (d : list (Z * R)) (k : Z) :
  In k (map fst (fold_left accumulate entries d)) <->
  In k (map fst d) \/ exists e, In e entries /\ publication_id e = k.
Proof.
  revert d. induction entries as [|e rest IH]; intros d; simpl.
  - split; [auto | intros [H|(e & [] & _)]; exact H].
  - rewrite IH. unfold accumulate. rewrite score_add_keys. split.
    + intros [[->|H]|(e' & He' & Hk)]; eauto.
    + intros [H|(e' & [<-|He'] & Hk)]; eauto.
Qed.

Lemma sorted_docs_source (self : SearchEngine) (db : Database)
    (query_tokens : list string) (top_n : Z) (k : Z) (s : R) :
  In (k, s) (sorted_docs self db query_tokens top_n) ->
  In (k, s) (doc_scores (matching_entries db query_tokens)).
Proof.
  unfold sorted_docs. intros Hin.
  destruct (slice_to_prefix
              (sorted_desc (filtered_docs self
                 (doc_scores (matching_entries db query_tokens))))
              (Z.min top_n (max_results self))) as (n & Heq & _).
  rewrite Heq in Hin. apply firstn_incl in Hin.
  apply (Permutation_in _ (sorted_desc_perm _)) in Hin.
  unfold filtered_docs in Hin. now apply filter_In in Hin.
Qed.

(** X16. Every publication a search returns is a row of the store and has
    a row in the index for a token of the query. *)
Theorem search_results_in_index
    (self : SearchEngine) (db : Database) (query : string) (top_n : Z)
    (k : Z) (score : R) :
  In (k, score) (search self db query top_n) ->
  has_publication db k = true
  /\ exists e, In e (index_entries db) /\ publication_id e = k
               /\ In (term e) (preprocess_text query).
Proof.
  intros Hin.
  destruct (search_cases self db query top_n) as [Hs|Hs];
    rewrite Hs in Hin; [contradiction|].
  unfold results in Hin. apply in_map_iff in Hin.
  destruct Hin as ([k' s] & Heq & Hin). inversion Heq; subst. clear Heq.
  apply sorted_docs_source in Hin.
  apply (in_map fst) in Hin. simpl in Hin.
  unfold doc_scores in Hin. apply accumulate_keys in Hin.
  destruct Hin as [[]|(e & He & Hk)].
  unfold matching_entries in He. apply filter_In in He.
  destruct He as [He Htest]. apply andb_true_iff in Htest.
  destruct Htest as [Hterm Hpub]. split; [now rewrite <- Hk|].
  exists e. split; [exact He|]. split; [exact Hk|].
  apply existsb_exists in Hterm. destruct Hterm as (t & Ht & Heq).
  apply String.eqb_eq in Heq. now rewrite Heq.
Qed.

Lemma round_half_even_error (y : R) :
  (- (1 / 2) <= IZR (round_half_even y) - y <= 1 / 2)%R.
Proof.
  unfold round_half_even.
  assert (Hfp := base_fp y). destruct Hfp as [Hge Hlt].
  assert (Hy : (y = IZR (Int_part y) + frac_part y)%R)
    by (unfold frac_part; lra).
  set (f := Int_part y) in *. set (d := frac_part y) in *.
  destruct (Rlt_dec d (1 / 2)); [lra|].
  destruct (Rlt_dec (1 / 2) d); [rewrite plus_IZR; lra|].
  destruct (Z.even f); [lra | rewrite plus_IZR; lra].
Qed.

Lemma round_half_even_monotone (y1 y2 : R) :
  (y1 <= y2)%R -> (round_half_even y1 <= round_half_even y2)%Z.
Proof.
  intros [Hlt | ->]; [|lia].
  assert (H1 := round_half_even_error y1).
  assert (H2 := round_half_even_error y2).
  destruct (Z_le_gt_dec (round_half_even y1) (round_half_even y2))
    as [Hle|Hgt]; [exact Hle|].
  assert (Hz : (round_half_even y2 + 1 <= round_half_even y1)%Z) by lia.
  apply IZR_le in Hz. rewrite plus_IZR in Hz. lra.
Qed.

Lemma round4_monotone (s1 s2 : R) :
  (s1 <= s2)%R -> (round4 s1 <= round4 s2)%R.
Proof.
  intros Hle. unfold round4.
  assert (H : (round_half_even (s1 * 10000)
               <= round_half_even (s2 * 10000))%Z)
    by (apply round_half_even_monotone; lra).
  apply IZR_le in H. lra.
Qed.

Lemma round4_error (s : R) : (Rabs (round4 s - s) <= 1 / 20000)%R.
Proof.
  unfold round4.
  assert (H := round_half_even_error (s * 10000)).
  apply Rabs_le. lra.
Qed.

Lemma round4_threshold : round4 (1 / 100) = (1 / 100)%R.
Proof.
  unfold round4.
  assert (H := round_half_even_error (1 / 100 * 10000)).
  assert (Hz : round_half_even (1 / 100 * 10000) = 100%Z).
  { assert (Hlo : (99 < round_half_even (1 / 100 * 10000))%Z)
      by (apply lt_IZR; lra).
    assert (Hhi : (round_half_even (1 / 100 * 10000) < 101)%Z)
      by (apply lt_IZR; lra).
    lia. }
  rewrite Hz. lra.
Qed.

(** X17. The relevance scores a search returns are the aggregate scores
    rounded to four decimals: each is within 0.00005 of the sum of the
    scores of the matching rows of its publication, each is at least 0.01,
    and they fall along the list. *)
Theorem search_relevance_scores
    (db : Database) (query : string) (top_n : Z) :
  descending (search new_engine db query top_n)
  /\ forall k r, In (k, r) (search new_engine db query top_n) ->
       (1 / 100 <= r)%R
       /\ (Rabs (r - aggregate_score
                      (matching_entries db (preprocess_text query)) k)
           <= 1 / 20000)%R.
Proof.
  destruct (search_cases new_engine db query top_n) as [Hs|Hs]; rewrite Hs.
  - split; [constructor | intros k r []].
  - destruct (sorted_docs_facts new_engine db (preprocess_text query) top_n)
      as (_ & Hscore & Hdesc & _).
    simpl in Hscore.
    set (docs := sorted_docs new_engine db (preprocess_text query) top_n) in *.
    split.
    + clearbody docs. clear Hscore Hs. unfold descending in *.
      induction Hdesc as [|[k s] l Hl IH Hall]; simpl; constructor.
      * exact IH.
      * rewrite Forall_forall in *. intros [k' r'] Hin.
        unfold results in Hin. apply in_map_iff in Hin.
        destruct Hin as ([k2 s2] & Heq & Hin). inversion Heq; subst.
        simpl. apply round4_monotone. now apply (Hall (k', s2)).
    + intros k r Hin. unfold results in Hin. apply in_map_iff in Hin.
      destruct Hin as ([k' s] & Heq & Hin). inversion Heq; subst.
      destruct (Hscore k s Hin) as [Hagg Hthr]. split.
      * rewrite <- round4_threshold. now apply round4_monotone.
      * rewrite <- Hagg. apply round4_error.
Qed.

End ResultList.

(* ------------------------------------------------------------------ *)
(** * The details of a search *)
(* ------------------------------------------------------------------ *)

Section DetailsFacts.
Import Models Preprocessor Search Details.
Context {nltk : Nltk}.

Lemma existsb_eqb_In (x : string) (l : list string) :
  existsb (String.eqb x) l = true <-> In x l.
Proof.
  rewrite existsb_exists. split.
  - intros (y & Hin & Heq). apply String.eqb_eq in Heq. now subst.
  - intros Hin. exists x. split; [exact Hin | apply String.eqb_refl].
Qed.

Lemma set_add_In (s : list string) (x y : string) :
  In y (PyMore.set_add s x) <-> y = x \/ In y s.
Proof.
  unfold PyMore.set_add.
  destruct (existsb (String.eqb x) s) eqn:Hx.
  - apply existsb_eqb_In in Hx. split; [auto | intros [->|H]; auto].
  - rewrite in_app_iff. simpl. intuition.
Qed.

Lemma set_add_NoDup (s : list string) (x : string) :
  NoDup s -> NoDup (PyMore.set_add s x).
Proof.
  intros Hnd. unfold PyMore.set_add.
  destruct (existsb (String.eqb x) s) eqn:Hx; [exact Hnd|].
  apply NoDup_app; [exact Hnd | repeat constructor; intros [] |].
  intros a Ha [<-|[]].
  apply existsb_eqb_In in Ha. congruence.
Qed.

Lemma set_update_In (xs s : list string) (y : string) :
  In y (PyMore.set_update s xs) <-> In y s \/ In y xs.
Proof.
  unfold PyMore.set_update. revert s.
  induction xs as [|x xs IH]; intros s; simpl.
  - intuition.
  - rewrite IH, set_add_In. intuition.
Qed.

Lemma set_update_NoDup (xs s : list string) :
  NoDup s -> NoDup (PyMore.set_update s xs).
Proof.
  unfold PyMore.set_update. revert s.
  induction xs as [|x xs IH]; intros s Hnd; simpl; [exact Hnd|].
  apply IH. now apply set_add_NoDup.
Qed.

Lemma set_minus_In (a b : list string) (y : string) :
  In y (PyMore.set_minus a b) <-> In y a /\ ~ In y b.
Proof.
  unfold PyMore.set_minus. rewrite filter_In, negb_true_iff. split.
  - intros [Ha Hb]. split; [exact Ha|]. intros Hin.
    apply existsb_eqb_In in Hin. congruence.
  - intros [Ha Hb]. split; [exact Ha|].
    destruct (existsb (String.eqb y) b) eqn:H; [|reflexivity].
    apply existsb_eqb_In in H. contradiction.
Qed.

Lemma entry_terms_In (db : Database) (k : Z) (query_tokens : list string)
    (t : string) :
  In t (entry_terms db k query_tokens) <->
  In t query_tokens
  /\ exists e, In e (index_entries db) /\ publication_id e = k
               /\ term e = t.
Proof.
  unfold entry_terms. rewrite in_map_iff. split.
  - intros (e & <- & Hin). apply filter_In in Hin.
    destruct Hin as [Hin Htest]. apply andb_true_iff in Htest.
    destruct Htest as [Hk Ht]. apply Z.eqb_eq in Hk.
    apply existsb_eqb_In in Ht. eauto.
  - intros (Ht & e & Hin & Hk & <-). exists e. split; [reflexivity|].
    apply filter_In. split; [exact Hin|]. apply andb_true_iff. split.
    + now apply Z.eqb_eq.
    + now apply existsb_eqb_In.
Qed.

Lemma matched_fold_In (db : Database) (query_tokens : list string)
    (found : list (Z * R)) (m : list string) (t : string) :
  In t (fold_left
          (fun m pub =>
             PyMore.set_update m (entry_terms db (fst pub) query_tokens))
          found m) <->
  In t m \/ exists pub, In pub found
                        /\ In t (entry_terms db (fst pub) query_tokens).
Proof.
  revert m. induction found as [|p found IH]; intros m; simpl.
  - split; [auto | intros [H|(pub & [] & _)]; exact H].
  - rewrite IH, set_update_In. split.
    + intros [[H|H]|(pub & Hpub & Ht)]; eauto.
    + intros [H|(pub & [<-|Hpub] & Ht)]; eauto.
Qed.

Lemma matched_fold_NoDup (db : Database) (query_tokens : list string)
    (found : list (Z * R)) (m : list string) :
  NoDup m ->
  NoDup (fold_left
           (fun m pub =>
              PyMore.set_update m (entry_terms db (fst pub) query_tokens))
           found m).
Proof.
  revert m. induction found as [|p found IH]; intros m Hnd; simpl;
    [exact Hnd|].
  apply IH. now apply set_update_NoDup.
Qed.

(** X18. [search_with_details] sorts the tokens of the query into two sets
    without repetition.  A token is matched when a returned publication has
    an index row for it, and unmatched otherwise: every token of the query
    is in exactly one of the two, and neither holds anything else.  When
    nothing is returned, every token is unmatched, also those the index
    has rows for. *)
Theorem search_with_details_terms
    (self : SearchEngine) (db : Database) (query : string) (top_n : Z) :
  let found := search self db query top_n in
  let details := search_with_details self db query top_n in
  details_results details = found
  /\ total_results details = Py.len found
  /\ (forall t, In t (matched_terms details) <->
        In t (preprocess_text query)
        /\ exists k score e,
             In (k, score) found /\ In e (index_entries db)
             /\ publication_id e = k /\ term e = t)
  /\ (forall t, In t (unmatched_terms details) <->
        In t (preprocess_text query) /\ ~ In t (matched_terms details))
  /\ NoDup (matched_terms details)
  /\ NoDup (unmatched_terms details)
  /\ (found = [] -> matched_terms details = []).
Proof.
  intros found details. subst details. unfold search_with_details.
  fold found. simpl.
  split; [reflexivity|]. split; [reflexivity|].
  split.
  { intros t. rewrite matched_fold_In. split.
    - intros [[]|([k s] & Hpub & Ht)]. apply entry_terms_In in Ht.
      destruct Ht as (Ht & e & He & Hk & Hterm). simpl in Hk.
      split; [exact Ht|]. exists k, s, e. auto.
    - intros (Ht & k & s & e & Hpub & He & Hk & Hterm). right.
      exists (k, s). split; [exact Hpub|]. apply entry_terms_In.
      split; [exact Ht|]. exists e. auto. }
  split.
  { intros t. rewrite set_minus_In. unfold PyMore.set_of.
    rewrite set_update_In. simpl. tauto. }
  split; [apply matched_fold_NoDup; constructor|].
  split.
  { unfold PyMore.set_minus. apply NoDup_filter.
    unfold PyMore.set_of. apply set_update_NoDup. constructor. }
  intros ->. reflexivity.
Qed.

End DetailsFacts.

(* ------------------------------------------------------------------ *)
(** * The cache as a table *)
(* ------------------------------------------------------------------ *)

Section CacheFacts.
Import Models Preprocessor Search Invariants.
Context {nltk : Nltk}.

Lemma key_eqb_eq (a b : CacheKey) : key_eqb a b = true <-> a = b.
Proof.
  unfold key_eqb. destruct a as [q1 n1], b as [q2 n2]. simpl.
  rewrite andb_true_iff, String.eqb_eq, Z.eqb_eq.
  split; [intros [-> ->]; reflexivity | intros H; inversion H; auto].
Qed.

Lemma lru_find_Some (cache : LruCache) (key : CacheKey) (ids : list Z) :
  lru_find cache key = Some ids -> In (key, ids) cache.
Proof.
  induction cache as [|[k v] cache IH]; simpl; [discriminate|].
  destruct (key_eqb key k) eqn:Hk.
  - apply key_eqb_eq in Hk. subst k. intros H. inversion H. now left.
  - intros H. right. now apply IH.
Qed.

Lemma lru_find_None (cache : LruCache) (key : CacheKey) :
  lru_find cache key = None -> ~ In key (map fst cache).
Proof.
  induction cache as [|[k v] cache IH]; simpl; [auto|].
  destruct (key_eqb key k) eqn:Hk; [discriminate|].
  intros H [Heq|Hin]; [|now apply IH].
  subst k. now rewrite key_eqb_refl in Hk.
Qed.

Lemma lru_remove_keys (cache : LruCache) (key : CacheKey) :
  ~ In key (map fst (lru_remove cache key)).
Proof.
  unfold lru_remove. intros Hin. apply in_map_iff in Hin.
  destruct Hin as ([k v] & Heq & Hin). simpl in Heq. subst k.
  apply filter_In in Hin. destruct Hin as [_ Hne]. simpl in Hne.
  now rewrite key_eqb_refl in Hne.
Qed.

Lemma lru_remove_shorter (cache : LruCache) (key : CacheKey) (ids : list Z) :
  lru_find cache key = Some ids ->
  (S (List.length (lru_remove cache key)) <= List.length cache)%nat.
Proof.
  unfold lru_remove.
  induction cache as [|[k v] cache IH]; simpl; [discriminate|].
  destruct (key_eqb key k) eqn:Hk; simpl.
  - intros _. pose proof (filter_length_le
      (fun kv => negb (key_eqb key (fst kv))) cache). lia.
  - intros H. apply IH in H. lia.
Qed.

(** X19. The cache never grows beyond 100 entries and never holds two
    entries for one query and result count: both are kept by every
    lookup. *)
Theorem cache_capacity
    (cache : LruCache) (db : Database) (query : string) (top_n : Z) :
  (List.length cache <= lru_maxsize)%nat ->
  NoDup (map fst cache) ->
  (List.length (snd (get_cached_search cache db query top_n))
   <= lru_maxsize)%nat
  /\ NoDup (map fst (snd (get_cached_search cache db query top_n))).
Proof.
  intros Hlen Hnd. unfold get_cached_search.
  destruct (lru_find cache (query, top_n)) as [ids|] eqn:Hfind;
    cbn [fst snd].
  - split.
    + pose proof (lru_remove_shorter cache _ ids Hfind). simpl. lia.
    + simpl. constructor; [apply lru_remove_keys|].
      unfold lru_remove. now apply filter_keeps_distinct.
  - split; [apply firstn_le_length|].
    rewrite <- firstn_map. apply firstn_NoDup. simpl. constructor.
    + now apply lru_find_None.
    + exact Hnd.
Qed.

(** X20. While the index does not change the cache is invisible: if every
    answer in the cache is what [search] gives on the database, a lookup
    returns what [search] gives, and the same is true of the cache it
    leaves. *)
Theorem cache_transparent
    (cache : LruCache) (db : Database) (query : string) (top_n : Z) :
  cache_consistent db cache ->
  fst (get_cached_search cache db query top_n) =
    uncached_search db query top_n
  /\ cache_consistent db (snd (get_cached_search cache db query top_n)).
Proof.
  intros Hcons. unfold get_cached_search.
  destruct (lru_find cache (query, top_n)) as [ids|] eqn:Hfind;
    cbn [fst snd].
  - apply lru_find_Some in Hfind. assert (Hids := Hcons _ _ Hfind).
    simpl in Hids. split; [exact Hids|].
    intros key ids' [Heq|Hin].
    + inversion Heq; subst. reflexivity.
    + unfold lru_remove in Hin. apply filter_In in Hin.
      now apply Hcons.
  - split; [reflexivity|].
    intros key ids' Hin. apply firstn_incl in Hin.
    destruct Hin as [Heq|Hin].
    + inversion Heq; subst. reflexivity.
    + now apply Hcons.
Qed.

Lemma lru_find_remove (cache : LruCache) (key key' : CacheKey) :
  key_eqb key' key = false ->
  lru_find (lru_remove cache key) key' = lru_find cache key'.
Proof.
  intros Hne. unfold lru_remove.
  induction cache as [|[k v] cache IH]; simpl; [reflexivity|].
  destruct (key_eqb key k) eqn:Hk; simpl.
  - apply key_eqb_eq in Hk. subst k. now rewrite Hne.
  - now rewrite IH.
Qed.

(** X21. What a lookup does to the table.  A hit changes no answer of the
    table (it only moves the entry to the front).  A miss on a table with
    room adds the new answer and changes no other.  A miss on a full table
    puts the new entry in front and drops the last one, the least recently
    used. *)
Theorem cache_lookup_effect
    (cache : LruCache) (db : Database) (query : string) (top_n : Z) :
  let after := snd (get_cached_search cache db query top_n) in
  (forall ids, lru_find cache (query, top_n) = Some ids ->
     forall key, lru_find after key = lru_find cache key)
  /\ (lru_find cache (query, top_n) = None ->
      (List.length cache < lru_maxsize)%nat ->
      forall key,
        lru_find after key =
        if key_eqb key (query, top_n)
        then Some (uncached_search db query top_n)
        else lru_find cache key)
  /\ (lru_find cache (query, top_n) = None ->
      List.length cache = lru_maxsize ->
      after = ((query, top_n), uncached_search db query top_n)
                :: removelast cache).
Proof.
  intros after. subst after. unfold get_cached_search.
  split; [|split].
  - intros ids Hfind key. rewrite Hfind. cbn [snd lru_find].
    destruct (key_eqb key (query, top_n)) eqn:Hk.
    + apply key_eqb_eq in Hk. now subst key.
    + now apply lru_find_remove.
  - intros Hfind Hlen key. rewrite Hfind. cbn [snd].
    rewrite firstn_all2; [reflexivity|].
    change (List.length
              (((query, top_n), uncached_search db query top_n) :: cache))
      with (S (List.length cache)). lia.
  - intros Hfind Hlen. rewrite Hfind. cbn [snd].
    unfold lru_maxsize in *.
    change (firstn 100
              (((query, top_n), uncached_search db query top_n) :: cache))
      with (((query, top_n), uncached_search db query top_n)
              :: firstn 99 cache).
    f_equal. rewrite removelast_firstn_len, Hlen. reflexivity.
Qed.

End CacheFacts.

(* ------------------------------------------------------------------ *)
(** * The search view and its pages *)
(* ------------------------------------------------------------------ *)

Section ViewFacts.
Import Models Preprocessor Search Views.
Context {nltk : Nltk}.
Local Open Scope string_scope.

Lemma lstrip_blank (s : string) :
  Py.strip_is_empty (PyMore.lstrip s) = Py.strip_is_empty s.
Proof.
  unfold Py.strip_is_empty.
  induction s as [|c s IH]; simpl; [reflexivity|].
  destruct (Py.isspace c) eqn:Hc; simpl; [exact IH|].
  now rewrite Hc.
Qed.

Lemma rstrip_empty (s : string) :
  PyMore.rstrip s = "" <-> Py.strip_is_empty s = true.
Proof.
  unfold Py.strip_is_empty.
  induction s as [|c s IH]; simpl; [tauto|].
  destruct (PyMore.rstrip s) as [|c' r] eqn:Hr.
  - assert (Hs : Py.forallb_string Py.isspace s = true)
      by now apply IH.
    rewrite Hs, andb_true_r.
    destruct (Py.isspace c); split; auto; discriminate.
  - split; [discriminate|]. intros H. apply andb_true_iff in H.
    destruct H as [_ H]. apply IH in H. discriminate.
Qed.

Lemma strip_empty (s : string) :
  PyMore.strip s = "" <-> Py.strip_is_empty s = true.
Proof.
  unfold PyMore.strip. now rewrite rstrip_empty, lstrip_blank.
Qed.

(** X22. For [page] and [size] parameters that [int] accepts, the search
    view answers 400, without searching, exactly when the [query] parameter
    is missing, empty or made of white space, which is what [str.strip]
    removes: the ASCII white space and, above it, U+0085 and U+00A0. *)
Theorem search_publications_bad_request
    (db : Database) (query_param : string) (page size : Z) :
  search_publications db query_param page size = bad_request
  <-> Py.strip_is_empty query_param = true.
Proof.
  unfold search_publications. rewrite <- strip_empty.
  destruct (PyMore.strip query_param); split; auto; discriminate.
Qed.

Lemma search_length_bound (db : Database) (query : string) (top_n : Z) :
  (0 <= top_n)%Z ->
  (Py.len (search new_engine db query top_n) <= Z.min top_n 500)%Z.
Proof.
  intros Htop.
  destruct (search_cases new_engine db query top_n) as [Hs|Hs]; rewrite Hs.
  - unfold Py.len. simpl. lia.
  - rewrite results_length.
    destruct (sorted_docs_facts new_engine db (preprocess_text query) top_n)
      as (_ & _ & _ & Hlen).
    apply Hlen; simpl; lia.
Qed.

(** A window [seq[a : a + size]] that starts at a bound that is not
    negative is [size] items after the first [a]. *)
Lemma slice_window {A : Type} (l : list A) (a size : Z) :
  (0 <= a)%Z -> (0 <= size)%Z ->
  PyMore.slice l a (a + size) =
  firstn (Z.to_nat size) (skipn (Z.to_nat a) l).
Proof.
  intros Ha Hsize. unfold PyMore.slice, PyMore.clamp, Py.len.
  replace (a <? 0)%Z with false by (symmetry; apply Z.ltb_ge; lia).
  replace (a + size <? 0)%Z with false by (symmetry; apply Z.ltb_ge; lia).
  set (n := List.length l).
  destruct (Z_le_gt_dec (Z.of_nat n) a) as [Hout|Hin].
  - rewrite !skipn_all2 by (subst n; lia). now rewrite !firstn_nil.
  - replace (Z.to_nat (Z.min a (Z.of_nat n))) with (Z.to_nat a) by lia.
    destruct (Z_le_gt_dec (a + size) (Z.of_nat n)) as [Hfit|Hover].
    + f_equal. lia.
    + rewrite !firstn_all2; [reflexivity| |];
        rewrite length_skipn; subst n; lia.
Qed.

(** X23. For a page number from 1 and a page size that is not negative the
    search view returns the page: [size] results after the first
    [(page - 1) * size] of the list [search] gives for the stripped query
    with the limit 500; [total] is the length of that whole list, at most
    500, whatever the page. *)
Theorem search_publications_page
    (db : Database) (query_param : string) (page size : Z) :
  Py.strip_is_empty query_param = false ->
  (1 <= page)%Z -> (0 <= size)%Z ->
  let all_results :=
    search new_engine db (PyMore.strip query_param) 500 in
  search_publications db query_param page size =
  ok (firstn (Z.to_nat size)
        (skipn (Z.to_nat ((page - 1) * size)) all_results))
     (Py.len all_results) page (PyMore.strip query_param)
  /\ (Py.len all_results <= 500)%Z.
Proof.
  intros Hblank Hpage Hsize all_results. split.
  - unfold search_publications.
    destruct (PyMore.strip query_param) as [|c q] eqn:Hq.
    + apply strip_empty in Hq. congruence.
    + fold all_results. f_equal. apply slice_window; nia.
  - apply (search_length_bound db (PyMore.strip query_param) 500). lia.
Qed.

Lemma firstn_plus {A : Type} (a b : nat) (l : list A) :
  firstn (a + b) l = (firstn a l ++ firstn b (skipn a l))%list.
Proof.
  revert l. induction a as [|a IH]; intros l; simpl; [reflexivity|].
  destruct l as [|x l]; simpl.
  - now rewrite firstn_nil.
  - now rewrite IH.
Qed.

Lemma search_publications_window
    (db : Database) (query_param : string) (page size : Z) :
  Py.strip_is_empty query_param = false ->
  (1 <= page)%Z -> (0 <= size)%Z ->
  results_of (search_publications db query_param page size) =
  firstn (Z.to_nat size)
    (skipn (Z.to_nat ((page - 1) * size))
       (search new_engine db (PyMore.strip query_param) 500)).
Proof.
  intros Hblank Hpage Hsize. unfold search_publications.
  destruct (PyMore.strip query_param) as [|c q] eqn:Hq.
  - apply strip_empty in Hq. congruence.
  - simpl. apply slice_window; nia.
Qed.

(** X24. The pages of the search view tile the result list: for a page size
    above 0, the results of the pages 1 to [k], one after the other, are
    the first [k * size] results of the whole list, each once and in
    order. *)
Theorem search_publications_pages
    (db : Database) (query_param : string) (size : Z) (k : nat) :
  Py.strip_is_empty query_param = false ->
  (0 < size)%Z ->
  flat_map (fun page =>
              results_of (search_publications db query_param
                            (Z.of_nat page) size))
           (seq 1 k) =
  firstn (k * Z.to_nat size)
         (search new_engine db (PyMore.strip query_param) 500).
Proof.
  intros Hblank Hsize.
  induction k as [|k IH]; [reflexivity|].
  rewrite seq_S, flat_map_app, IH. cbn [flat_map]. rewrite app_nil_r.
  rewrite search_publications_window by (try exact Hblank; lia).
  replace (Z.to_nat ((Z.of_nat (1 + k) - 1) * size))
    with (k * Z.to_nat size)%nat by nia.
  rewrite <- firstn_plus. f_equal. lia.
Qed.

End ViewFacts.

(* ------------------------------------------------------------------ *)
(** * The further theorems at concrete inputs *)
(* ------------------------------------------------------------------ *)

Section MoreScenarios.
Import Models Preprocessor Indexer Search Spec Scenario Corpora.
Import Details Views Invariants.
Local Open Scope string_scope.

Lemma scenario_a_nonempty : publications (store scenario_a) <> [].
Proof. discriminate. Defined.

Lemma scenario_a_distinct_keys : distinct_keys (publications (store scenario_a)).
Proof.
  unfold distinct_keys. simpl.
  repeat constructor; simpl; intuition discriminate.
Defined.

Lemma build_index_unique_postings_witness :
  publications (store scenario_a) <> []
  /\ unique_postings (index_entries (rebuilt (store scenario_a))).
Proof.
  split; [exact scenario_a_nonempty|].
  apply (build_index_unique_postings new_builder (store scenario_a)).
  exact scenario_a_nonempty.
Defined.

Lemma build_index_postings_witness :
  publications (store scenario_a) <> []
  /\ distinct_keys (publications (store scenario_a))
  /\ exists e, In e (index_entries (rebuilt (store scenario_a)))
               /\ term e = "program" /\ publication_id e = 3%Z
               /\ term_frequency e = 1%Z.
Proof.
  split; [exact scenario_a_nonempty|].
  split; [exact scenario_a_distinct_keys|].
  apply (build_index_postings new_builder (store scenario_a) "program" 3 1
           scenario_a_nonempty scenario_a_distinct_keys).
  exists doc3. split; [now left|]. repeat split. simpl. auto.
Defined.

Lemma build_index_scores_witness :
  publications (store scenario_a) <> []
  /\ In {| term := "program"; publication_id := 3;
           tfidf_score := tfidf 1 3 2; term_frequency := 1 |}
        (index_entries (rebuilt (store scenario_a)))
  /\ tfidf 1 3 2 = (IZR 1 * ln (IZR 3 / IZR 2))%R.
Proof.
  assert (Hin : In {| term := "program"; publication_id := 3;
                      tfidf_score := tfidf 1 3 2; term_frequency := 1 |}
                   (index_entries (rebuilt (store scenario_a))))
    by (cbv -[tfidf]; right; now left).
  split; [exact scenario_a_nonempty|]. split; [exact Hin|].
  exact (proj2 (build_index_scores (store scenario_a) _
                  scenario_a_nonempty Hin)).
Defined.

Lemma build_index_store_witness :
  publications (store scenario_a) <> []
  /\ distinct_keys (publications (store scenario_a))
  /\ map searchable_content (publications (rebuilt (store scenario_a))) =
     ["python program code softwar"; "python snake reptil";
      "python program languag"].
Proof.
  split; [exact scenario_a_nonempty|].
  split; [exact scenario_a_distinct_keys|].
  unfold rebuilt.
  rewrite (build_index_store new_builder (store scenario_a)
             scenario_a_nonempty scenario_a_distinct_keys).
  reflexivity.
Defined.

Lemma build_index_referential_integrity_witness :
  publications orphaned_with_publication <> []
  /\ referential_integrity (rebuilt orphaned_with_publication).
Proof.
  split; [discriminate|].
  apply (build_index_referential_integrity new_builder
           orphaned_with_publication).
  discriminate.
Defined.

Lemma build_index_result_is_index_stats_witness :
  publications (store scenario_a) <> []
  /\ distinct_keys (publications (store scenario_a))
  /\ fst (fst (build_index new_builder (store scenario_a))) =
     success (total_documents (rebuilt (store scenario_a)))
             (total_terms (rebuilt (store scenario_a)))
             (unique_terms (rebuilt (store scenario_a))).
Proof.
  split; [exact scenario_a_nonempty|].
  split; [exact scenario_a_distinct_keys|].
  exact (build_index_result_is_index_stats (store scenario_a)
           scenario_a_nonempty scenario_a_distinct_keys).
Defined.

Lemma indexed_before_add_unique :
  unique_postings (index_entries indexed_before_add).
Proof.
  unfold unique_postings. cbv -[tfidf].
  repeat constructor; simpl; intuition congruence.
Defined.

Lemma indexed_before_add_integrity : referential_integrity indexed_before_add.
Proof.
  intros e Hin. cbv -[tfidf] in Hin.
  destruct Hin as [<-|[<-|[<-|[]]]]; reflexivity.
Defined.

Lemma update_index_keeps_constraints_witness :
  unique_postings (index_entries indexed_before_add)
  /\ referential_integrity indexed_before_add
  /\ unique_postings
       (index_entries
          (snd (update_index new_builder indexed_before_add
                  (doc 1 "snake snake"))))
  /\ referential_integrity
       (snd (update_index new_builder indexed_before_add
               (doc 1 "snake snake"))).
Proof.
  split; [exact indexed_before_add_unique|].
  split; [exact indexed_before_add_integrity|].
  exact (update_index_keeps_constraints new_builder indexed_before_add
           (doc 1 "snake snake")
           indexed_before_add_unique indexed_before_add_integrity).
Defined.

Lemma update_index_makes_findable_witness :
  has_publication indexed_before_add 2 = true
  /\ (2 <= Py.len (publications indexed_before_add))%Z
  /\ In "reptil" (tokens_of (doc 2 "snake reptile"))
  /\ Py.strip_is_empty "reptile" = false
  /\ preprocess_text "reptile" = ["reptil"]
  /\ map fst (search new_engine
                (snd (update_index new_builder indexed_before_add
                        (doc 2 "snake reptile")))
                "reptile" 10) = [2%Z].
Proof.
  assert (Hlen : (2 <= Py.len (publications indexed_before_add))%Z)
    by (cbv -[tfidf]; discriminate).
  assert (Htok : In "reptil" (tokens_of (doc 2 "snake reptile")))
    by (right; now left).
  split; [reflexivity|]. split; [exact Hlen|]. split; [exact Htok|].
  split; [reflexivity|]. split; [reflexivity|].
  apply (update_index_makes_findable new_builder indexed_before_add
           (doc 2 "snake reptile") "reptile" "reptil" 10
           eq_refl Hlen Htok).
  - intros e Hin. cbv -[tfidf] in Hin.
    destruct Hin as [<-|[<-|[<-|[]]]]; simpl; intros; discriminate.
  - reflexivity.
  - reflexivity.
  - lia.
Defined.

Lemma single_document_never_found_witness :
  publications (store one_term) = [doc 1 "data"]
  /\ search new_engine (rebuilt (store one_term)) "data" 10 = [].
Proof.
  split; [reflexivity|].
  apply (single_document_never_found new_builder (store one_term)
           (doc 1 "data") "data" 10 eq_refl).
Defined.

Lemma update_index_scores_nonnegative_witness :
  referential_integrity indexed_before_add
  /\ has_publication indexed_before_add 1 = true
  /\ (0 <= tfidf 1 2 1)%R.
Proof.
  split; [exact indexed_before_add_integrity|].
  split; [reflexivity|].
  apply (update_index_scores_nonnegative new_builder indexed_before_add
           (doc 1 "python code")
           {| term := "python"; publication_id := 1;
              tfidf_score := tfidf 1 2 1; term_frequency := 1 |}
           indexed_before_add_integrity eq_refl).
  - cbv -[tfidf]. right. now left.
  - reflexivity.
Defined.

Lemma search_token_set_witness :
  Py.strip_is_empty "python code" = false
  /\ Py.strip_is_empty "code python python" = false
  /\ search new_engine (rebuilt (store scenario_a)) "python code" 10 =
     search new_engine (rebuilt (store scenario_a)) "code python python" 10.
Proof.
  split; [reflexivity|]. split; [reflexivity|].
  apply (search_token_set new_engine (rebuilt (store scenario_a))
           "python code" "code python python" 10 eq_refl eq_refl).
  intros t. simpl. tauto.
Defined.

Lemma search_limit_prefix_witness :
  (0 <= 1 <= 10)%Z
  /\ search new_engine (rebuilt (store scenario_a)) "programming" 1 =
     firstn 1 (search new_engine (rebuilt (store scenario_a))
                 "programming" 10).
Proof.
  assert (H : (0 <= 1 <= 10)%Z) by lia.
  split; [exact H|].
  exact (search_limit_prefix (rebuilt (store scenario_a)) "programming"
           1 10 H).
Defined.

Lemma search_results_in_index_witness :
  In (3%Z, round4 (0 + tfidf 1 3 2))
     (search new_engine (rebuilt (store scenario_a)) "programming" 10)
  /\ has_publication (rebuilt (store scenario_a)) 3 = true.
Proof.
  assert (Hin : In (3%Z, round4 (0 + tfidf 1 3 2))
                  (search new_engine (rebuilt (store scenario_a))
                     "programming" 10)).
  { pose proof tfidf_1_3_2 as H32. pose proof ln_3_2 as Hln.
    run_services. now left. }
  split; [exact Hin|].
  exact (proj1 (search_results_in_index new_engine
                  (rebuilt (store scenario_a)) "programming" 10 3 _ Hin)).
Defined.

Lemma cache_capacity_witness :
  (List.length (@nil (CacheKey * list Z)) <= lru_maxsize)%nat
  /\ NoDup (map fst (@nil (CacheKey * list Z)))
  /\ (List.length
        (snd (get_cached_search [] (rebuilt (store scenario_a)) "python" 10))
      <= lru_maxsize)%nat.
Proof.
  assert (Hlen : (List.length (@nil (CacheKey * list Z)) <= lru_maxsize)%nat)
    by (unfold lru_maxsize; simpl; lia).
  assert (Hnd : NoDup (map fst (@nil (CacheKey * list Z))))
    by constructor.
  split; [exact Hlen|]. split; [exact Hnd|].
  exact (proj1 (cache_capacity [] (rebuilt (store scenario_a)) "python" 10
                  Hlen Hnd)).
Defined.

Lemma cache_transparent_witness :
  cache_consistent (rebuilt (store scenario_a)) []
  /\ fst (get_cached_search [] (rebuilt (store scenario_a)) "python" 10) =
     uncached_search (rebuilt (store scenario_a)) "python" 10.
Proof.
  assert (Hcons : cache_consistent (rebuilt (store scenario_a)) [])
    by (intros key ids []).
  split; [exact Hcons|].
  exact (proj1 (cache_transparent [] (rebuilt (store scenario_a))
                  "python" 10 Hcons)).
Defined.

Lemma search_publications_page_witness :
  Py.strip_is_empty " programming " = false
  /\ (1 <= 2)%Z /\ (0 <= 1)%Z
  /\ (Py.len (search new_engine (rebuilt (store scenario_a))
                (PyMore.strip " programming ") 500) <= 500)%Z.
Proof.
  split; [reflexivity|]. split; [lia|]. split; [lia|].
  apply (search_publications_page (rebuilt (store scenario_a))
           " programming " 2 1 eq_refl); lia.
Defined.

Lemma search_publications_pages_witness :
  Py.strip_is_empty " programming " = false
  /\ (0 < 1)%Z
  /\ flat_map (fun page =>
                 results_of (search_publications (rebuilt (store scenario_a))
                               " programming " (Z.of_nat page) 1))
              (seq 1 2) =
     firstn (2 * Z.to_nat 1)
            (search new_engine (rebuilt (store scenario_a))
               (PyMore.strip " programming ") 500).
Proof.
  split; [reflexivity|]. split; [lia|].
  apply (search_publications_pages (rebuilt (store scenario_a))
           " programming " 1 2 eq_refl). lia.
Defined.

End MoreScenarios.

(* ------------------------------------------------------------------ *)
(** * Which terms find their documents after a rebuild *)
(* ------------------------------------------------------------------ *)

Section TermReach.
Import Models Preprocessor Indexer Search Spec Invariants.
Context {nltk : Nltk}.

Lemma search_no_positive_match (db : Database) (query : string) (top_n : Z) :
  (forall e, In e (matching_entries db (preprocess_text query)) ->
             (tfidf_score e <= 0)%R) ->
  search new_engine db query top_n = [].
Proof.
  intros Hall.
  destruct (search_cases new_engine db query top_n) as [Hs|Hs];
    [exact Hs|].
  rewrite Hs.
  destruct (sorted_docs_facts new_engine db (preprocess_text query) top_n)
    as (_ & Hscore & _).
  destruct (sorted_docs new_engine db (preprocess_text query) top_n)
    as [|[k s] docs]; [reflexivity|].
  destruct (Hscore k s (or_introl eq_refl)) as [Hagg Hthr].
  simpl in Hthr.
  pose proof (aggregate_score_nonpositive _ k Hall). lra.
Qed.

Lemma tfidf_nonpositive (tf n df : Z) :
  (0 <= tf)%Z -> (0 < n)%Z -> (n <= df)%Z -> (tfidf tf n df <= 0)%R.
Proof.
  intros Htf Hn Hdf.
  destruct (Z.eq_dec n df) as [<-|Hne].
  - rewrite tfidf_all_documents by exact Hn. lra.
  - unfold tfidf, idf.
    assert (Hb : (0 <? df)%Z = true) by (apply Z.ltb_lt; lia).
    rewrite Hb.
    assert (Hlt : (n < df)%Z) by lia.
    apply IZR_le in Htf. apply IZR_lt in Hn, Hlt.
    assert (Hln : (ln (IZR n / IZR df) < 0)%R).
    { apply ln_negative.
      - apply Rdiv_lt_0_compat; lra.
      - apply (Rmult_lt_reg_r (IZR df)); [lra|].
        unfold Rdiv. rewrite Rmult_assoc, Rinv_l by lra. lra. }
    nra.
Qed.

(** X25. After a rebuild with a new builder, a term that occurs in the
    corpus as many times as there are publications, or more, finds
    nothing: a query that normalises to that term alone returns the empty
    list.  A term that is in every document is such a term. *)
Theorem frequent_term_finds_nothing
    (db : Database) (query t : string) (top_n : Z) :
  publications db <> [] ->
  preprocess_text query = [t] ->
  (Py.len (publications db) <= corpus_occurrences (publications db) t)%Z ->
  search new_engine (snd (build_index new_builder db)) query top_n = [].
Proof.
  intros Hne Hq Hfreq. apply search_no_positive_match. rewrite Hq.
  intros e Hin. unfold matching_entries in Hin. apply filter_In in Hin.
  destruct Hin as [Hin Htest]. apply andb_true_iff in Htest.
  destruct Htest as [Hterm _]. simpl in Hterm. rewrite orb_false_r in Hterm.
  apply String.eqb_eq in Hterm.
  rewrite (build_index_nonempty new_builder db Hne) in Hin. simpl in Hin.
  apply entries_to_create_In in Hin.
  destruct Hin as (k & tf & t' & freq & Hdt & Htf & ->). simpl in *.
  subst t'.
  apply first_pass_doc_terms in Hdt. simpl in Hdt.
  destruct Hdt as [[]|(p & _ & _ & ->)].
  apply count_terms_row in Htf. destruct Htf as [_ ->].
  rewrite first_pass_term_doc_freq. simpl.
  apply tfidf_nonpositive.
  - unfold occurrences. lia.
  - unfold Py.len. destruct (publications db); [congruence|]. simpl. lia.
  - exact Hfreq.
Qed.

Lemma filter_flat_map {A B : Type} (p : B -> bool) (g : A -> list B)
    (l : list A) :
  filter p (flat_map g l) = flat_map (fun x => filter p (g x)) l.
Proof.
  induction l as [|x l IH]; simpl; [reflexivity|].
  now rewrite filter_app, IH.
Qed.

Lemma flat_map_all_nil {A B : Type} (g : A -> list B) (l : list A) :
  (forall q, In q l -> g q = []) -> flat_map g l = [].
Proof.
  induction l as [|q l IH]; simpl; intros Hall; [reflexivity|].
  rewrite (Hall q (or_introl eq_refl)). apply IH.
  intros q' Hin. apply Hall. now right.
Qed.

Lemma flat_map_single {A B : Type} (g : A -> list B) (key : A -> Z)
    (l : list A) (x : A) (y : B) :
  NoDup (map key l) -> In x l ->
  (forall q, In q l -> key q <> key x -> g q = []) ->
  g x = [y] ->
  flat_map g l = [y].
Proof.
  intros Hnd Hin Hother Hx.
  induction l as [|q l IH]; [contradiction|].
  simpl in Hnd. inversion Hnd as [|? ? Hnotin Hnd']; subst.
  simpl. destruct Hin as [->|Hin].
  - rewrite Hx. rewrite flat_map_all_nil; [reflexivity|].
    intros q Hq. apply Hother; [now right|].
    intros Heq. apply Hnotin. rewrite <- Heq. now apply in_map.
  - rewrite (Hother q (or_introl eq_refl)).
    + apply IH; [exact Hnd' | exact Hin |].
      intros q' Hq'. apply Hother. now right.
    + intros Heq. apply Hnotin. rewrite Heq. now apply in_map.
Qed.

Lemma occurrences_absent (t : string) (tokens : list string) :
  ~ In t tokens -> occurrences t tokens = 0%Z.
Proof.
  intros Hnot. unfold occurrences.
  rewrite (proj1 (count_occ_not_In string_dec tokens t) Hnot). reflexivity.
Qed.

Lemma corpus_occurrences_none (pubs : list Publication) (t : string) :
  (forall q, In q pubs -> ~ In t (tokens_of q)) ->
  corpus_occurrences pubs t = 0%Z.
Proof.
  induction pubs as [|q l IH]; simpl; intros Hnone; [reflexivity|].
  rewrite occurrences_absent by (apply Hnone; now left).
  rewrite IH; [reflexivity|]. intros q' Hq'. apply Hnone. now right.
Qed.

Lemma corpus_occurrences_single
    (pubs : list Publication) (pub : Publication) (t : string) :
  NoDup (map pub_id pubs) -> In pub pubs ->
  (forall q, In q pubs -> pub_id q <> pub_id pub -> ~ In t (tokens_of q)) ->
  corpus_occurrences pubs t = occurrences t (tokens_of pub).
Proof.
  intros Hnd Hin Hother.
  induction pubs as [|q l IH]; [contradiction|].
  simpl in Hnd. inversion Hnd as [|? ? Hnotin Hnd']; subst.
  simpl. destruct Hin as [->|Hin].
  - rewrite corpus_occurrences_none; [lia|].
    intros q Hq. apply Hother; [now right|].
    intros Heq. apply Hnotin. rewrite <- Heq. now apply in_map.
  - rewrite occurrences_absent.
    + rewrite IH; [lia | exact Hnd' | exact Hin |].
      intros q' Hq'. apply Hother. now right.
    + apply Hother; [now left|].
      intros Heq. apply Hnotin. rewrite Heq. now apply in_map.
Qed.

Lemma entries_to_create_map (n : Z) (tdf : Py.counter)
    (pubs : list Publication) :
  entries_to_create n tdf
    (map (fun p => (pub_id p, count_terms (tokens_of p))) pubs) =
  flat_map (fun p => entries_of_document n tdf (pub_id p)
                       (count_terms (tokens_of p))) pubs.
Proof.
  unfold entries_to_create.
  induction pubs as [|p l IH]; simpl; [reflexivity|]. now rewrite IH.
Qed.

Lemma tfidf_rare (f n : Z) :
  (1 <= f)%Z -> (f < n)%Z -> (1 / 2 < tfidf f n f)%R.
Proof.
  intros Hf Hn. unfold tfidf, idf.
  assert (Hb : (0 <? f)%Z = true) by (apply Z.ltb_lt; lia).
  rewrite Hb.
  assert (Hn1 : (f + 1 <= n)%Z) by lia.
  apply IZR_le in Hf, Hn1. rewrite plus_IZR in Hn1.
  set (x := IZR f) in *. set (y := IZR n) in *.
  assert (Hratio : (1 < y / x)%R).
  { apply (Rmult_lt_reg_r x); [lra|].
    unfold Rdiv. rewrite Rmult_assoc, Rinv_l by lra. lra. }
  pose proof (ln_lower_bound (y / x) Hratio) as Hln.
  assert (Hinv : (/ (y / x) = x / y)%R) by (field; lra).
  rewrite Hinv in Hln.
  assert (Hprod : (x * (1 - x / y) <= x * ln (y / x))%R) by nra.
  assert (Hval : (x * (1 - x / y) = x * (y - x) / y)%R) by (field; lra).
  assert (Hhalf : (1 / 2 <= x * (y - x) / y)%R).
  { apply (Rmult_le_reg_r y); [lra|].
    unfold Rdiv at 2. rewrite Rmult_assoc, Rinv_l by lra. nra. }
  assert (Hstrict : (x * (1 - x / y) < x * ln (y / x))%R) by nra.
  lra.
Qed.

(** X26. After a rebuild with a new builder of a store with distinct keys, a
    term that one publication alone contains finds that publication, and it
    alone, provided the term occurs in it fewer times than the store has
    publications. *)
Theorem unique_term_finds_its_document
    (db : Database) (pub : Publication) (query t : string) (top_n : Z) :
  distinct_keys (publications db) ->
  In pub (publications db) ->
  In t (tokens_of pub) ->
  (forall q, In q (publications db) -> pub_id q <> pub_id pub ->
             ~ In t (tokens_of q)) ->
  (occurrences t (tokens_of pub) < Py.len (publications db))%Z ->
  Py.strip_is_empty query = false ->
  preprocess_text query = [t] ->
  (1 <= top_n)%Z ->
  map fst (search new_engine (snd (build_index new_builder db)) query top_n)
  = [pub_id pub].
Proof.
  intros Hkeys Hpub Ht Hother Hfew Hblank Hq Htop.
  assert (Hne : publications db <> []).
  { intros Hnil. rewrite Hnil in Hpub. contradiction. }
  set (db' := snd (build_index new_builder db)).
  set (f := occurrences t (tokens_of pub)) in *.
  set (n := Py.len (publications db)) in *.
  assert (Hf : (1 <= f)%Z).
  { subst f. apply occurrences_pos in Ht. lia. }
  set (e0 := {| term := t; publication_id := pub_id pub;
                tfidf_score := tfidf f n f; term_frequency := f |}).
  assert (Hhas : has_publication db' (pub_id pub) = true).
  { apply has_publication_In. subst db'. rewrite build_index_keys.
    now apply in_map. }
  set (tdf := pass_term_doc_freq
                (first_pass (publications db)
                   {| doc_terms := [];
                      pass_term_doc_freq := term_doc_freq new_builder;
                      pass_rows := publications db |})).
  assert (Hentries :
            index_entries db' =
            flat_map (fun p => entries_of_document n tdf (pub_id p)
                                 (count_terms (tokens_of p)))
                     (publications db)).
  { subst db'. rewrite (build_index_nonempty new_builder db Hne).
    cbn [snd index_entries].
    rewrite (build_index_doc_terms new_builder db Hkeys).
    apply entries_to_create_map. }
  assert (Htdf : Py.counter_get tdf t = f).
  { subst tdf. rewrite first_pass_term_doc_freq. simpl.
    now apply corpus_occurrences_single. }
  assert (Hmatch : matching_entries db' [t] = [e0]).
  { unfold matching_entries. rewrite Hentries.
    set (hp := has_publication db') in *. clearbody hp.
    rewrite filter_flat_map.
    apply (flat_map_single _ pub_id _ pub); [exact Hkeys | exact Hpub | |].
    - intros q Hq' Hne'.
      rewrite (filter_ext_in _ (fun _ => false)); [apply filter_false|].
      intros e He. unfold entries_of_document in He.
      apply in_map_iff in He. destruct He as ([t' f'] & <- & Hrow).
      apply count_terms_row in Hrow. destruct Hrow as [Hin' _].
      simpl. rewrite orb_false_r. apply andb_false_iff. left.
      apply String.eqb_neq. intros ->. now apply (Hother q).
    - unfold entries_of_document.
      assert (Hrowt : In (t, f) (count_terms (tokens_of pub)))
        by now apply count_terms_In.
      assert (Hnd := count_terms_NoDup (tokens_of pub)).
      assert (Hone := counter_filter_key _ t f Hnd Hrowt).
      set (mk := fun tf : string * Z =>
                   {| term := fst tf; publication_id := pub_id pub;
                      tfidf_score :=
                        tfidf (snd tf) n (Py.counter_get tdf (fst tf));
                      term_frequency := snd tf |}).
      transitivity
        (map mk (filter (fun kv => String.eqb (fst kv) t)
                        (count_terms (tokens_of pub)))).
      + clear Hone Hrowt Hnd.
        induction (count_terms (tokens_of pub)) as [|[t0 f0] ct IH];
          [reflexivity|].
        cbn [map filter fst]. rewrite IH.
        cbn [term publication_id existsb].
        rewrite orb_false_r, Hhas, andb_true_r.
        destruct (String.eqb t0 t); reflexivity.
      + rewrite Hone. subst mk e0. cbn [map fst snd].
        rewrite Htdf. reflexivity. }
  assert (Hscore : (1 / 100 <= 0 + tfidf f n f)%R).
  { pose proof (tfidf_rare f n Hf Hfew). lra. }
  unfold search. destruct query as [|c q]; [discriminate Hblank|].
  rewrite Hblank, Hq, Hmatch.
  unfold sorted_docs. rewrite Hmatch.
  unfold doc_scores, filtered_docs. simpl.
  rewrite (proj2 (Rleb_true_iff _ _) Hscore). simpl.
  unfold Py.slice_to.
  assert (Hmin : (1 <= Z.min top_n 500)%Z) by lia.
  destruct (0 <=? Z.min top_n 500)%Z eqn:Hle;
    [|apply Z.leb_gt in Hle; lia].
  destruct (Z.to_nat (Z.min top_n 500)) as [|m] eqn:Hm; [lia|].
  simpl. rewrite firstn_nil. reflexivity.
Qed.

End TermReach.

(* ------------------------------------------------------------------ *)
(** * The reach of a term, on the three-document corpus *)
(* ------------------------------------------------------------------ *)

Section TermReachScenarios.
Import Models Preprocessor Indexer Search Spec Scenario Corpora.
Import Invariants.
Local Open Scope string_scope.

Lemma frequent_term_finds_nothing_witness :
  publications (store scenario_a) <> []
  /\ preprocess_text "python" = ["python"]
  /\ (Py.len (publications (store scenario_a))
      <= corpus_occurrences (publications (store scenario_a)) "python")%Z
  /\ search new_engine (snd (build_index new_builder (store scenario_a)))
            "python" 10 = [].
Proof.
  assert (Hne : publications (store scenario_a) <> []) by discriminate.
  assert (Hfreq : (Py.len (publications (store scenario_a))
                   <= corpus_occurrences (publications (store scenario_a))
                                         "python")%Z)
    by (vm_compute; discriminate).
  split; [exact Hne|]. split; [reflexivity|]. split; [exact Hfreq|].
  exact (frequent_term_finds_nothing (store scenario_a) "python" "python" 10
           Hne eq_refl Hfreq).
Defined.

Lemma unique_term_finds_its_document_witness :
  distinct_keys (publications (store scenario_a))
  /\ In doc2 (publications (store scenario_a))
  /\ In "snake" (tokens_of doc2)
  /\ (occurrences "snake" (tokens_of doc2)
      < Py.len (publications (store scenario_a)))%Z
  /\ Py.strip_is_empty "snake" = false
  /\ preprocess_text "snake" = ["snake"]
  /\ map fst (search new_engine
                (snd (build_index new_builder (store scenario_a)))
                "snake" 10) = [pub_id doc2].
Proof.
  assert (Hkeys : distinct_keys (publications (store scenario_a))).
  { unfold distinct_keys. simpl.
    repeat constructor; simpl; intuition discriminate. }
  assert (Hpub : In doc2 (publications (store scenario_a)))
    by (right; now left).
  assert (Htok : In "snake" (tokens_of doc2)) by (right; now left).
  assert (Hfew : (occurrences "snake" (tokens_of doc2)
                  < Py.len (publications (store scenario_a)))%Z)
    by (vm_compute; reflexivity).
  split; [exact Hkeys|]. split; [exact Hpub|]. split; [exact Htok|].
  split; [exact Hfew|]. split; [reflexivity|]. split; [reflexivity|].
  apply (unique_term_finds_its_document (store scenario_a) doc2
           "snake" "snake" 10 Hkeys Hpub Htok).
  - intros q Hq Hne Hin. simpl in Hq.
    destruct Hq as [<- | [<- | [<- | []]]].
    + vm_compute in Hin. intuition discriminate.
    + now apply Hne.
    + vm_compute in Hin. intuition discriminate.
  - exact Hfew.
  - reflexivity.
  - reflexivity.
  - lia.
Defined.

End TermReachScenarios.

(* ------------------------------------------------------------------ *)
(** * Publications with the same score *)
(* ------------------------------------------------------------------ *)

Section TieOrder.
Import Models Preprocessor Indexer Search Spec Scenario Corpora.
Local Open Scope string_scope.

(** The aggregate score of a publication does not depend on the order of
    the rows. *)
Lemma aggregate_score_perm (rows rows' : list InvertedIndexEntry) (k : Z) :
  Permutation rows rows' ->
  aggregate_score rows k = aggregate_score rows' k.
Proof.
  induction 1 as [|e l l' _ IH|e1 e2 l|l1 l2 l3 _ IH1 _ IH2]; simpl.
  - reflexivity.
  - now rewrite IH.
  - destruct (Z.eqb (publication_id e2) k), (Z.eqb (publication_id e1) k);
      lra.
  - congruence.
Qed.

Lemma ranked_NoDup (self : SearchEngine) (rows : list InvertedIndexEntry) :
  NoDup (map fst (sorted_desc (filtered_docs self (doc_scores rows)))).
Proof.
  apply (Permutation_NoDup
           (Permutation_sym (Permutation_map fst (sorted_desc_perm _)))).
  unfold filtered_docs. apply filter_keeps_distinct, doc_scores_NoDup.
Qed.

(** The publications ranked: those that have a row among [rows] and whose
    aggregate score reaches the threshold. *)
Lemma ranked_In (self : SearchEngine) (rows : list InvertedIndexEntry)
    (k : Z) (s : R) :
  In (k, s) (sorted_desc (filtered_docs self (doc_scores rows))) <->
  (exists e, In e rows /\ publication_id e = k)
  /\ s = aggregate_score rows k
  /\ (min_score_threshold self <= s)%R.
Proof.
  assert (Hperm := sorted_desc_perm (filtered_docs self (doc_scores rows))).
  split.
  - intros Hin. apply (Permutation_in _ Hperm) in Hin.
    unfold filtered_docs in Hin. apply filter_In in Hin.
    destruct Hin as [Hin Hthr]. simpl in Hthr.
    apply Rleb_true_iff in Hthr.
    split; [|split; [now apply doc_scores_aggregate | exact Hthr]].
    apply (in_map fst) in Hin. simpl in Hin. unfold doc_scores in Hin.
    apply accumulate_keys in Hin. destruct Hin as [[]|Hin]. exact Hin.
  - intros (Hrow & -> & Hthr).
    apply (Permutation_in _ (Permutation_sym Hperm)).
    assert (Hkey : In k (map fst (doc_scores rows))).
    { unfold doc_scores. apply accumulate_keys. now right. }
    apply in_map_iff in Hkey. destruct Hkey as ([k' v] & Hk & Hin).
    simpl in Hk. subst k'.
    rewrite <- (doc_scores_aggregate rows k v Hin) in *.
    unfold filtered_docs. apply filter_In. split; [exact Hin|].
    simpl. now apply Rleb_true_iff.
Qed.

(** A list without repeated keys that holds two keys, both with the score
    [x], and nothing else. *)
Lemma two_keys_same_score (l : list (Z * R)) (a b : Z) (x : R) :
  a <> b ->
  NoDup (map fst l) ->
  (forall k s, In (k, s) l <-> (k = a \/ k = b) /\ s = x) ->
  l = [(a, x); (b, x)] \/ l = [(b, x); (a, x)].
Proof.
  intros Hab Hnd Hl.
  assert (Ha : In (a, x) l) by (apply Hl; auto).
  assert (Hb : In (b, x) l) by (apply Hl; auto).
  destruct l as [|[k1 s1] [|[k2 s2] [|[k3 s3] l]]].
  - contradiction.
  - destruct Ha as [Ha|[]], Hb as [Hb|[]]. congruence.
  - destruct (proj1 (Hl k1 s1) (or_introl eq_refl)) as [H1 ->].
    destruct (proj1 (Hl k2 s2) (or_intror (or_introl eq_refl))) as [H2 ->].
    inversion Hnd as [|? ? Hnot _]; subst. simpl in Hnot.
    destruct H1 as [-> | ->], H2 as [-> | ->]; auto; exfalso; tauto.
  - exfalso.
    destruct (proj1 (Hl k1 s1) (or_introl eq_refl)) as [H1 _].
    destruct (proj1 (Hl k2 s2) (or_intror (or_introl eq_refl))) as [H2 _].
    destruct (proj1 (Hl k3 s3)
                (or_intror (or_intror (or_introl eq_refl)))) as [H3 _].
    inversion Hnd as [|? ? Hnot1 Hnd']; subst.
    inversion Hnd' as [|? ? Hnot2 _]; subst. simpl in Hnot1, Hnot2.
    destruct H1 as [-> | ->], H2 as [-> | ->], H3 as [-> | ->]; tauto.
Qed.

(** A publication whose aggregate score is not 0 has a row. *)
Lemma aggregate_score_row (rows : list InvertedIndexEntry) (k : Z) :
  aggregate_score rows k <> 0%R ->
  exists e, In e rows /\ publication_id e = k.
Proof.
  induction rows as [|e rows IH]; simpl; intros Hs; [now elim Hs|].
  destruct (Z.eqb (publication_id e) k) eqn:Hk.
  - exists e. split; [now left | now apply Z.eqb_eq].
  - destruct (IH Hs) as (e' & He' & Hk'). exists e'. auto.
Qed.

(** Two publications reach the threshold, with the same score: the result
    holds the two, in one order or the other. *)
Lemma rank_two_way_tie (rows : list InvertedIndexEntry)
    (a b : Z) (x : R) (top_n : Z) :
  a <> b -> (2 <= top_n)%Z -> (1 / 100 <= x)%R ->
  aggregate_score rows a = x ->
  aggregate_score rows b = x ->
  (forall e, In e rows ->
     publication_id e = a \/ publication_id e = b
     \/ (aggregate_score rows (publication_id e) < 1 / 100)%R) ->
  rank new_engine rows top_n = [(a, round4 x); (b, round4 x)]
  \/ rank new_engine rows top_n = [(b, round4 x); (a, round4 x)].
Proof.
  intros Hab Htop Hx Hsa Hsb Hrest.
  assert (Ha : exists e, In e rows /\ publication_id e = a)
    by (apply aggregate_score_row; lra).
  assert (Hb : exists e, In e rows /\ publication_id e = b)
    by (apply aggregate_score_row; lra).
  assert (Hl : forall k s,
             In (k, s) (sorted_desc
                          (filtered_docs new_engine (doc_scores rows))) <->
             (k = a \/ k = b) /\ s = x).
  { intros k s. rewrite ranked_In. simpl. split.
    - intros ((e & He & Hk) & -> & Hthr). subst k.
      destruct (Hrest e He) as [Hk | [Hk | Hlow]].
      + rewrite Hk. auto.
      + rewrite Hk. auto.
      + lra.
    - intros [[-> | ->] ->]; repeat split; auto; lra. }
  assert (Hnd := ranked_NoDup new_engine rows).
  assert (Hperm := sorted_desc_perm
                     (filtered_docs new_engine (doc_scores rows))).
  unfold rank. destruct Ha as (ea & Hea & _).
  destruct rows as [|e0 rows0]; [contradiction|].
  remember (e0 :: rows0) as rows' eqn:Hrows. clear Hrows.
  remember (sorted_desc (filtered_docs new_engine (doc_scores rows')))
    as ranked eqn:Hranked.
  assert (Htwo := two_keys_same_score ranked a b x Hab Hnd Hl).
  destruct (filtered_docs new_engine (doc_scores rows')) as [|d ds] eqn:Hf.
  { exfalso. apply Permutation_sym, Permutation_nil in Hperm.
    destruct Htwo as [H|H]; rewrite H in Hperm; discriminate Hperm. }
  assert (Hcut : Py.slice_to ranked (Z.min top_n (max_results new_engine))
                 = ranked).
  { unfold Py.slice_to. simpl max_results.
    destruct (0 <=? Z.min top_n 500)%Z eqn:Hle;
      [|apply Z.leb_gt in Hle; lia].
    apply firstn_all2.
    assert (List.length ranked = 2%nat)
      by (destruct Htwo as [H|H]; rewrite H; reflexivity).
    lia. }
  rewrite Hcut.
  destruct Htwo as [H|H]; rewrite H; [left | right]; reflexivity.
Qed.

(** [search] is [rank] on the rows of the table in their order. *)
Lemma search_rank {nltk : Nltk} (self : SearchEngine) (db : Database)
    (query : string) (top_n : Z) :
  Py.strip_is_empty query = false ->
  preprocess_text query <> [] ->
  search self db query top_n =
  rank self (matching_entries db (preprocess_text query)) top_n.
Proof.
  intros Hblank Htokens. unfold search, rank, sorted_docs.
  destruct query as [|c q]; [discriminate Hblank|].
  rewrite Hblank.
  destruct (preprocess_text (String c q)); [contradiction|reflexivity].
Qed.

(** The rows the query "python programming" matches after a rebuild of the
    three documents of scenario A, whatever the order of the store. *)
Lemma scenario_a_matching
    (pubs : list Publication) (old : list InvertedIndexEntry) :
  Permutation pubs scenario_a ->
  let rows :=
    matching_entries
      (rebuilt {| publications := pubs; index_entries := old |})
      (preprocess_text "python programming") in
  aggregate_score rows 1 = ln (3 / 2)
  /\ aggregate_score rows 3 = ln (3 / 2)
  /\ aggregate_score rows 2 = 0%R
  /\ (forall e, In e rows ->
        publication_id e = 1%Z \/ publication_id e = 3%Z
        \/ publication_id e = 2%Z).
Proof.
  intros Hperm rows. subst rows.
  pose proof (tfidf_all_documents 1 3 eq_refl) as H33.
  pose proof tfidf_1_3_2 as H32.
  pose proof ln_3_2 as Hln.
  destruct (scenario_a_orders pubs Hperm)
    as [-> | [-> | [-> | [-> | [-> | ->]]]]];
    cbv -[tfidf Rplus Rdiv Rmult IZR ln];
    (split; [lra|]); (split; [lra|]); (split; [lra|]);
    intros e He; decompose [or] He; subst; simpl; auto; contradiction.
Qed.

Lemma ln_3_2_threshold : (1 / 100 <= ln (3 / 2))%R.
Proof.
  pose proof ln_3_2 as H. lra.
Qed.

(** The result for the rows in any order: doc1 and doc3, one before the
    other. *)
Lemma scenario_a_found
    (pubs : list Publication) (old rows : list InvertedIndexEntry) :
  Permutation pubs scenario_a ->
  Permutation rows
    (matching_entries
       (rebuilt {| publications := pubs; index_entries := old |})
       (preprocess_text "python programming")) ->
  rank new_engine rows 10 =
    [(1%Z, round4 (ln (3 / 2))); (3%Z, round4 (ln (3 / 2)))]
  \/ rank new_engine rows 10 =
    [(3%Z, round4 (ln (3 / 2))); (1%Z, round4 (ln (3 / 2)))].
Proof.
  intros Hpubs Hrows.
  destruct (scenario_a_matching pubs old Hpubs)
    as (H1 & H3 & H2 & Hkeys).
  apply rank_two_way_tie.
  - discriminate.
  - lia.
  - exact ln_3_2_threshold.
  - now rewrite (aggregate_score_perm _ _ 1 Hrows).
  - now rewrite (aggregate_score_perm _ _ 3 Hrows).
  - intros e He. apply (Permutation_in _ Hrows) in He.
    destruct (Hkeys e He) as [Hk | [Hk | Hk]]; auto.
    right. right. rewrite Hk, (aggregate_score_perm _ _ 2 Hrows), H2. lra.
Qed.

(** C3, as the code has it. After a rebuild of the three documents of
    scenario A, in whatever order the store yields them, and in whatever
    order the database yields the index rows the query "python programming"
    matches, the result holds doc1 and doc3 and not doc2.  "python" is in
    all three documents, so it weighs [ln (3 / 3) = 0]; doc2 matches
    nothing else, its score 0 is under the threshold 0.01 and it is dropped.
    doc1 and doc3 both score [ln (3 / 2)]: the scores do not order them,
    and either comes first for some order of the rows. *)
Theorem scenario_a_ranking
    (pubs : list Publication) (old rows : list InvertedIndexEntry) :
  Permutation pubs scenario_a ->
  let db := rebuilt {| publications := pubs; index_entries := old |} in
  let matched := matching_entries db (preprocess_text "python programming") in
  Permutation rows matched ->
  let found := rank new_engine rows 10 in
  let score := round4 (ln (3 / 2)) in
  search new_engine db "python programming" 10 = rank new_engine matched 10
  /\ (found = [(1%Z, score); (3%Z, score)]
      \/ found = [(3%Z, score); (1%Z, score)])
  /\ ~ In 2%Z (map fst found)
  /\ aggregate_score rows 1 = ln (3 / 2)
  /\ aggregate_score rows 3 = ln (3 / 2)
  /\ aggregate_score rows 2 = 0%R
  /\ (exists rows1, Permutation rows1 matched
        /\ map fst (rank new_engine rows1 10) = [1%Z; 3%Z])
  /\ (exists rows2, Permutation rows2 matched
        /\ map fst (rank new_engine rows2 10) = [3%Z; 1%Z]).
Proof.
  intros Hpubs db matched Hrows found score.
  assert (Hfound := scenario_a_found pubs old rows Hpubs Hrows).
  fold found score in Hfound.
  destruct (scenario_a_matching pubs old Hpubs)
    as (H1 & H3 & H2 & _).
  fold db matched in H1, H3, H2.
  split; [now apply search_rank|].
  split; [exact Hfound|].
  split.
  { destruct Hfound as [-> | ->]; simpl; intuition discriminate. }
  rewrite !(aggregate_score_perm _ _ _ Hrows).
  split; [exact H1|]. split; [exact H3|]. split; [exact H2|].
  assert (Hrev : Permutation (rev matched) matched)
    by apply Permutation_sym, Permutation_rev.
  assert (Hsame := scenario_a_found pubs old matched Hpubs
                     (Permutation_refl _)).
  assert (Hother := scenario_a_found pubs old (rev matched) Hpubs Hrev).
  fold db matched in Hsame, Hother.
  assert (Hdiffer : map fst (rank new_engine (rev matched) 10) <>
                    map fst (rank new_engine matched 10)).
  { subst matched db. clear -Hpubs.
    pose proof (tfidf_all_documents 1 3 eq_refl) as H33.
    pose proof tfidf_1_3_2 as H32.
    pose proof ln_3_2 as Hln.
    destruct (scenario_a_orders pubs Hpubs)
      as [-> | [-> | [-> | [-> | [-> | ->]]]]];
      run_services; discriminate. }
  destruct Hsame as [Hs | Hs], Hother as [Ho | Ho];
    rewrite Hs, Ho in Hdiffer; simpl in Hdiffer;
    try (now elim Hdiffer).
  - split; [exists matched | exists (rev matched)];
      (split; [auto using Permutation_refl|]);
      [rewrite Hs | rewrite Ho]; reflexivity.
  - split; [exists (rev matched) | exists matched];
      (split; [auto using Permutation_refl|]);
      [rewrite Ho | rewrite Hs]; reflexivity.
Qed.

Lemma scenario_a_ranking_witness :
  Permutation scenario_a scenario_a
  /\ ~ In 2%Z
        (map fst
           (rank new_engine
              (matching_entries (rebuilt (store scenario_a))
                 (preprocess_text "python programming")) 10)).
Proof.
  split; [apply Permutation_refl|].
  apply (scenario_a_ranking scenario_a [] _ (Permutation_refl _)
           (Permutation_refl _)).
Defined.

(** C3: whatever the order of the matching rows, the ranking is not doc3,
    doc1, doc2; doc2 is not in it. *)
Lemma scenario_a_ranking_counterexample :
  ~ exists rows,
      Permutation rows
        (matching_entries (rebuilt (store scenario_a))
           (preprocess_text "python programming"))
      /\ map fst (rank new_engine rows 10) = [3; 1; 2]%Z.
Proof.
  intros (rows & Hrows & Hfound).
  destruct (scenario_a_found scenario_a [] rows (Permutation_refl _) Hrows)
    as [H | H]; rewrite H in Hfound; discriminate Hfound.
Qed.

End TieOrder.
